(** * Verification of [scripts/github-storage/generate-manifest.py]

    A shallow embedding of the manifest generator: the Python string
    operations it relies on, the regular expressions it compiles, the
    frontmatter parser, the per-file and per-directory entry builders, the
    top-level walk and the serialization of the manifest.

    Python [str] values are modelled by [string]; a character is a code
    point below 256.  Exceptions are results of type [result].  The file
    system, the [git] subprocess, the JSON decoder, the local time zone
    and the printing of floats are inputs of the model, gathered in a
    [world]: a run of the script is a function of what these return.
    A node of the tree is missing, a directory or a file whose status can
    be read; the subprocess cannot be started for lack of the executable,
    or runs; the decoder returns a document or raises; the conversion of a
    wall-clock time to a timestamp succeeds or raises [ValueError], as it
    does next to the first and the last year.  Other failures of the
    operating system are outside the model. *)

From Stdlib Require Import ZArith List String Ascii Bool Lia Permutation.
From Stdlib Require Import SpecFloat DecimalString.
From Stdlib Require DecimalFacts DecimalPos.
Import ListNotations.
Set Warnings "-register-all".
Open Scope string_scope.
Open Scope Z_scope.

(** ** Python string operations *)

Module PyStr.

Definition code (c : ascii) : N := N_of_ascii c.

(** [str.isspace] on one character (also the class [\s] of [re]). *)
Definition is_space (c : ascii) : bool :=
  let n := code c in
  ((9 <=? n) && (n <=? 13) || (28 <=? n) && (n <=? 32)
   || (n =? 133) || (n =? 160))%N.

(** [str.lower] on one character. *)
Definition lower_char (c : ascii) : ascii :=
  let n := code c in
  if ((65 <=? n) && (n <=? 90)
      || (192 <=? n) && (n <=? 222) && negb (n =? 215))%N
  then ascii_of_N (n + 32) else c.

Fixpoint lower (s : string) : string :=
  match s with
  | EmptyString => EmptyString
  | String c r => String (lower_char c) (lower r)
  end.

Fixpoint rev_acc (s acc : string) : string :=
  match s with
  | EmptyString => acc
  | String c r => rev_acc r (String c acc)
  end.

Definition rev (s : string) : string := rev_acc s EmptyString.

(** Drop the leading characters that satisfy [p]. *)
Fixpoint drop_while (p : ascii -> bool) (s : string) : string :=
  match s with
  | EmptyString => EmptyString
  | String c r => if p c then drop_while p r else s
  end.

Definition strip_with (p : ascii -> bool) (s : string) : string :=
  rev (drop_while p (rev (drop_while p s))).

(** [s.strip()] *)
Definition strip (s : string) : string := strip_with is_space s.

Definition dquote : ascii := "034"%char.
Definition squote : ascii := "039"%char.

Definition is_quote (c : ascii) : bool :=
  (Ascii.eqb c dquote || Ascii.eqb c squote)%bool.

(** [s.strip(q)] where [q] holds the double and the single quote. *)
Definition strip_quotes (s : string) : string := strip_with is_quote s.

(** [s.startswith(c)] and [s.endswith(c)] for a one-character [c]. *)
Definition startswith_char (c : ascii) (s : string) : bool :=
  match s with
  | String d _ => Ascii.eqb c d
  | EmptyString => false
  end.

Definition endswith_char (c : ascii) (s : string) : bool :=
  startswith_char c (rev s).

Definition startswith (p s : string) : bool := String.prefix p s.

(** [s[1:]] and [s[1:-1]] *)
Definition tail (s : string) : string :=
  match s with
  | String _ r => r
  | EmptyString => EmptyString
  end.

Definition slice_1_m1 (s : string) : string := rev (tail (rev (tail s))).

(** [s[2:]] *)
Definition slice_2 (s : string) : string := tail (tail s).

(** [c in s] for a one-character [c]. *)
Fixpoint contains_char (c : ascii) (s : string) : bool :=
  match s with
  | EmptyString => false
  | String d r => (Ascii.eqb c d || contains_char c r)%bool
  end.

(** [s.split(c)]: the pieces between the occurrences of [c]; never empty. *)
Fixpoint split (c : ascii) (s : string) : list string :=
  match s with
  | EmptyString => [EmptyString]
  | String d r =>
      if Ascii.eqb c d then EmptyString :: split c r
      else match split c r with
           | p :: ps => String d p :: ps
           | [] => [String d EmptyString]
           end
  end.

(** [s.split(c, 1)] on a string that contains [c]: the text before the
    first [c] and the text after it. *)
Fixpoint split1 (c : ascii) (s : string) : string * string :=
  match s with
  | EmptyString => (EmptyString, EmptyString)
  | String d r =>
      if Ascii.eqb c d then (EmptyString, r)
      else let '(k, v) := split1 c r in (String d k, v)
  end.

(** [sep.join(l)] *)
Fixpoint join (sep : string) (l : list string) : string :=
  match l with
  | [] => EmptyString
  | [x] => x
  | x :: r => x ++ sep ++ join sep r
  end.

Definition is_empty (s : string) : bool :=
  match s with EmptyString => true | _ => false end.

End PyStr.

(** ** Exceptions and results *)

Inductive exn : Type :=
| FileNotFoundError    (* the [git] executable cannot be started *)
| UnicodeDecodeError   (* a subclass of [ValueError] *)
| TypeError
| AttributeError
| KeyError
| RecursionError       (* the decoder on a deeply nested document *)
| ValueError.          (* the decoder on an integer beyond the digit limit *)

Inductive result (A : Type) : Type :=
| Ok (a : A)
| Raise (e : exn).
Arguments Ok {A} a.
Arguments Raise {A} e.

Definition bind {A B : Type} (m : result A) (f : A -> result B) : result B :=
  match m with
  | Ok a => f a
  | Raise e => Raise e
  end.

Notation "x <- m ;; k" := (bind m (fun x => k))
  (at level 61, m at next level, right associativity).

(** ** Regular expressions

    A backtracking matcher with the priorities of Python's [re]: the
    alternatives of [|] are tried left to right, a greedy repetition tries
    one more iteration before it tries to stop, a lazy one the other way
    round.  The patterns of the script are written below as terms of [re]. *)

Module Regex.

Definition newline : ascii := "010"%char.

Inductive re : Type :=
| Eps
| Cls (p : ascii -> bool)          (* one character of a class *)
| Seq (a b : re)
| Alt (a b : re)
| Star (greedy : bool) (a : re)    (* [a*] and [a*?] *)
| Bol (multiline : bool)           (* [^] *)
| Eol (multiline : bool)           (* [$] *)
| Grp (n : nat) (a : re).          (* capturing group number [n] *)

(** A position in the subject: the character before it, the number of
    characters before it, the text after it, and the groups captured so
    far (the latest capture first). *)
Record state : Type := mkState {
  prev : option ascii;
  pos : nat;
  rest : string;
  caps : list (nat * string)
}.

Definition or_else {A : Type} (x y : option A) : option A :=
  match x with
  | Some _ => x
  | None => y
  end.

Definition progress (st st' : state) : bool := (pos st <? pos st')%nat.

(** The text between two positions of the same subject. *)
Definition consumed (st st' : state) : string :=
  substring 0 (pos st' - pos st) (rest st).

Section Matcher.
Context {R : Type}.

Definition cont : Type := state -> option R.

(** Repetition of [body]; [n] bounds the number of iterations, each of
    which has to consume a character. *)
Fixpoint star_loop (body : state -> cont -> option R) (greedy : bool)
    (n : nat) (st : state) (k : cont) : option R :=
  match n with
  | O => k st
  | S n' =>
      let again :=
        body st (fun st' =>
          if progress st st' then star_loop body greedy n' st' k
          else None) in
      if greedy then or_else again (k st) else or_else (k st) again
  end.

Fixpoint run (r : re) (st : state) (k : cont) : option R :=
  match r with
  | Eps => k st
  | Cls p =>
      match rest st with
      | String c s =>
          if p c then k (mkState (Some c) (S (pos st)) s (caps st)) else None
      | EmptyString => None
      end
  | Seq a b => run a st (fun st' => run b st' k)
  | Alt a b => or_else (run a st k) (run b st k)
  | Star greedy a =>
      star_loop (run a) greedy (S (String.length (rest st))) st k
  | Bol multiline =>
      match prev st with
      | None => k st
      | Some c => if (multiline && Ascii.eqb c newline)%bool then k st
                  else None
      end
  | Eol multiline =>
      match rest st with
      | EmptyString => k st
      | String c s =>
          if (Ascii.eqb c newline
              && (multiline || PyStr.is_empty s))%bool
          then k st else None
      end
  | Grp n a =>
      run a st (fun st' =>
        k (mkState (prev st') (pos st') (rest st')
                   ((n, consumed st st') :: caps st')))
  end.
End Matcher.

Definition start (s : string) : state := mkState None 0 s [].

(** [re.match(r, s)]: a match at the beginning of [s]. *)
Definition re_match (r : re) (s : string) : option state :=
  run r (start s) Some.

(** One step to the right. *)
Definition advance (st : state) : option state :=
  match rest st with
  | String c s => Some (mkState (Some c) (S (pos st)) s [])
  | EmptyString => None
  end.

(** [re.search(r, s)]: the leftmost match. *)
Fixpoint search_from (r : re) (n : nat) (st : state) : option state :=
  match run r st Some with
  | Some m => Some m
  | None =>
      match n, advance st with
      | S n', Some st' => search_from r n' st'
      | _, _ => None
      end
  end.

Definition re_search (r : re) (s : string) : option state :=
  search_from r (String.length s) (start s).

(** [re.sub(r, '', s)] for a pattern [r] that matches no empty text:
    every match, scanning from the left, is removed. *)
Fixpoint sub_from (r : re) (n : nat) (st : state) : string :=
  match n with
  | O => rest st
  | S n' =>
      match run r st Some with
      | Some m =>
          if progress st m
          then sub_from r n' (mkState (prev m) (pos m) (rest m) [])
          else match rest st with
               | String c s => String c (sub_from r n' (mkState (Some c) (S (pos st)) s []))
               | EmptyString => EmptyString
               end
      | None =>
          match rest st with
          | String c s => String c (sub_from r n' (mkState (Some c) (S (pos st)) s []))
          | EmptyString => EmptyString
          end
      end
  end.

Definition re_sub_empty (r : re) (s : string) : string :=
  sub_from r (S (String.length s)) (start s).

(** [m.group(n)] *)
Fixpoint group (n : nat) (l : list (nat * string)) : option string :=
  match l with
  | [] => None
  | (i, s) :: l' => if Nat.eqb i n then Some s else group n l'
  end.

(** Building blocks of the patterns. *)
Definition chr (c : ascii) : re := Cls (Ascii.eqb c).
Fixpoint lit (s : string) : re :=
  match s with
  | EmptyString => Eps
  | String c s' => Seq (chr c) (lit s')
  end.
Definition plus (greedy : bool) (a : re) : re := Seq a (Star greedy a).
Definition space : re := Cls PyStr.is_space.               (* [\s] *)
Definition dot : re := Cls (fun c => negb (Ascii.eqb c newline)).
Definition dot_all : re := Cls (fun _ => true).            (* [.] with DOTALL *)
Definition is_digit (c : ascii) : bool :=
  ((48 <=? PyStr.code c) && (PyStr.code c <=? 57))%N.
Definition digit : re := Cls is_digit.                     (* [\d] *)
Definition range (lo hi : ascii) : re :=
  Cls (fun c => ((PyStr.code lo <=? PyStr.code c)
                 && (PyStr.code c <=? PyStr.code hi))%N).

Fixpoint seqs (l : list re) : re :=
  match l with
  | [] => Eps
  | [a] => a
  | a :: l' => Seq a (seqs l')
  end.

Fixpoint alts (a : re) (l : list re) : re :=
  match l with
  | [] => a
  | b :: l' => Alt a (alts b l')
  end.

End Regex.

(** ** Python values *)

(** The values the script handles: what [json.load] returns, what the
    frontmatter parser builds, and the manifest entries.  A [dict] keeps
    its keys in insertion order. *)
Inductive pyobj : Type :=
| VNone
| VBool (b : bool)
| VInt (n : Z)
| VFloat (f : spec_float)
| VStr (s : string)
| VList (l : list pyobj)
| VDict (d : list (string * pyobj)).

Definition dict : Type := list (string * pyobj).

(** Truth value of an object, as [if x:] tests it. *)
Definition truthy (v : pyobj) : bool :=
  match v with
  | VNone => false
  | VBool b => b
  | VInt n => negb (n =? 0)
  | VFloat (S754_zero _) => false
  | VFloat _ => true
  | VStr s => negb (PyStr.is_empty s)
  | VList l => match l with [] => false | _ => true end
  | VDict d => match d with [] => false | _ => true end
  end.

(** [isinstance(v, list)] *)
Definition is_list (v : pyobj) : bool :=
  match v with VList _ => true | _ => false end.

(** [d.get(k)] as an option, and [k in d]. *)
Fixpoint dict_get (k : string) (d : dict) : option pyobj :=
  match d with
  | [] => None
  | (k', v) :: d' => if String.eqb k' k then Some v else dict_get k d'
  end.

Definition dict_mem (k : string) (d : dict) : bool :=
  match dict_get k d with Some _ => true | None => false end.

(** [d[k] = v]: an existing key keeps its place, a new key goes last. *)
Fixpoint dict_set (k : string) (v : pyobj) (d : dict) : dict :=
  match d with
  | [] => [(k, v)]
  | (k', v') :: d' =>
      if String.eqb k' k then (k', v) :: d' else (k', v') :: dict_set k v d'
  end.

(** [list(d.keys())[-1]] with its value: the key added last. *)
Definition dict_last (d : dict) : option (string * pyobj) :=
  List.last (map Some d) None.

(** [d.get(k, default)] *)
Definition dict_get_default (k : string) (default : pyobj) (d : dict) : pyobj :=
  match dict_get k d with Some v => v | None => default end.

(** ** The script *)

Module Manifest.
Import PyStr Regex.

(** [EXTENSIONS] *)
Definition EXTENSIONS : list string :=
  [".md"; ".pdf"; ".png"; ".jpg"; ".jpeg"; ".gif"; ".webp"; ".svg";
   ".link"; ".enc"].

Definition str_in (s : string) (l : list string) : bool :=
  existsb (String.eqb s) l.

(** *** [parse_frontmatter] *)

(** [^---\s*\n(.*?)\n---\s*\n] with DOTALL *)
Definition frontmatter_re : re :=
  seqs [Bol false; lit "---"; Star true space; chr newline;
        Grp 1 (Star false dot_all);
        chr newline; lit "---"; Star true space; chr newline].

(** The value of a [key: value] line. *)
Definition parse_value (value : string) : pyobj :=
  if (startswith_char "[" value && endswith_char "]" value)%bool then
    VList (map (fun item => VStr (strip_quotes (strip item)))
               (filter (fun item => negb (is_empty (strip item)))
                       (split "," (slice_1_m1 value))))
  else if (startswith_char dquote value && endswith_char dquote value)%bool
  then VStr (slice_1_m1 value)
  else if (startswith_char squote value && endswith_char squote value)%bool
  then VStr (slice_1_m1 value)
  else if String.eqb (lower value) "true" then VBool true
  else if String.eqb (lower value) "false" then VBool false
  else if String.eqb value "" then VList []
  else VStr value.

(** The body of the loop over the lines of the block. *)
Definition parse_line (frontmatter : dict) (raw : string) : dict :=
  let line := strip raw in
  if (is_empty line || startswith_char "#" line)%bool then frontmatter
  else if contains_char ":" line then
    let '(key, value) := split1 ":" line in
    dict_set (strip key) (parse_value (strip value)) frontmatter
  else if (startswith "- " line && negb (match frontmatter with
                                         | [] => true
                                         | _ => false
                                         end))%bool then
    match dict_last frontmatter with
    | Some (last_key, VList items) =>
        dict_set last_key
          (VList (items ++ [VStr (strip_quotes (strip (slice_2 line)))]))
          frontmatter
    | _ => frontmatter
    end
  else frontmatter.

Definition parse_frontmatter (content : string) : dict :=
  match re_match frontmatter_re content with
  | None => []
  | Some m =>
      match group 1 (caps m) with
      | Some yaml_content =>
          fold_left parse_line (split newline yaml_content) []
      | None => []
      end
  end.

(** *** [extract_title_from_heading] *)

(** [^---\s*\n.*?\n---\s*\n] with DOTALL *)
Definition skip_frontmatter_re : re :=
  seqs [Bol false; lit "---"; Star true space; chr newline;
        Star false dot_all;
        chr newline; lit "---"; Star true space; chr newline].

(** [^#\s+(.+)$] with MULTILINE *)
Definition heading_re : re :=
  seqs [Bol true; chr "#"; plus true space; Grp 1 (plus true dot); Eol true].

Definition extract_title_from_heading (content : string) : option string :=
  let content_without_fm := re_sub_empty skip_frontmatter_re content in
  match re_search heading_re content_without_fm with
  | Some m =>
      match group 1 (caps m) with
      | Some g => Some (strip g)
      | None => None
      end
  | None => None
  end.

Definition nl : string := String newline EmptyString.

(** *** [parse_date_to_timestamp] *)

(** [int(s)] for a decimal literal: surrounding white space, an optional
    sign, digits with single underscores between them.  Anything else is a
    [ValueError], here [None]. *)
Definition digit_val (c : ascii) : Z := Z.of_N (code c) - 48.

Fixpoint int_digits (s : string) (acc : Z) (after_digit : bool) : option Z :=
  match s with
  | EmptyString => if after_digit then Some acc else None
  | String c r =>
      if is_digit c then int_digits r (10 * acc + digit_val c) true
      else if (Ascii.eqb c "_" && after_digit)%bool then
        match r with
        | String d _ => if is_digit d then int_digits r acc false else None
        | EmptyString => None
        end
      else None
  end.

Fixpoint count_digits (s : string) : nat :=
  match s with
  | EmptyString => O
  | String c r => if is_digit c then S (count_digits r) else count_digits r
  end.

(** [sys.get_int_max_str_digits()], which the script leaves at its
    default: a literal with more digits is a [ValueError] too. *)
Definition int_max_str_digits : nat := 4300.

Definition py_int (s : string) : option Z :=
  if (int_max_str_digits <? count_digits s)%nat then None
  else
    match strip s with
    | String "-" r => option_map Z.opp (int_digits r 0 false)
    | String "+" r => int_digits r 0 false
    | t => int_digits t 0 false
    end.

(** The directives of [datetime.strptime], as [_strptime.TimeRE] spells
    them; groups 0 to 5 stand for Y, m, d, H, M and S. *)
Definition dir_Y : re := Grp 0 (seqs [digit; digit; digit; digit]).
Definition dir_m : re :=
  Grp 1 (alts (Seq (chr "1") (range "0" "2"))
              [Seq (chr "0") (range "1" "9"); range "1" "9"]).
Definition dir_d : re :=
  Grp 2 (alts (Seq (chr "3") (range "0" "1"))
              [Seq (range "1" "2") digit; Seq (chr "0") (range "1" "9");
               range "1" "9"; Seq (chr " ") (range "1" "9")]).
Definition dir_H : re :=
  Grp 3 (alts (Seq (chr "2") (range "0" "3"))
              [Seq (range "0" "1") digit; digit]).
Definition dir_M : re := Grp 4 (alts (Seq (range "0" "5") digit) [digit]).
Definition dir_S : re :=
  Grp 5 (alts (Seq (chr "6") (range "0" "1"))
              [Seq (range "0" "5") digit; digit]).

(** A literal character of a format; the format is compiled with
    IGNORECASE. *)
Definition ichr (c : ascii) : re :=
  Cls (fun x => Ascii.eqb (lower_char x) (lower_char c)).

(** ["%Y-%m-%d"], ["%Y-%m-%dT%H:%M:%S"] and ["%Y/%m/%d"] *)
Definition formats : list re :=
  [ seqs [dir_Y; ichr "-"; dir_m; ichr "-"; dir_d];
    seqs [dir_Y; ichr "-"; dir_m; ichr "-"; dir_d; ichr "T";
          dir_H; ichr ":"; dir_M; ichr ":"; dir_S];
    seqs [dir_Y; ichr "/"; dir_m; ichr "/"; dir_d] ].

Record datetime : Type := mkDatetime {
  year : Z; month : Z; day : Z; hour : Z; minute : Z; second : Z
}.

Definition is_leap (y : Z) : bool :=
  ((y mod 4 =? 0) && (negb (y mod 100 =? 0) || (y mod 400 =? 0)))%bool.

Definition days_in_month (y m : Z) : Z :=
  if m =? 2 then (if is_leap y then 29 else 28)
  else if (m =? 4) || (m =? 6) || (m =? 9) || (m =? 11) then 30 else 31.

Definition days_before_year (y : Z) : Z :=
  let p := y - 1 in p * 365 + p / 4 - p / 100 + p / 400.

Definition days_before_month (y m : Z) : Z :=
  nth (Z.to_nat m) [0; 0; 31; 59; 90; 120; 151; 181; 212; 243; 273; 304; 334] 0
  + (if (2 <? m) && is_leap y then 1 else 0).

(** [date(y, m, d).toordinal()] *)
Definition ymd2ord (y m d : Z) : Z :=
  days_before_year y + days_before_month y m + d.

(** The constructor's range checks. *)
Definition valid_datetime (dt : datetime) : bool :=
  (1 <=? year dt) && (year dt <=? 9999)
  && (1 <=? month dt) && (month dt <=? 12)
  && (1 <=? day dt) && (day dt <=? days_in_month (year dt) (month dt))
  && (0 <=? hour dt) && (hour dt <=? 23)
  && (0 <=? minute dt) && (minute dt <=? 59)
  && (0 <=? second dt) && (second dt <=? 59).

Definition group_int (n : nat) (default : Z) (l : list (nat * string)) : option Z :=
  match group n l with
  | Some s => py_int s
  | None => Some default
  end.

(** [datetime.strptime(value, fmt)]; [None] stands for [ValueError]. *)
Definition strptime (value : string) (fmt : re) : option datetime :=
  match re_match fmt value with
  | None => None
  | Some m =>
      if negb (is_empty (rest m)) then None   (* unconverted data remains *)
      else
        match group_int 0 1900 (caps m), group_int 1 1 (caps m),
              group_int 2 1 (caps m), group_int 3 0 (caps m),
              group_int 4 0 (caps m), group_int 5 0 (caps m) with
        | Some y, Some mo, Some d, Some h, Some mi, Some s =>
            let dt := mkDatetime y mo d h mi s in
            if valid_datetime dt then Some dt else None
        | _, _, _, _, _, _ => None
        end
  end.

(** Seconds on the wall clock since 1970-01-01T00:00:00 on the wall clock. *)
Definition wall_seconds (dt : datetime) : Z :=
  (ymd2ord (year dt) (month dt) (day dt) - 719163) * 86400
  + hour dt * 3600 + minute dt * 60 + second dt.

Section LocalTime.
(** The local time zone of the run: the epoch second at which the wall
    clock shows a given number of wall-clock seconds (the identity in
    UTC).  [None] stands for the [ValueError] of a time for which the
    conversion leaves the years 1 to 9999. *)
Variable mktime : Z -> option Z.

(** [int(dt.timestamp())] of a naive [dt]; [None] stands for
    [ValueError]. *)
Definition timestamp (dt : datetime) : option Z := mktime (wall_seconds dt).

(** The loop over [formats]: both calls are inside the [try], so a format
    whose date has no timestamp is passed over like one that does not
    match. *)
Fixpoint try_formats (value : string) (fmts : list re) : pyobj :=
  match fmts with
  | [] => VNone
  | fmt :: fmts' =>
      match strptime value fmt with
      | Some dt =>
          match timestamp dt with
          | Some t => VInt t
          | None => try_formats value fmts'
          end
      | None => try_formats value fmts'
      end
  end.

Definition parse_date_to_timestamp (value : pyobj) : pyobj :=
  match value with
  | VInt n => VInt n
  | VBool b => VBool b          (* [bool] is a subclass of [int] *)
  | VStr s => try_formats s formats
  | _ => VNone
  end.
End LocalTime.

(** *** [get_git_modified_time] *)

(** What [subprocess.run(['git', 'log', ...], capture_output=True,
    text=True, check=True)] comes back with. *)
Inductive completed : Type :=
| SpawnFailed                                  (* no [git] executable *)
| Undecodable                                  (* output is not text *)
| Exited (returncode : Z) (stdout : string).

(** A non-zero exit status raises [CalledProcessError], a malformed
    number [ValueError]; both are caught.  [UnicodeDecodeError] is a
    [ValueError].  A missing executable raises [FileNotFoundError], which
    the handler does not list. *)
Definition get_git_modified_time (run : completed) : result pyobj :=
  match run with
  | SpawnFailed => Raise FileNotFoundError
  | Undecodable => Ok VNone
  | Exited returncode stdout =>
      if negb (returncode =? 0) then Ok VNone
      else if is_empty (strip stdout) then Ok VNone
      else match py_int (strip stdout) with
           | Some n => Ok (VInt n)
           | None => Ok VNone
           end
  end.

(** *** Paths and the file system *)

(** A path below the content root is the list of its components. *)
Definition path : Type := list string.

Definition name (p : path) : string := List.last p "".

(** [name.rfind('.')] splits a name into what is before the last dot and
    what is after it. *)
Definition rsplit_dot (n : string) : option (string * string) :=
  if contains_char "." n then
    let '(after, before) := split1 "." (rev n) in
    Some (rev before, rev after)
  else None.

(** [PurePath.suffix] and [PurePath.stem]: the last dot counts when it is
    neither the first nor the last character of the name. *)
Definition suffix (n : string) : string :=
  match rsplit_dot n with
  | Some (before, after) =>
      if (is_empty before || is_empty after)%bool then ""
      else String "." after
  | None => ""
  end.

Definition stem (n : string) : string :=
  match rsplit_dot n with
  | Some (before, after) =>
      if (is_empty before || is_empty after)%bool then n else before
  | None => n
  end.

(** [str(p.relative_to(content_dir))] *)
Definition rel_str (p : path) : string :=
  match p with
  | [] => "."
  | _ => join "/" p
  end.

(** [str(p)] for [p] below [Path(CONTENT_DIR)] *)
Definition CONTENT_DIR : string := "~".
Definition abs_str (p : path) : string := join "/" (CONTENT_DIR :: p).

(** What [open(p, 'r', encoding='utf-8').read()] does. *)
Inductive read_outcome : Type :=
| ReadText (s : string)
| ReadIOError            (* [OSError]: permissions, a vanished file, ... *)
| ReadDecodeError.       (* [UnicodeDecodeError] *)

Inductive node : Type :=
| Missing
| Directory (st_size : Z)
| File (st_size : Z) (content : read_outcome).

(** The surroundings of a run. *)
Record world : Type := mkWorld {
  fs : path -> node;                    (* the tree below the content root *)
  git_log : string -> completed;        (* the query for a path *)
  json_loads : string -> result (option pyobj);
                                        (* [Ok None]: [JSONDecodeError];
                                           [Raise]: any other exception of
                                           the decoder *)
  mktime : Z -> option Z;               (* the local time zone *)
  float_repr : spec_float -> string;    (* [float.__repr__] *)
  rglob : list path                     (* [content_dir.rglob('*')] *)
}.

Definition exists_ (w : world) (p : path) : bool :=
  match fs w p with Missing => false | _ => true end.
Definition is_file (w : world) (p : path) : bool :=
  match fs w p with File _ _ => true | _ => false end.
Definition is_dir (w : world) (p : path) : bool :=
  match fs w p with Directory _ => true | _ => false end.

(** [open] followed by [json.load] under
    [except (json.JSONDecodeError, IOError): pass]; [None] is the
    fall-through.  What the decoder raises besides [JSONDecodeError]
    ([RecursionError], the [ValueError] of an integer with too many
    digits) is not caught. *)
Definition load_json (w : world) (p : path) : result (option pyobj) :=
  match fs w p with
  | Missing => Ok None
  | Directory _ => Ok None               (* [IsADirectoryError] *)
  | File _ ReadIOError => Ok None
  | File _ ReadDecodeError => Raise UnicodeDecodeError
  | File _ (ReadText s) => json_loads w s
  end.

(** *** [load_directory_meta] and [load_keys_file] *)

Definition load_directory_meta (w : world) (dir_path : path) : result pyobj :=
  r <- load_json w (dir_path ++ [".meta.json"])%list ;;
  Ok (match r with Some v => v | None => VDict [] end).

(** [PurePath.with_suffix] on the name: the old suffix, if any, is
    replaced. *)
Definition with_suffix (n sfx : string) : string := stem n ++ sfx.

(** [filepath.with_suffix(filepath.suffix + '.keys')] *)
Definition keys_path (filepath : path) : path :=
  (removelast filepath
   ++ [with_suffix (name filepath) (suffix (name filepath) ++ ".keys")])%list.

Definition load_keys_file (w : world) (filepath : path) : result pyobj :=
  r <- load_json w (keys_path filepath) ;;
  Ok (match r with Some v => v | None => VNone end).

(** *** [process_file] *)

(** [k in v] and [v[k]] for a string [k], on whatever the sidecar file
    decoded to. *)
Fixpoint is_substring (k s : string) : bool :=
  (String.prefix k s
   || match s with
      | EmptyString => false
      | String _ s' => is_substring k s'
      end)%bool.

Definition equals_str (k : string) (v : pyobj) : bool :=
  match v with VStr s => String.eqb s k | _ => false end.

Definition py_contains (k : string) (v : pyobj) : result bool :=
  match v with
  | VDict d => Ok (dict_mem k d)
  | VList l => Ok (existsb (equals_str k) l)
  | VStr s => Ok (is_substring k s)
  | _ => Raise TypeError
  end.

Definition py_getitem (k : string) (v : pyobj) : result pyobj :=
  match v with
  | VDict d =>
      match dict_get k d with
      | Some x => Ok x
      | None => Raise KeyError
      end
  | _ => Raise TypeError
  end.

(** [filepath.stat().st_size] *)
Definition stat_size (w : world) (p : path) : result Z :=
  match fs w p with
  | Missing => Raise FileNotFoundError
  | Directory n => Ok n
  | File n _ => Ok n
  end.

(** [if k in src: dst[k'] = src[k]], optionally only for lists. *)
Definition copy_key (k : string) (only_list : bool) (src : pyobj)
    (dst : dict) : result dict :=
  present <- py_contains k src ;;
  if present then
    v <- py_getitem k src ;;
    Ok (if (negb only_list || is_list v)%bool then dict_set k v dst else dst)
  else Ok dst.

(** The branch taken when the sidecar file holds something. *)
Definition apply_keys (keys_data : pyobj) (entry : dict) : result dict :=
  entry <- copy_key "title" false keys_data entry ;;
  entry <- copy_key "tags" true keys_data entry ;;
  encryption <- copy_key "algorithm" false keys_data [] ;;
  encryption <- copy_key "wrapped_keys" false keys_data encryption ;;
  Ok (match encryption with
      | [] => entry
      | _ => dict_set "encryption" (VDict encryption) entry
      end).

(** The branch for a markdown file whose text was read. *)
Definition apply_frontmatter (w : world) (content : string) (entry : dict)
    : dict :=
  let frontmatter := parse_frontmatter content in
  let entry :=
    match dict_get "title" frontmatter with
    | Some t => dict_set "title" t entry
    | None =>
        match extract_title_from_heading content with
        | Some heading_title =>
            if negb (is_empty heading_title)
            then dict_set "title" (VStr heading_title) entry
            else entry
        | None => entry
        end
    end in
  let entry :=
    match dict_get "tags" frontmatter with
    | Some t => if is_list t then dict_set "tags" t entry else entry
    | None => entry
    end in
  match dict_get "modified" frontmatter with
  | Some m =>
      dict_set "modified" (parse_date_to_timestamp (mktime w) m) entry
  | None => entry
  end.

(** [open(filepath).read()] *)
Definition read_text (w : world) (p : path) : read_outcome :=
  match fs w p with
  | File _ r => r
  | _ => ReadIOError
  end.

(** The entry before any metadata is applied. *)
Definition default_entry (filepath : path) (size : Z) (modified : pyobj)
    : dict :=
  [("path", VStr (rel_str filepath));
   ("title", VStr (stem (name filepath)));   (* [Path(rel_path).stem] *)
   ("size", VInt size);
   ("modified", modified);
   ("tags", VList [])].

Definition process_file (w : world) (filepath : path)
    : result (option dict) :=
  let ext := lower (suffix (name filepath)) in
  if String.eqb ext ".keys" then Ok None
  else if negb (str_in ext EXTENSIONS) then Ok None
  else
    let rel_path := rel_str filepath in
    if existsb (startswith_char ".") (split "/" rel_path) then Ok None
    else
      size <- stat_size w filepath ;;
      modified <- get_git_modified_time (git_log w (abs_str filepath)) ;;
      let entry := default_entry filepath size modified in
      keys_data <- load_keys_file w filepath ;;
      if truthy keys_data then
        entry <- apply_keys keys_data entry ;;
        Ok (Some entry)
      else if String.eqb ext ".md" then
        match read_text w filepath with
        | ReadText content => Ok (Some (apply_frontmatter w content entry))
        | ReadIOError => Ok (Some entry)
        | ReadDecodeError => Raise UnicodeDecodeError
        end
      else Ok (Some entry).

(** *** [process_directory_meta] *)

Definition process_directory_meta (w : world) (dir_path : path)
    : result (option dict) :=
  meta <- load_directory_meta w dir_path ;;
  if negb (truthy meta) then Ok None
  else
    let rel_path := rel_str dir_path in
    let rel_path := if String.eqb rel_path "." then "" else rel_path in
    match meta with
    | VDict meta =>
        Ok (Some
          [("path", VStr rel_path);
           ("title",
            dict_get_default "title"
              (VStr (if negb (is_empty rel_path) then name dir_path
                     else "Home")) meta);
           ("tags", dict_get_default "tags" (VList []) meta);
           ("description", dict_get_default "description" VNone meta);
           ("icon", dict_get_default "icon" VNone meta);
           ("thumbnail", dict_get_default "thumbnail" VNone meta)])
    | _ => Raise AttributeError        (* no method [get] *)
    end.

(** *** [json.dump(manifest, f, indent=2, ensure_ascii=False)] *)

Definition hex_digit (n : N) : ascii :=
  if (n <? 10)%N then ascii_of_N (48 + n) else ascii_of_N (87 + n).

(** One character inside a JSON string. *)
Definition escape_char (c : ascii) : string :=
  let n := code c in
  if Ascii.eqb c dquote then String "\" (String dquote "")
  else if Ascii.eqb c "\" then "\\"
  else if (n =? 8)%N then "\b"
  else if (n =? 12)%N then "\f"
  else if (n =? 10)%N then "\n"
  else if (n =? 13)%N then "\r"
  else if (n =? 9)%N then "\t"
  else if (n <? 32)%N then
    "\u00" ++ String (hex_digit (n / 16)) (String (hex_digit (n mod 16)) "")
  else String c "".

Fixpoint escape (s : string) : string :=
  match s with
  | EmptyString => ""
  | String c r => escape_char c ++ escape r
  end.

Definition json_str (s : string) : string :=
  String dquote (escape s ++ String dquote "").

Definition json_int (n : Z) : string := NilZero.string_of_int (Z.to_int n).

Fixpoint spaces (n : nat) : string :=
  match n with
  | O => ""
  | S n' => String " " (spaces n')
  end.

(** The line break and the indentation in front of an item at nesting
    depth [level]. *)
Definition newline_indent (level : nat) : string :=
  String newline (spaces (2 * level)).

Section Dumps.
Variable repr : spec_float -> string.

Fixpoint dumps (level : nat) (v : pyobj) {struct v} : string :=
  match v with
  | VNone => "null"
  | VBool true => "true"
  | VBool false => "false"
  | VInt n => json_int n
  | VFloat f => repr f
  | VStr s => json_str s
  | VList [] => "[]"
  | VList l =>
      "[" ++ newline_indent (S level)
      ++ join ("," ++ newline_indent (S level)) (map (dumps (S level)) l)
      ++ newline_indent level ++ "]"
  | VDict [] => "{}"
  | VDict d =>
      "{" ++ newline_indent (S level)
      ++ join ("," ++ newline_indent (S level))
           (map (fun kv => json_str (fst kv) ++ ": "
                           ++ dumps (S level) (snd kv)) d)
      ++ newline_indent level ++ "}"
  end.
End Dumps.

(** The text file is written with [encoding='utf-8']. *)
Definition utf8_char (c : ascii) : string :=
  let n := code c in
  if (n <? 128)%N then String c ""
  else String (ascii_of_N (192 + n / 64)) (String (ascii_of_N (128 + n mod 64)) "").

Fixpoint utf8 (s : string) : string :=
  match s with
  | EmptyString => ""
  | String c r => utf8_char c ++ utf8 r
  end.

(** *** [main] *)

(** The order of [Path] objects: component by component, a component by
    code points. *)
Definition path_compare (a b : path) : comparison :=
  list_compare String.compare a b.

Definition path_le (a b : path) : bool :=
  match path_compare a b with Gt => false | _ => true end.

(** [sorted(l)], a stable sort. *)
Fixpoint insert (x : path) (l : list path) : list path :=
  match l with
  | [] => [x]
  | y :: l' => if path_le x y then x :: l else y :: insert x l'
  end.

Definition sorted (l : list path) : list path := fold_right insert [] l.

(** A loop that appends the entry of every selected path. *)
Fixpoint collect (select : path -> bool)
    (process : path -> result (option dict)) (l : list path)
    : result (list pyobj) :=
  match l with
  | [] => Ok []
  | p :: l' =>
      if select p then
        entry <- process p ;;
        acc <- collect select process l' ;;
        Ok (match entry with
            | Some e => if truthy (VDict e) then VDict e :: acc else acc
            | None => acc
            end)
      else collect select process l'
  end.

(** The manifest that [main] builds; [None] when the content directory
    does not exist. *)
Definition build_manifest (w : world) : result (option pyobj) :=
  if negb (exists_ w []) then Ok None
  else
    files <- collect
               (fun filepath => (is_file w filepath
                  && negb (String.eqb (name filepath) ".meta.json"))%bool)
               (process_file w) (sorted (rglob w)) ;;
    directories <- collect (is_dir w) (process_directory_meta w)
                     (sorted (rglob w)) ;;
    root_entry <- process_directory_meta w [] ;;
    let directories :=
      match root_entry with
      | Some e => if truthy (VDict e) then (directories ++ [VDict e])%list
                  else directories
      | None => directories
      end in
    Ok (Some (VDict [("files", VList files);
                     ("directories", VList directories)])).

(** The bytes of [manifest.json] after the run, if it is written. *)
Definition main (w : world) : result (option string) :=
  m <- build_manifest w ;;
  Ok (option_map (fun manifest => utf8 (dumps (float_repr w) 0 manifest)) m).

(** ** Notions used in the statements *)

(** The ways the query for a path can fail: the executable is missing,
    the exit status is not zero (which is how [git] reports that there is
    no repository), or the output is not text or not a number. *)
Inductive query_failure : completed -> Prop :=
| tool_absent : query_failure SpawnFailed
| output_undecodable : query_failure Undecodable
| nonzero_exit rc out : rc <> 0 -> query_failure (Exited rc out)
| non_numeric out : py_int (strip out) = None -> query_failure (Exited 0 out).

(** Some component of the relative path starts with a dot. *)
Definition hidden (p : path) : bool :=
  existsb (startswith_char ".") (split "/" (rel_str p)).

(** The extension tests of [process_file] on a name. *)
Definition extension_accepted (n : string) : bool :=
  (negb (String.eqb (lower (suffix n)) ".keys")
   && str_in (lower (suffix n)) EXTENSIONS)%bool.

(** The tests a path has to pass before [process_file] builds an entry:
    the lowercased extension is not [.keys], it is one of [EXTENSIONS], and
    the path is not hidden. *)
Definition eligible (p : path) : bool :=
  let ext := lower (suffix (name p)) in
  (negb (String.eqb ext ".keys") && str_in ext EXTENSIONS
   && negb (hidden p))%bool.

(** A markdown file. *)
Definition is_markdown (p : path) : bool :=
  String.eqb (lower (suffix (name p))) ".md".

(** Field access on an entry. *)
Definition field (k : string) (r : result (option dict)) : option pyobj :=
  match r with
  | Ok (Some e) => dict_get k e
  | _ => None
  end.

(** The entries of a manifest under one of its two keys. *)
Definition entries (k : string) (manifest : pyobj) : list pyobj :=
  match manifest with
  | VDict d => match dict_get k d with Some (VList l) => l | _ => [] end
  | _ => []
  end.

(** The descriptor of a directory exists and decodes to a non-empty
    object. *)
Definition has_descriptor (w : world) (dir_path : path) (d : dict) : Prop :=
  exists n s,
    fs w (dir_path ++ [".meta.json"])%list = File n (ReadText s)
    /\ json_loads w s = Ok (Some (VDict d))
    /\ d <> [].

(** The field that a conversion leaves: the timestamp, or null when
    there is none. *)
Definition timestamp_or_null (o : option Z) : pyobj :=
  match o with
  | Some t => VInt t
  | None => VNone
  end.

(** The conversion of a text with one format: [strptime], then
    [timestamp]. *)
Definition converts (mktime : Z -> option Z) (s : string) (fmt : re)
    : option Z :=
  match strptime s fmt with
  | Some dt => timestamp mktime dt
  | None => None
  end.

(** The first timestamp among the dates that the formats gave. *)
Fixpoint first_timestamp (mktime : Z -> option Z)
    (dates : list (option datetime)) : pyobj :=
  match dates with
  | [] => VNone
  | Some dt :: dates' =>
      match timestamp mktime dt with
      | Some t => VInt t
      | None => first_timestamp mktime dates'
      end
  | None :: dates' => first_timestamp mktime dates'
  end.

(** Equality of paths. *)
Definition path_eqb (a b : path) : bool :=
  match path_compare a b with Eq => true | _ => false end.

(** The same surroundings, except that reading the file at [p] gives
    [r]. *)
Definition set_content (w : world) (p : path) (r : read_outcome) : world :=
  mkWorld
    (fun q =>
       if path_eqb q p then
         match fs w p with
         | File n _ => File n r
         | other => other
         end
       else fs w q)
    (git_log w) (json_loads w) (mktime w) (float_repr w) (rglob w).

(** The same surroundings in another time zone. *)
Definition in_time_zone (w : world) (mk : Z -> option Z) : world :=
  mkWorld (fs w) (git_log w) (json_loads w) mk (float_repr w) (rglob w).

(** The same surroundings with the tree enumerated in another order. *)
Definition relist (w : world) (l : list path) : world :=
  mkWorld (fs w) (git_log w) (json_loads w) (mktime w) (float_repr w) l.

(** The result with [f] applied to its value. *)
Definition res_map {A B : Type} (f : A -> B) (r : result A) : result B :=
  match r with
  | Ok a => Ok (f a)
  | Raise e => Raise e
  end.

(** What [process_file] does with the default entry once the sidecar file
    is loaded. *)
Definition complete_entry (w : world) (markdown : bool) (keys_data : pyobj)
    (r : read_outcome) (entry : dict) : result (option dict) :=
  if truthy keys_data then
    entry <- apply_keys keys_data entry ;;
    Ok (Some entry)
  else if markdown then
    match r with
    | ReadText content => Ok (Some (apply_frontmatter w content entry))
    | ReadIOError => Ok (Some entry)
    | ReadDecodeError => Raise UnicodeDecodeError
    end
  else Ok (Some entry).

(** The name with its extension in lower case, and the path with that
    name in the same directory. *)
Definition lower_ext (n : string) : string := stem n ++ lower (suffix n).

Definition counterpart (p : path) : path :=
  (removelast p ++ [lower_ext (name p)])%list.

(** The result of [process_file] with the path of its entry replaced. *)
Definition with_path (rel_path : string) (r : result (option dict))
    : result (option dict) :=
  match r with
  | Ok (Some e) => Ok (Some (dict_set "path" (VStr rel_path) e))
  | other => other
  end.

(** ** Devices of the proofs about the patterns *)

(** [st'] is a position of the same subject as [st], not to its left. *)
Definition ahead (st st' : state) : Prop :=
  (pos st' + String.length (rest st') = pos st + String.length (rest st))%nat
  /\ (pos st <= pos st')%nat.

(** A text between double quotes. *)
Definition quoted (s : string) : string := String dquote (s ++ String dquote "").

(** The frontmatter pattern without the end of its closing line, and that
    end. *)
Definition frontmatter_head : re :=
  seqs [Bol false; lit "---"; Star true space; chr newline;
        Grp 1 (Star false dot_all); chr newline; lit "---"].

Definition delimiter_tail : re := Seq (Star true space) (chr newline).

(** The text is empty or starts with a character that is not white
    space. *)
Definition starts_visible (s : string) : bool :=
  match s with
  | String c _ => negb (is_space c)
  | EmptyString => true
  end.

(** The delimiter line that opens and closes a block, and the block
    around a body. *)
Definition delimiter : string := "---".

Definition block (body : string) : string :=
  delimiter ++ nl ++ body ++ nl ++ delimiter ++ nl.

(** What can stand between the delimiter lines: a text that starts with
    a visible character and in which no line starts with three dashes,
    the first line apart. *)
Definition block_body (body : string) : bool :=
  (negb (is_empty body) && starts_visible body
   && negb (is_substring (nl ++ delimiter) body))%bool.

(** The text [pre] ends where a line starts. *)
Definition line_start (pre : string) : Prop :=
  pre = EmptyString \/ exists q, pre = (q ++ nl)%string.

(** The character before the position reached by stepping over [mid]. *)
Fixpoint prev_after (p : option ascii) (mid : string) : option ascii :=
  match mid with
  | EmptyString => p
  | String c r => prev_after (Some c) r
  end.

(** [st'] is reached from [st] by consuming a piece of the text. *)
Definition reaches (st st' : state) : Prop :=
  exists mid, rest st = (mid ++ rest st')%string.

(** Every character of [s] satisfies [p]. *)
Fixpoint every (p : ascii -> bool) (s : string) : bool :=
  match s with
  | EmptyString => true
  | String c r => (p c && every p r)%bool
  end.

Definition visible (c : ascii) : bool := negb (is_space c).





(** The position reached from [st] after the characters of [line]. *)
Fixpoint step_over (line : string) (st : state) : state :=
  match line with
  | EmptyString => st
  | String c l =>
      step_over l (mkState (Some c) (S (pos st)) (tail (rest st)) (caps st))
  end.

(** Some piece of a slash-separated text starts with a dot; the same
    for the pieces after the first. *)
Definition pieces_hidden (s : string) : bool :=
  existsb (startswith_char ".") (split "/" s).

Definition later_hidden (s : string) : bool :=
  existsb (startswith_char ".") (List.tl (split "/" s)).

(** ** Example trees *)

Fixpoint lookup_path {A : Type} (p : path) (l : list (path * A)) : option A :=
  match l with
  | [] => None
  | (q, a) :: l' => if path_eqb q p then Some a else lookup_path p l'
  end.

Fixpoint lookup_str {A : Type} (s : string) (l : list (string * A)) : option A :=
  match l with
  | [] => None
  | (t, a) :: l' => if String.eqb t s then Some a else lookup_str s l'
  end.

(** Finite surroundings: the listed nodes, query results and decoded
    documents; every other path is missing, every other query finds no
    commit, every other text is not JSON.  The clock is UTC. *)
Definition world_of (nodes : list (path * node))
    (queries : list (string * completed)) (documents : list (string * pyobj))
    : world :=
  mkWorld
    (fun p => match lookup_path p nodes with Some n => n | None => Missing end)
    (fun s => match lookup_str s queries with
              | Some c => c
              | None => Exited 0 ""
              end)
    (fun s => Ok (lookup_str s documents))
    (fun z => Some z)
    (fun _ => "0.0")
    (filter (fun p => match p with [] => false | _ => true end)
            (map fst nodes)).

(** A post with a title in its frontmatter and a heading, next to a
    sidecar file that holds the empty object. *)
Definition post_text : string :=
  "---" ++ nl ++ "title: From frontmatter" ++ nl ++ "---" ++ nl
  ++ "# Heading" ++ nl.

Definition world_empty_sidecar : world :=
  world_of
    [([], Directory 4096);
     (["post.md"], File 42 (ReadText post_text));
     (["post.md.keys"], File 2 (ReadText "{}"))]
    [("~/post.md", Exited 0 "1700000000")]
    [("{}", VDict [])].

(** The same post next to a sidecar file that holds a title and key
    material. *)
Definition sidecar_object : dict :=
  [("title", VStr "Secret"); ("algorithm", VStr "AES-256-GCM");
   ("wrapped_keys", VList [VStr "k1"])].

Definition world_titled_sidecar : world :=
  world_of
    [([], Directory 4096);
     (["post.md"], File 42 (ReadText post_text));
     (["post.md.keys"], File 80 (ReadText "{...}"))]
    [("~/post.md", Exited 0 "1700000000")]
    [("{...}", VDict sidecar_object)].

(** The post on a machine without the [git] executable. *)
Definition world_no_git : world :=
  world_of
    [([], Directory 4096);
     (["post.md"], File 42 (ReadText post_text))]
    [("~/post.md", SpawnFailed)]
    [].

(** A markdown file that cannot be read. *)
Definition world_unreadable : world :=
  world_of
    [([], Directory 4096);
     (["notes"], Directory 4096);
     (["notes"; "locked.md"], File 120 ReadIOError)]
    [("~/notes/locked.md", Exited 0 "1690000000")]
    [].

(** The same file next to a sidecar file with a title; a markdown file
    that is not valid text; the unreadable file on a machine without the
    [git] executable. *)
Definition world_unreadable_sidecar : world :=
  world_of
    [([], Directory 4096);
     (["notes"], Directory 4096);
     (["notes"; "locked.md"], File 120 ReadIOError);
     (["notes"; "locked.md.keys"], File 80 (ReadText "{...}"))]
    [("~/notes/locked.md", Exited 0 "1690000000")]
    [("{...}", VDict sidecar_object)].

Definition world_undecodable : world :=
  world_of
    [([], Directory 4096);
     (["notes"], Directory 4096);
     (["notes"; "latin1.md"], File 120 ReadDecodeError)]
    [("~/notes/latin1.md", Exited 0 "1690000000")]
    [].

Definition world_unreadable_no_git : world :=
  world_of
    [([], Directory 4096);
     (["notes"], Directory 4096);
     (["notes"; "locked.md"], File 120 ReadIOError)]
    [("~/notes/locked.md", SpawnFailed)]
    [].

(** Markdown files without sidecar files. *)
Definition dated_text : string :=
  "---" ++ nl ++ "modified: 2024-01-15" ++ nl ++ "---" ++ nl ++ "Body" ++ nl.

Definition world_plain : world :=
  world_of
    [([], Directory 4096);
     (["post.md"], File 42 (ReadText post_text));
     (["hello.md"], File 14 (ReadText ("# Hello" ++ nl ++ "World" ++ nl)));
     (["dated.md"], File 38 (ReadText dated_text))]
    [("~/post.md", Exited 0 "1700000000");
     ("~/dated.md", Exited 0 ("1700000000" ++ nl))]
    [].




(** Dates in the three formats. *)
Definition world_dates : world :=
  world_of
    [([], Directory 4096);
     (["day.md"], File 38 (ReadText dated_text));
     (["time.md"],
      File 47 (ReadText (block "modified: 2024-01-15T10:30:00" ++ "Body")));
     (["slash.md"],
      File 38 (ReadText (block "modified: 2024/03/15" ++ "Body")))]
    [("~/day.md", Exited 0 ("1700000000" ++ nl));
     ("~/time.md", Exited 0 ("1700000000" ++ nl));
     ("~/slash.md", Exited 0 ("1700000000" ++ nl))]
    [].

(** A frontmatter block that meets every case of the line policy. *)
Definition policy_text : string :=
  "---" ++ nl
  ++ "title: " ++ quoted "'Quoted'" ++ nl
  ++ "author: 'Ann'" ++ nl
  ++ "draft: TRUE" ++ nl
  ++ "public: False" ++ nl
  ++ "tags:" ++ nl
  ++ "  - rocq" ++ nl
  ++ "  - 'python'" ++ nl
  ++ "---" ++ nl.

(** A tree with a descriptor at the root (without a title), one in
    [docs] and none in [drafts]. *)
Definition world_dirs : world :=
  world_of
    [([], Directory 4096);
     ([".meta.json"], File 20 (ReadText "{root}"));
     (["docs"], Directory 4096);
     (["docs"; ".meta.json"], File 30 (ReadText "{docs}"));
     (["docs"; "guide.md"], File 14 (ReadText ("# Guide" ++ nl ++ "Text" ++ nl)));
     (["drafts"], Directory 4096);
     (["drafts"; "idea.md"], File 5 (ReadText ("idea" ++ nl)))]
    [("~/docs/guide.md", Exited 0 ("1700000000" ++ nl))]
    [("{root}", VDict [("description", VStr "Start here")]);
     ("{docs}", VDict [("title", VStr "Documentation");
                       ("tags", VList [VStr "docs"])])].

(** Two copies of one file, the second with its extension in upper
    case. *)
Definition world_upper : world :=
  world_of
    [([], Directory 4096);
     (["hello.md"], File 14 (ReadText ("# Hello" ++ nl ++ "World" ++ nl)));
     (["hello.MD"], File 14 (ReadText ("# Hello" ++ nl ++ "World" ++ nl)));
     (["secret.KEYS"], File 3 (ReadText "{}"));
     (["photo.JpG"], File 900 ReadDecodeError)]
    []
    [].

(** ** Notions used in the further properties *)

(** A tree with a hidden directory and a file in it. *)
Definition world_hidden : world :=
  world_of
    [([], Directory 4096);
     (["notes"], Directory 4096);
     (["notes"; ".private"], Directory 4096);
     (["notes"; ".private"; "x.md"], File 9 (ReadText ("# Secret" ++ nl)))]
    []
    [].

(** The five fields every file entry starts with. *)
Definition file_fields (rel_path : string) (title : pyobj) (size : Z)
    (modified : pyobj) (tags : list pyobj) : dict :=
  [("path", VStr rel_path); ("title", title); ("size", VInt size);
   ("modified", modified); ("tags", VList tags)].

(** The encryption block that a sidecar object gives. *)
Definition encryption_of (d : dict) : dict :=
  match dict_get "algorithm" d, dict_get "wrapped_keys" d with
  | Some a, Some k => [("algorithm", a); ("wrapped_keys", k)]
  | Some a, None => [("algorithm", a)]
  | None, Some k => [("wrapped_keys", k)]
  | None, None => []
  end.

(** A photo next to a sidecar file without a title. *)
Definition world_photo : world :=
  world_of
    [([], Directory 4096);
     (["photo.png"], File 2048 ReadDecodeError);
     (["photo.png.keys"], File 60 (ReadText "{keys}"))]
    [("~/photo.png", Exited 0 ("1700000000" ++ nl))]
    [("{keys}", VDict [("algorithm", VStr "AES-256-GCM");
                       ("tags", VStr "not-a-list")])].

(** A value that is not an object. *)
Definition not_object (v : pyobj) : Prop := forall d, v <> VDict d.

(** A tree with a sidecar file and a descriptor that decode to something
    else than an object. *)
Definition world_odd : world :=
  world_of
    [([], Directory 4096);
     (["a.md"], File 3 (ReadText ("hi" ++ nl)));
     (["a.md.keys"], File 2 (ReadText "42"));
     (["b.md"], File 3 (ReadText ("hi" ++ nl)));
     (["docs"], Directory 4096);
     (["docs"; ".meta.json"], File 9 (ReadText "[1]"))]
    []
    [("42", VInt 42); ("[1]", VList [VInt 1])].

(** The same tree with a decoder that gives up on the two documents for
    their depth. *)
Definition world_deep : world :=
  mkWorld (fs world_odd) (git_log world_odd)
    (fun _ => Raise RecursionError)
    (mktime world_odd) (float_repr world_odd) (rglob world_odd).

(** The entries that a function gives on the paths of a list, in the
    order of the list. *)
Definition entry_list (process : path -> result (option dict))
    (l : list path) : list pyobj :=
  flat_map (fun p => match process p with
                     | Ok (Some e) => [VDict e]
                     | _ => []
                     end) l.

(** What the frontmatter parser can store under a key: a string, a
    boolean, or a list of strings. *)
Definition is_str (v : pyobj) : bool :=
  match v with VStr _ => true | _ => false end.

Definition frontmatter_value (v : pyobj) : bool :=
  match v with
  | VStr _ | VBool _ => true
  | VList l => forallb is_str l
  | _ => false
  end.

Definition values_ok (d : dict) : Prop :=
  Forall (fun kv => frontmatter_value (snd kv) = true) d.

(** The text starts with four digits and a dash or a slash, as every
    text does that one of the three date formats accepts. *)
Definition year_prefix (s : string) : bool :=
  match s with
  | String d1 (String d2 (String d3 (String d4 (String sep _)))) =>
      (forallb is_digit [d1; d2; d3; d4]
       && (Ascii.eqb sep "-" || Ascii.eqb sep "/"))%bool
  | _ => false
  end.

(** A post whose frontmatter gives the modification time as a number of
    seconds, in a repository that knows the file. *)
Definition epoch_text : string :=
  "---" ++ nl ++ "modified: 1700000000" ++ nl ++ "---" ++ nl ++ "Body" ++ nl.

Definition world_epoch : world :=
  world_of
    [([], Directory 4096);
     (["epoch.md"], File 38 (ReadText epoch_text))]
    [("~/epoch.md", Exited 0 ("1650000000" ++ nl))]
    [].

(** The same surroundings with nothing at [q]. *)
Definition without (w : world) (q : path) : world :=
  mkWorld
    (fun p => if path_eqb p q then Missing else fs w p)
    (git_log w) (json_loads w) (mktime w) (float_repr w) (rglob w).

(** A post whose frontmatter gives one tag as a plain value, and one
    whose frontmatter lists two. *)
Definition tagged_text : string :=
  "---" ++ nl ++ "tags: [a, b]" ++ nl ++ "---" ++ nl ++ "Body" ++ nl.

Definition world_tagged : world :=
  world_of
    [([], Directory 4096);
     (["tagged.md"], File 30 (ReadText tagged_text))]
    []
    [].

(** ** Properties *)

(** *** Strings *)

Lemma str_app_nil_r (s : string) : s ++ "" = s.
Proof. induction s as [| c s IH]; simpl; [reflexivity | now rewrite IH]. Qed.

Lemma str_app_assoc (a b c : string) : (a ++ b) ++ c = a ++ (b ++ c).
Proof. induction a as [| x a IH]; simpl; [reflexivity | now rewrite IH]. Qed.

Lemma str_app_length (a b : string) :
  String.length (a ++ b) = (String.length a + String.length b)%nat.
Proof. induction a as [| x a IH]; simpl; [reflexivity | now rewrite IH]. Qed.

Lemma rev_acc_append (s acc : string) : rev_acc s acc = rev s ++ acc.
Proof.
  unfold rev. revert acc.
  induction s as [| c s IH]; intros acc; simpl; [reflexivity |].
  rewrite (IH (String c "")), IH, str_app_assoc. reflexivity.
Qed.

Lemma str_rev_cons (c : ascii) (s : string) : rev (String c s) = rev s ++ String c "".
Proof. unfold rev at 1. simpl. apply rev_acc_append. Qed.

Lemma str_rev_app (a b : string) : rev (a ++ b) = rev b ++ rev a.
Proof.
  induction a as [| c a IH]; simpl.
  - now rewrite str_app_nil_r.
  - now rewrite !str_rev_cons, IH, str_app_assoc.
Qed.

Lemma str_rev_involutive (s : string) : rev (rev s) = s.
Proof.
  induction s as [| c s IH]; [reflexivity |].
  now rewrite str_rev_cons, str_rev_app, IH.
Qed.


Lemma contains_char_append (c : ascii) (a b : string) :
  contains_char c (a ++ b) = (contains_char c a || contains_char c b)%bool.
Proof.
  induction a as [| x a IH]; simpl; [reflexivity |].
  now rewrite IH, orb_assoc.
Qed.

Lemma contains_char_rev (c : ascii) (s : string) :
  contains_char c (rev s) = contains_char c s.
Proof.
  induction s as [| x s IH]; [reflexivity |].
  rewrite str_rev_cons, contains_char_append, IH. simpl.
  rewrite orb_false_r. apply orb_comm.
Qed.

(** [split1] cuts at the first occurrence. *)
Lemma split1_spec (c : ascii) (s : string) :
  contains_char c s = true ->
  s = fst (split1 c s) ++ String c (snd (split1 c s))
  /\ contains_char c (fst (split1 c s)) = false.
Proof.
  induction s as [| x s IH]; simpl; [discriminate |].
  destruct (Ascii.eqb_spec c x) as [-> | Hne]; simpl.
  - intros _. split; reflexivity.
  - intros H. destruct (IH H) as [E1 E2].
    destruct (split1 c s) as [k v]. simpl in *.
    split; [now rewrite <- E1 |].
    destruct (Ascii.eqb_spec c x); [contradiction | exact E2].
Qed.

Lemma split1_append (c : ascii) (a b : string) :
  contains_char c a = false ->
  split1 c (a ++ String c b) = (a, b).
Proof.
  induction a as [| x a IH]; simpl.
  - now rewrite Ascii.eqb_refl.
  - destruct (Ascii.eqb c x); simpl; [discriminate |].
    intros H. now rewrite (IH H).
Qed.

(** *** Names, stems and suffixes *)

Lemma rsplit_dot_some (n before after : string) :
  rsplit_dot n = Some (before, after) ->
  n = before ++ String "." after /\ contains_char "." after = false.
Proof.
  unfold rsplit_dot.
  destruct (contains_char "." n) eqn:Hdot; [| discriminate].
  rewrite <- contains_char_rev in Hdot.
  destruct (split1_spec _ _ Hdot) as [E1 E2].
  destruct (split1 "." (rev n)) as [a b]. simpl in *.
  intros [= <- <-]. split.
  - rewrite <- (str_rev_involutive n), E1, str_rev_app, str_rev_cons, str_app_assoc.
    reflexivity.
  - now rewrite contains_char_rev.
Qed.

Lemma rsplit_dot_append (before after : string) :
  contains_char "." after = false ->
  rsplit_dot (before ++ String "." after) = Some (before, after).
Proof.
  intros H. unfold rsplit_dot.
  rewrite contains_char_append. simpl. rewrite orb_true_r.
  rewrite str_rev_app, str_rev_cons, str_app_assoc. simpl.
  rewrite split1_append by now rewrite contains_char_rev.
  now rewrite !str_rev_involutive.
Qed.

Lemma stem_suffix (n : string) : stem n ++ suffix n = n.
Proof.
  unfold stem, suffix.
  destruct (rsplit_dot n) as [[before after] |] eqn:E.
  - destruct (is_empty before || is_empty after)%bool.
    + apply str_app_nil_r.
    + now destruct (rsplit_dot_some _ _ _ E) as [-> _].
  - apply str_app_nil_r.
Qed.

(** *** The timestamp query *)

Lemma get_git_modified_time_exited rc out v :
  get_git_modified_time (Exited rc out) = Ok v ->
  v = VNone \/ (rc = 0 /\ exists n, py_int (strip out) = Some n /\ v = VInt n).
Proof.
  unfold get_git_modified_time.
  destruct (Z.eqb_spec rc 0) as [-> | Hrc]; simpl.
  - destruct (is_empty (strip out)).
    + intros [= <-]. now left.
    + destruct (py_int (strip out)) as [n |] eqn:E; intros [= <-].
      * right. split; [reflexivity | now exists n].
      * now left.
  - intros [= <-]. now left.
Qed.

(** A started query never raises. *)
Lemma get_git_modified_time_started run :
  run <> SpawnFailed -> exists v, get_git_modified_time run = Ok v.
Proof.
  destruct run as [| | rc out]; intros H.
  - contradiction.
  - now exists VNone.
  - unfold get_git_modified_time.
    destruct (negb (rc =? 0)); [now exists VNone |].
    destruct (is_empty (strip out)); [now exists VNone |].
    destruct (py_int (strip out)) as [n |]; eauto.
Qed.

(** The failures that the handler of the resolver turns into a null
    timestamp: every failure of a query that was started. *)
Lemma failed_query_yields_null run :
  query_failure run -> run <> SpawnFailed ->
  get_git_modified_time run = Ok VNone.
Proof.
  intros Hfail Hstarted.
  inversion Hfail as [| | rc out Hrc | out Hnum]; subst.
  - contradiction.
  - reflexivity.
  - unfold get_git_modified_time.
    destruct (Z.eqb_spec rc 0); [contradiction | reflexivity].
  - unfold get_git_modified_time. simpl.
    destruct (is_empty (strip out)); [reflexivity |].
    now rewrite Hnum.
Qed.

Lemma failed_query_yields_null_witness :
  get_git_modified_time
    (Exited 128 "fatal: not a git repository") = Ok VNone
  /\ get_git_modified_time (Exited 0 "not-a-number") = Ok VNone.
Proof.
  split.
  - apply failed_query_yields_null; [apply nonzero_exit; lia | discriminate].
  - apply failed_query_yields_null;
      [apply non_numeric; reflexivity | discriminate].
Defined.

(** C1: the resolver is written to turn a failed query into a null
    timestamp, and does so when the repository is absent (a non-zero exit
    status), when the output is not text and when it is not a number.
    When the [git] executable is missing the call raises
    [FileNotFoundError], which the handler does not list: the exception
    leaves the resolver, and with it [process_file], for every file. *)
Theorem git_tool_absent_raises :
  query_failure SpawnFailed
  /\ get_git_modified_time SpawnFailed = Raise FileNotFoundError
  /\ process_file world_no_git ["post.md"] = Raise FileNotFoundError
  /\ get_git_modified_time (Exited 128 "fatal: not a git repository")
     = Ok VNone
  /\ get_git_modified_time Undecodable = Ok VNone
  /\ get_git_modified_time (Exited 0 "not-a-number") = Ok VNone.
Proof.
  split; [constructor |]. repeat split; reflexivity.
Qed.

(** *** Dictionaries *)

Lemma dict_get_set_same (k : string) (v : pyobj) (d : dict) :
  dict_get k (dict_set k v d) = Some v.
Proof.
  induction d as [| [k' v'] d IH]; simpl.
  - now rewrite String.eqb_refl.
  - destruct (String.eqb k' k) eqn:E; simpl; rewrite E; [reflexivity | exact IH].
Qed.

Lemma dict_get_set_other (k k' : string) (v : pyobj) (d : dict) :
  k <> k' -> dict_get k (dict_set k' v d) = dict_get k d.
Proof.
  intros Hne. induction d as [| [k0 v0] d IH]; simpl.
  - destruct (String.eqb_spec k' k); [congruence | reflexivity].
  - destruct (String.eqb_spec k0 k') as [-> | H0]; simpl.
    + destruct (String.eqb_spec k' k); [congruence | reflexivity].
    + destruct (String.eqb k0 k); [reflexivity | exact IH].
Qed.

(** *** The gates of [process_file] *)

Lemma process_file_not_eligible (w : world) (p : path) :
  eligible p = false -> process_file w p = Ok None.
Proof.
  unfold eligible, hidden, process_file.
  destruct (String.eqb (lower (suffix (name p))) ".keys"); [reflexivity |].
  destruct (str_in (lower (suffix (name p))) EXTENSIONS); [| reflexivity].
  simpl.
  destruct (existsb (startswith_char ".") (split "/" (rel_str p)));
    [reflexivity | discriminate].
Qed.

Lemma process_file_eligible (w : world) (p : path) :
  eligible p = true ->
  process_file w p =
    (size <- stat_size w p ;;
     modified <- get_git_modified_time (git_log w (abs_str p)) ;;
     keys_data <- load_keys_file w p ;;
     if truthy keys_data then
       entry <- apply_keys keys_data (default_entry p size modified) ;;
       Ok (Some entry)
     else if is_markdown p then
       match read_text w p with
       | ReadText content =>
           Ok (Some (apply_frontmatter w content
                       (default_entry p size modified)))
       | ReadIOError => Ok (Some (default_entry p size modified))
       | ReadDecodeError => Raise UnicodeDecodeError
       end
     else Ok (Some (default_entry p size modified))).
Proof.
  unfold eligible, hidden, process_file, is_markdown.
  destruct (String.eqb (lower (suffix (name p))) ".keys"); [discriminate |].
  destruct (str_in (lower (suffix (name p))) EXTENSIONS); [| discriminate].
  simpl.
  destruct (existsb (startswith_char ".") (split "/" (rel_str p)));
    [discriminate | reflexivity].
Qed.

(** An eligible path is never skipped: the result is an entry or an
    exception. *)
Lemma process_file_eligible_not_skipped (w : world) (p : path) :
  eligible p = true -> process_file w p <> Ok None.
Proof.
  intros H. rewrite (process_file_eligible w p H).
  destruct (stat_size w p) as [size |]; simpl; [| discriminate].
  destruct (get_git_modified_time _) as [modified |]; simpl; [| discriminate].
  destruct (load_keys_file w p) as [keys_data |]; simpl; [| discriminate].
  destruct (truthy keys_data).
  - destruct (apply_keys _ _); simpl; discriminate.
  - destruct (is_markdown p); [| discriminate].
    destruct (read_text w p); discriminate.
Qed.

(** *** Comparing paths *)

Lemma ascii_compare_refl (c : ascii) : Ascii.compare c c = Eq.
Proof. unfold Ascii.compare. apply N.compare_refl. Qed.

Lemma string_compare_eq (a b : string) : String.compare a b = Eq <-> a = b.
Proof.
  split; [apply String.compare_eq_iff |].
  intros <-. induction a as [| c a IH]; simpl; [reflexivity |].
  now rewrite ascii_compare_refl.
Qed.

Lemma path_eqb_eq (a b : path) : path_eqb a b = true <-> a = b.
Proof.
  unfold path_eqb, path_compare.
  rewrite <- (list_compare_refl String.compare string_compare_eq a b).
  destruct (list_compare String.compare a b); split; congruence.
Qed.

Lemma path_eqb_refl (a : path) : path_eqb a a = true.
Proof. now apply path_eqb_eq. Qed.

Lemma path_eqb_neq (a b : path) : a <> b -> path_eqb a b = false.
Proof.
  intros H. destruct (path_eqb a b) eqn:E; [| reflexivity].
  now apply path_eqb_eq in E.
Qed.

(** *** The sidecar file *)

Lemma name_removelast (p : path) :
  p <> [] -> (removelast p ++ [name p])%list = p.
Proof. intros H. symmetry. now apply app_removelast_last. Qed.

(** The sidecar of a file is another file. *)
Lemma keys_path_neq (p : path) : keys_path p <> p.
Proof.
  unfold keys_path. intros H.
  destruct p as [| x p]; [discriminate |].
  set (q := x :: p) in *.
  assert (Hq : q <> []) by discriminate.
  pose proof (name_removelast q Hq) as E.
  assert (H' : (removelast q
                ++ [with_suffix (name q) (suffix (name q) ++ ".keys")])%list
               = (removelast q ++ [name q])%list) by (rewrite E; exact H).
  clear H. apply app_inv_head in H'. injection H' as H.
  unfold with_suffix in H.
  rewrite <- str_app_assoc, stem_suffix in H.
  apply (f_equal String.length) in H.
  rewrite str_app_length in H. simpl in H. lia.
Qed.

Lemma load_keys_file_set_content (w : world) (p : path) (r : read_outcome) :
  load_keys_file (set_content w p r) p = load_keys_file w p.
Proof.
  unfold load_keys_file, load_json, set_content. simpl.
  now rewrite (path_eqb_neq _ _ (keys_path_neq p)).
Qed.

Lemma stat_size_set_content (w : world) (p : path) (r : read_outcome) :
  stat_size (set_content w p r) p = stat_size w p.
Proof.
  unfold stat_size, set_content. simpl. rewrite path_eqb_refl.
  destruct (fs w p); reflexivity.
Qed.

Lemma copy_key_dict (k : string) (only_list : bool) (d dst : dict) :
  copy_key k only_list (VDict d) dst =
    Ok (match dict_get k d with
        | Some v =>
            if (negb only_list || is_list v)%bool then dict_set k v dst
            else dst
        | None => dst
        end).
Proof.
  unfold copy_key, py_contains, py_getitem, dict_mem.
  destruct (dict_get k d); reflexivity.
Qed.

(** What [apply_keys] leaves in the title and the tags when the sidecar
    holds an object. *)
Lemma apply_keys_dict_fields (d : dict) (p : path) (size : Z) (m : pyobj) :
  exists e,
    apply_keys (VDict d) (default_entry p size m) = Ok e
    /\ dict_get "title" e
       = Some (dict_get_default "title" (VStr (stem (name p))) d)
    /\ dict_get "tags" e
       = Some (match dict_get "tags" d with
               | Some t => if is_list t then t else VList []
               | None => VList []
               end).
Proof.
  unfold apply_keys. repeat (rewrite copy_key_dict; simpl bind).
  eexists. split; [reflexivity |].
  unfold dict_get_default.
  set (enc := match dict_get "wrapped_keys" d with
              | Some _ => _ | None => _ end).
  assert (Hne : forall e0 : dict, forall k : string,
             k <> "encryption" ->
             dict_get k (match enc with
                         | [] => e0
                         | _ :: _ => dict_set "encryption" (VDict enc) e0
                         end) = dict_get k e0).
  { intros e0 k Hk. destruct enc; [reflexivity |].
    now apply dict_get_set_other. }
  rewrite !Hne by discriminate.
  destruct (dict_get "title" d) as [t |], (dict_get "tags" d) as [g |];
    simpl; try destruct (is_list g); split; reflexivity.
Qed.

(** *** Files with a sidecar *)

(** With a sidecar that counts as true the file itself is not read. *)
Lemma sidecar_content_independent (w : world) (p : path) (k : pyobj)
    (r : read_outcome) :
  load_keys_file w p = Ok k ->
  truthy k = true ->
  process_file (set_content w p r) p = process_file w p.
Proof.
  intros Hkeys Htruthy. destruct (eligible p) eqn:Hel.
  - rewrite !(process_file_eligible _ p Hel).
    rewrite stat_size_set_content, load_keys_file_set_content, Hkeys.
    destruct (stat_size w p); [| reflexivity]. cbn [bind].
    destruct (get_git_modified_time _); [| reflexivity]. cbn [bind].
    now rewrite Htruthy.
  - now rewrite !process_file_not_eligible.
Qed.

(** C7: when the sidecar file of an eligible file decodes to an object
    with a [title] key, the entry's title is that value, and the result
    stays the same whatever the file itself contains. *)
Theorem sidecar_title_wins (w : world) (p : path) (n : Z) (s : string)
    (d : dict) (t : pyobj) :
  eligible p = true ->
  is_file w p = true ->
  git_log w (abs_str p) <> SpawnFailed ->
  fs w (keys_path p) = File n (ReadText s) ->
  json_loads w s = Ok (Some (VDict d)) ->
  dict_get "title" d = Some t ->
  (exists e, process_file w p = Ok (Some e) /\ dict_get "title" e = Some t)
  /\ (forall r, process_file (set_content w p r) p = process_file w p).
Proof.
  intros Hel Hfile Hgit Hkeys Hjson Htitle.
  assert (Htruthy : truthy (VDict d) = true).
  { destruct d; [discriminate Htitle | reflexivity]. }
  split.
  2: { intros r. apply sidecar_content_independent with (VDict d);
         [| exact Htruthy].
       unfold load_keys_file, load_json. now rewrite Hkeys, Hjson. }
  rewrite (process_file_eligible w p Hel).
  unfold is_file in Hfile. unfold stat_size.
  destruct (fs w p) as [| |size r] eqn:Hnode; try discriminate. simpl.
  destruct (get_git_modified_time_started _ Hgit) as [m ->]. simpl.
  unfold load_keys_file, load_json. rewrite Hkeys, Hjson. cbn [bind].
  rewrite Htruthy.
  destruct (apply_keys_dict_fields d p size m) as (e & -> & Ht & _).
  exists e. split; [reflexivity |].
  rewrite Ht. unfold dict_get_default. now rewrite Htitle.
Qed.

Lemma sidecar_title_wins_witness :
  exists e,
    process_file world_titled_sidecar ["post.md"] = Ok (Some e)
    /\ dict_get "title" e = Some (VStr "Secret").
Proof.
  refine (proj1 (sidecar_title_wins world_titled_sidecar ["post.md"] 80
                   "{...}" sidecar_object (VStr "Secret")
                   eq_refl eq_refl _ eq_refl eq_refl eq_refl)).
  discriminate.
Defined.

(** C2, as stated, fails: a sidecar file that exists but holds the empty
    object does not stop the frontmatter from being read; the title of the
    entry changes with the content of the markdown file. *)
Lemma empty_sidecar_does_not_short_circuit :
  ~ (forall (w : world) (p : path) (r : read_outcome),
       is_markdown p = true ->
       exists_ w (keys_path p) = true ->
       process_file (set_content w p r) p = process_file w p).
Proof.
  intros H.
  specialize (H world_empty_sidecar ["post.md"] (ReadText "")
                eq_refl eq_refl).
  vm_compute in H. discriminate H.
Qed.

(** C2, amended: when the sidecar file decodes to something that counts
    as true (a non-empty object, in particular), the result of
    [process_file] does not depend on what the markdown file contains, and
    for an object the title and the tags of the entry are those of the
    sidecar or the defaults. *)
Theorem truthy_sidecar_short_circuits (w : world) (p : path) (k : pyobj) :
  load_keys_file w p = Ok k ->
  truthy k = true ->
  (forall r, process_file (set_content w p r) p = process_file w p)
  /\ (forall d e,
        k = VDict d ->
        process_file w p = Ok (Some e) ->
        dict_get "title" e
          = Some (dict_get_default "title" (VStr (stem (name p))) d)
        /\ dict_get "tags" e
          = Some (match dict_get "tags" d with
                  | Some t => if is_list t then t else VList []
                  | None => VList []
                  end)).
Proof.
  intros Hkeys Htruthy. split.
  - intros r. now apply sidecar_content_independent with k.
  - intros d e -> Hres. destruct (eligible p) eqn:Hel.
    + rewrite (process_file_eligible _ p Hel), Hkeys in Hres.
      destruct (stat_size w p) as [size |]; [| discriminate]. cbn [bind] in Hres.
      destruct (get_git_modified_time _) as [m |]; [| discriminate].
      cbn [bind] in Hres. rewrite Htruthy in Hres.
      destruct (apply_keys_dict_fields d p size m) as (e' & E & Ht & Hg).
      rewrite E in Hres. cbn [bind] in Hres. injection Hres as <-.
      now split.
    + rewrite process_file_not_eligible in Hres by assumption. discriminate.
Qed.

Lemma truthy_sidecar_short_circuits_witness :
  (forall r,
     process_file (set_content world_titled_sidecar ["post.md"] r) ["post.md"]
     = process_file world_titled_sidecar ["post.md"])
  /\ field "title" (process_file world_titled_sidecar ["post.md"])
     = Some (VStr "Secret").
Proof.
  destruct (truthy_sidecar_short_circuits world_titled_sidecar ["post.md"]
              (VDict sidecar_object) eq_refl eq_refl) as [Hindep Hfields].
  split; [exact Hindep |].
  destruct (process_file world_titled_sidecar ["post.md"])
    as [[e |] |] eqn:E; try (vm_compute in E; discriminate E).
  simpl. now destruct (Hfields sidecar_object e eq_refl eq_refl) as [-> _].
Defined.

(** *** Markdown files without an effective sidecar *)

Lemma process_file_markdown (w : world) (p : path) (size : Z)
    (r : read_outcome) (k m : pyobj) :
  eligible p = true ->
  is_markdown p = true ->
  fs w p = File size r ->
  load_keys_file w p = Ok k ->
  truthy k = false ->
  get_git_modified_time (git_log w (abs_str p)) = Ok m ->
  process_file w p =
    match r with
    | ReadText content =>
        Ok (Some (apply_frontmatter w content (default_entry p size m)))
    | ReadIOError => Ok (Some (default_entry p size m))
    | ReadDecodeError => Raise UnicodeDecodeError
    end.
Proof.
  intros Hel Hmd Hnode Hkeys Hfalsy Hgit.
  rewrite (process_file_eligible w p Hel).
  unfold stat_size, read_text.
  rewrite Hnode, Hgit, Hkeys, Hmd. cbn [bind].
  now rewrite Hfalsy.
Qed.

(** A missing sidecar file loads as [None]. *)
Lemma load_keys_file_missing (w : world) (p : path) :
  exists_ w (keys_path p) = false -> load_keys_file w p = Ok VNone.
Proof.
  unfold exists_, load_keys_file, load_json.
  destruct (fs w (keys_path p)); [reflexivity | discriminate | discriminate].
Qed.

Lemma read_text_set_content (w : world) (p : path) (size : Z)
    (r r' : read_outcome) :
  fs w p = File size r -> read_text (set_content w p r') p = r'.
Proof.
  intros H. unfold read_text, set_content. cbn [fs].
  now rewrite path_eqb_refl, H.
Qed.

Lemma apply_frontmatter_empty (w : world) (entry : dict) :
  apply_frontmatter w "" entry = entry.
Proof. reflexivity. Qed.

(** C3, as stated, fails: a markdown file that cannot be read gets the
    title of its sidecar file when there is one, not the default; a file
    that cannot be read because it is not valid text makes
    [process_file] raise [UnicodeDecodeError]; and without the [git]
    executable [process_file] raises [FileNotFoundError]. *)
Lemma unreadable_markdown_not_always_default :
  (eligible ["notes"; "locked.md"] = true
   /\ is_markdown ["notes"; "locked.md"] = true
   /\ fs world_unreadable_sidecar ["notes"; "locked.md"]
      = File 120 ReadIOError
   /\ field "title" (process_file world_unreadable_sidecar
                       ["notes"; "locked.md"])
      = Some (VStr "Secret")
   /\ stem (name ["notes"; "locked.md"]) = "locked")
  /\ (eligible ["notes"; "latin1.md"] = true
      /\ is_markdown ["notes"; "latin1.md"] = true
      /\ fs world_undecodable ["notes"; "latin1.md"]
         = File 120 ReadDecodeError
      /\ process_file world_undecodable ["notes"; "latin1.md"]
         = Raise UnicodeDecodeError)
  /\ (fs world_unreadable_no_git ["notes"; "locked.md"]
      = File 120 ReadIOError
      /\ process_file world_unreadable_no_git ["notes"; "locked.md"]
         = Raise FileNotFoundError).
Proof. repeat split; reflexivity. Qed.

(** C3, amended: an eligible markdown file without an effective sidecar
    that cannot be opened or read (an I/O error) gets the entry built
    from the defaults, whenever the query for its timestamp returns: the
    stem of the name, the size, the timestamp that the query returned and
    no tags.  Nothing is extracted: the result is that of an empty
    file. *)
Theorem unreadable_markdown_gets_defaults (w : world) (p : path)
    (size : Z) (k m : pyobj) :
  eligible p = true ->
  is_markdown p = true ->
  fs w p = File size ReadIOError ->
  load_keys_file w p = Ok k ->
  truthy k = false ->
  get_git_modified_time (git_log w (abs_str p)) = Ok m ->
  process_file w p =
    Ok (Some [("path", VStr (rel_str p));
              ("title", VStr (stem (name p)));
              ("size", VInt size);
              ("modified", m);
              ("tags", VList [])])
  /\ process_file (set_content w p (ReadText "")) p = process_file w p.
Proof.
  intros Hel Hmd Hnode Hkeys Hfalsy Hgit. split.
  - now rewrite (process_file_markdown w p size ReadIOError k m).
  - rewrite !(process_file_eligible _ p Hel).
    rewrite stat_size_set_content, load_keys_file_set_content.
    rewrite (read_text_set_content w p size ReadIOError _ Hnode).
    unfold read_text. rewrite Hnode.
    change (git_log (set_content w p (ReadText ""))) with (git_log w).
    destruct (stat_size w p); [| reflexivity]. cbn [bind].
    destruct (get_git_modified_time _); [| reflexivity]. cbn [bind].
    destruct (load_keys_file w p); reflexivity.
Qed.

Lemma unreadable_markdown_gets_defaults_witness :
  process_file world_unreadable ["notes"; "locked.md"] =
    Ok (Some [("path", VStr "notes/locked.md");
              ("title", VStr "locked");
              ("size", VInt 120);
              ("modified", VInt 1690000000);
              ("tags", VList [])]).
Proof.
  exact (proj1 (unreadable_markdown_gets_defaults world_unreadable
                  ["notes"; "locked.md"] 120 VNone (VInt 1690000000)
                  eq_refl eq_refl eq_refl eq_refl eq_refl eq_refl)).
Defined.

(** *** The fields that [apply_frontmatter] writes *)


Lemma apply_frontmatter_modified (w : world) (content : string) (p : path)
    (size : Z) (m : pyobj) :
  dict_get "modified" (apply_frontmatter w content (default_entry p size m))
  = Some (match dict_get "modified" (parse_frontmatter content) with
          | Some v => parse_date_to_timestamp (mktime w) v
          | None => m
          end).
Proof.
  unfold apply_frontmatter.
  set (fm := parse_frontmatter content).
  destruct (dict_get "modified" fm) as [v |].
  - apply dict_get_set_same.
  - destruct (dict_get "tags" fm) as [t |].
    + destruct (is_list t).
      * rewrite dict_get_set_other by discriminate.
        destruct (dict_get "title" fm);
          [| destruct (extract_title_from_heading content) as [h |];
             [destruct (is_empty h) |]]; reflexivity.
      * destruct (dict_get "title" fm);
          [| destruct (extract_title_from_heading content) as [h |];
             [destruct (is_empty h) |]]; reflexivity.
    + destruct (dict_get "title" fm);
        [| destruct (extract_title_from_heading content) as [h |];
           [destruct (is_empty h) |]]; reflexivity.
Qed.

(** *** The lines of a frontmatter block *)

Lemma parse_line_key_value (frontmatter : dict) (raw : string) :
  is_empty (strip raw) = false ->
  startswith_char "#" (strip raw) = false ->
  contains_char ":" (strip raw) = true ->
  parse_line frontmatter raw =
    dict_set (strip (fst (split1 ":" (strip raw))))
             (parse_value (strip (snd (split1 ":" (strip raw)))))
             frontmatter.
Proof.
  intros H1 H2 H3. unfold parse_line. rewrite H1, H2, H3. simpl.
  now destruct (split1 ":" (strip raw)).
Qed.

Lemma parse_value_double_quoted (value : string) :
  startswith_char dquote value = true ->
  endswith_char dquote value = true ->
  parse_value value = VStr (slice_1_m1 value).
Proof.
  intros Hs He. unfold parse_value. rewrite Hs, He.
  destruct value as [| c r]; [discriminate |].
  cbn [startswith_char] in Hs. apply Ascii.eqb_eq in Hs. subst c. reflexivity.
Qed.

Lemma parse_value_single_quoted (value : string) :
  startswith_char squote value = true ->
  endswith_char squote value = true ->
  parse_value value = VStr (slice_1_m1 value).
Proof.
  intros Hs He. unfold parse_value. rewrite Hs, He.
  destruct value as [| c r]; [discriminate |].
  cbn [startswith_char] in Hs. apply Ascii.eqb_eq in Hs. subst c. reflexivity.
Qed.

(** A character that lowercases to a letter is not a bracket or a
    quote. *)
Lemma lower_char_letter (c : ascii) :
  lower_char c = "t"%char \/ lower_char c = "f"%char ->
  Ascii.eqb "[" c = false /\ Ascii.eqb dquote c = false
  /\ Ascii.eqb squote c = false.
Proof.
  destruct c as [[] [] [] [] [] [] [] []]; vm_compute;
    intros [H | H]; try discriminate H; repeat split.
Qed.

Lemma parse_value_boolean (value : string) (b : bool) :
  lower value = (if b then "true" else "false") ->
  parse_value value = VBool b.
Proof.
  intros H. unfold parse_value.
  destruct value as [| c r]; [destruct b; discriminate |].
  assert (Hc : lower_char c = "t"%char \/ lower_char c = "f"%char).
  { destruct b; injection H as H _; [now left | now right]. }
  destruct (lower_char_letter c Hc) as (H1 & H2 & H3).
  cbn [startswith_char]. rewrite H1, H2, H3. cbn [andb].
  rewrite H. now destruct b.
Qed.

Lemma starts_with_dash_space (line : string) :
  startswith "- " line = true ->
  exists r, line = String "-" (String " " r).
Proof.
  unfold startswith.
  destruct line as [| a [| b r]]; cbn [String.prefix]; try discriminate.
  - destruct (ascii_dec "-" a); discriminate.
  - destruct (ascii_dec "-" a) as [<- |]; [| discriminate].
    destruct (ascii_dec " " b) as [<- |]; [| discriminate].
    intros _. now exists r.
Qed.

Lemma parse_line_item (frontmatter : dict) (raw last_key : string)
    (items : list pyobj) :
  startswith "- " (strip raw) = true ->
  contains_char ":" (strip raw) = false ->
  dict_last frontmatter = Some (last_key, VList items) ->
  parse_line frontmatter raw =
    dict_set last_key
      (VList (items ++ [VStr (strip_quotes (strip (slice_2 (strip raw))))]))
      frontmatter.
Proof.
  intros Hdash Hcolon Hlast. unfold parse_line.
  destruct (starts_with_dash_space _ Hdash) as [r E].
  rewrite Hcolon, Hdash, Hlast. rewrite E at 1 2. cbn [is_empty startswith_char].
  change (Ascii.eqb "#" "-") with false. cbn [orb andb].
  destruct frontmatter; [discriminate Hlast | reflexivity].
Qed.

Lemma parse_line_item_ignored (frontmatter : dict) (raw : string) :
  startswith "- " (strip raw) = true ->
  contains_char ":" (strip raw) = false ->
  (forall last_key items,
     dict_last frontmatter <> Some (last_key, VList items)) ->
  parse_line frontmatter raw = frontmatter.
Proof.
  intros Hdash Hcolon Hlast. unfold parse_line.
  destruct (starts_with_dash_space _ Hdash) as [r E].
  rewrite Hcolon, Hdash. rewrite E at 1 2. cbn [is_empty startswith_char].
  change (Ascii.eqb "#" "-") with false. cbn [orb andb].
  destruct frontmatter as [| kv d]; [reflexivity |]. cbn [negb].
  destruct (dict_last (kv :: d)) as [[key [| | | | | items |]] |] eqn:E';
    try reflexivity.
  now destruct (Hlast key items).
Qed.

(** A key that is new to a dictionary becomes its last key. *)
Lemma dict_last_set_new (k : string) (v : pyobj) (d : dict) :
  dict_mem k d = false -> dict_last (dict_set k v d) = Some (k, v).
Proof.
  unfold dict_mem, dict_last.
  induction d as [| [k' v'] d IH]; [reflexivity |].
  cbn [dict_get dict_set].
  destruct (String.eqb k' k); [discriminate |].
  intros H. specialize (IH H). cbn [map].
  destruct (dict_set k v d); [discriminate IH | exact IH].
Qed.

(** *** The bound of a repetition

    A repetition is run with a bound on its iterations, one more than the
    number of characters left.  The bound is never what stops the loop:
    any larger bound gives the same result. *)

Lemma ahead_refl (st : state) : ahead st st.
Proof. unfold ahead. lia. Qed.

Lemma ahead_trans (a b c : state) : ahead a b -> ahead b c -> ahead a c.
Proof. unfold ahead. lia. Qed.

Lemma star_loop_ext {R : Type}
    (body : state -> (state -> option R) -> option R) (g : bool) :
  (forall st k1 k2,
     (forall st', ahead st st' -> k1 st' = k2 st') ->
     body st k1 = body st k2) ->
  forall n st k1 k2,
    (forall st', ahead st st' -> k1 st' = k2 st') ->
    star_loop body g n st k1 = star_loop body g n st k2.
Proof.
  intros Hbody. induction n as [| n IH]; intros st k1 k2 Hk; cbn [star_loop].
  - apply Hk, ahead_refl.
  - rewrite (Hk st (ahead_refl st)).
    rewrite (Hbody st _
               (fun st' => if progress st st'
                           then star_loop body g n st' k2 else None)).
    + reflexivity.
    + intros st' Hst'. destruct (progress st st'); [| reflexivity].
      apply IH. intros st'' Hst''. apply Hk.
      now apply ahead_trans with st'.
Qed.

(** What a pattern does with its continuation depends on the
    continuation at the positions ahead only. *)
Lemma run_ext {R : Type} (a : re) :
  forall (st : state) (k1 k2 : state -> option R),
    (forall st', ahead st st' -> k1 st' = k2 st') ->
    run a st k1 = run a st k2.
Proof.
  induction a as [| p | a IHa b IHb | a IHa b IHb | g a IHa | m | m | n a IHa];
    intros st k1 k2 Hk; cbn [run].
  - apply Hk, ahead_refl.
  - destruct (rest st) as [| c s] eqn:E; [reflexivity |].
    destruct (p c); [| reflexivity].
    apply Hk. unfold ahead. cbn [pos rest]. rewrite E. simpl. lia.
  - apply IHa. intros st' Hst'. apply IHb. intros st'' Hst''.
    apply Hk. now apply ahead_trans with st'.
  - now rewrite (IHa st k1 k2 Hk), (IHb st k1 k2 Hk).
  - now apply star_loop_ext.
  - destruct (prev st) as [c |]; [| apply Hk, ahead_refl].
    destruct (m && Ascii.eqb c newline)%bool; [apply Hk, ahead_refl |].
    reflexivity.
  - destruct (rest st) as [| c s]; [apply Hk, ahead_refl |].
    destruct (Ascii.eqb c newline && (m || is_empty s))%bool;
      [apply Hk, ahead_refl | reflexivity].
  - apply IHa. intros st' Hst'. apply Hk.
    unfold ahead in *. cbn [pos rest]. exact Hst'.
Qed.

Lemma star_loop_bound {R : Type} (a : re) (g : bool) :
  forall (n : nat) (st : state) (k : state -> option R),
    (String.length (rest st) < n)%nat ->
    star_loop (run a) g n st k = star_loop (run a) g (S n) st k.
Proof.
  induction n as [| n IH]; intros st k Hn; [lia |].
  change (star_loop (run a) g (S (S n)) st k)
    with (let again :=
            run a st (fun st' =>
              if progress st st' then star_loop (run a) g (S n) st' k
              else None) in
          if g then or_else again (k st) else or_else (k st) again).
  cbn [star_loop]. cbv zeta.
  rewrite (run_ext a st _
             (fun st' => if progress st st'
                         then star_loop (run a) g (S n) st' k else None)).
  - reflexivity.
  - intros st' [Hsum Hle].
    destruct (progress st st') eqn:Hp; [| reflexivity].
    apply Nat.ltb_lt in Hp. apply IH. lia.
Qed.

Lemma star_bound_sufficient {R : Type} (a : re) (g : bool) (st : state)
    (k : state -> option R) (extra : nat) :
  run (Star g a) st k
  = star_loop (run a) g (S (String.length (rest st)) + extra) st k.
Proof.
  cbn [run]. induction extra as [| m IH].
  - now rewrite Nat.add_0_r.
  - rewrite IH. rewrite <- plus_n_Sm. apply star_loop_bound. lia.
Qed.

(** *** The patterns on text that is only partly known *)

(** The frontmatter pattern is anchored: it matches nowhere but at the
    beginning. *)
Lemma skip_frontmatter_anchored (st : state) (c : ascii) :
  prev st = Some c -> run skip_frontmatter_re st Some = None.
Proof. intros H. simpl. now rewrite H. Qed.

Lemma sub_from_anchored (n : nat) (st : state) (c : ascii) :
  prev st = Some c -> sub_from skip_frontmatter_re n st = rest st.
Proof.
  revert st c. induction n as [| n IH]; intros st c H; [reflexivity |].
  cbn [sub_from]. rewrite (skip_frontmatter_anchored st c H).
  destruct (rest st) as [| c' s]; [reflexivity |].
  now rewrite (IH _ c').
Qed.

Lemma sub_from_no_match (r : re) (n : nat) (st : state) :
  run r st Some = None ->
  sub_from r (S n) st =
    match rest st with
    | String c s =>
        String c (sub_from r n (mkState (Some c) (S (pos st)) s []))
    | EmptyString => EmptyString
    end.
Proof. intros H. cbn [sub_from]. now rewrite H. Qed.

(** Text that does not start with a dash has no frontmatter to remove. *)
Lemma no_frontmatter_to_skip (c : ascii) (s : string) :
  c <> "-"%char -> re_sub_empty skip_frontmatter_re (String c s) = String c s.
Proof.
  intros Hc. unfold re_sub_empty.
  rewrite sub_from_no_match.
  - cbn [rest start]. now rewrite (sub_from_anchored _ _ c).
  - unfold skip_frontmatter_re.
    cbn [seqs lit chr run start prev rest].
    destruct (Ascii.eqb_spec "-" c); [congruence | reflexivity].
Qed.

(** A greedy run of white space only moves the position: the captured
    groups stay as they are. *)
Lemma space_loop_caps (n : nat) (k : state -> option state) :
  (forall s s', k s = Some s' -> caps s' = caps s) ->
  forall st st',
    star_loop (run space) true n st k = Some st' -> caps st' = caps st.
Proof.
  intros Hk. induction n as [| n IH]; intros st st'; cbn [star_loop].
  - apply Hk.
  - unfold or_else.
    destruct (run space st _) as [r |] eqn:E.
    + intros [= <-]. cbn [run space] in E.
      destruct (rest st) as [| c s]; [discriminate |].
      destruct (is_space c); [| discriminate].
      destruct (progress st _); [| discriminate].
      now apply IH in E.
    + apply Hk.
Qed.

Lemma newline_caps (s s' : state) :
  run (chr newline) s Some = Some s' -> caps s' = caps s.
Proof.
  cbn [run chr]. destruct (rest s) as [| c r]; [discriminate |].
  destruct (Ascii.eqb newline c); [| discriminate].
  now intros [= <-].
Qed.

Lemma star_loop_greedy_step {R : Type}
    (body : state -> (state -> option R) -> option R) (n : nat) (st : state)
    (k : state -> option R) :
  star_loop body true (S n) st k =
    or_else (body st (fun st' =>
               if progress st st' then star_loop body true n st' k else None))
            (k st).
Proof. reflexivity. Qed.

(** The end of a delimiter line, [\s*\n], succeeds in front of a line
    break whatever follows. *)
Lemma delimiter_end (st : state) (r : string) :
  rest st = String newline r ->
  exists st',
    run delimiter_tail st Some = Some st'
    /\ caps st' = caps st.
Proof.
  intros Hrest. unfold delimiter_tail. cbn [run]. rewrite star_loop_greedy_step.
  unfold or_else.
  destruct (run space st _) as [st' |] eqn:E.
  - exists st'. split; [reflexivity |].
    cbn [run space] in E. rewrite Hrest in E.
    change (is_space newline) with true in E. cbn iota in E.
    destruct (progress st _); [| discriminate].
    apply (space_loop_caps _ _ newline_caps) in E. exact E.
  - cbn [run chr]. rewrite Hrest, Ascii.eqb_refl. eauto.
Qed.

Lemma run_frontmatter_split (st : state) (k : state -> option state) :
  run frontmatter_re st k
  = run frontmatter_head st (fun s => run delimiter_tail s k).
Proof. reflexivity. Qed.


Lemma step_over_rest (line r : string) (st : state) :
  rest st = line ++ r -> rest (step_over line st) = r.
Proof.
  revert st. induction line as [| c l IH]; intros st H; [exact H |].
  apply IH. cbn [rest]. now rewrite H.
Qed.

Lemma step_over_pos (line : string) (st : state) :
  pos (step_over line st) = (pos st + String.length line)%nat.
Proof.
  revert st. induction line as [| c l IH]; intros st; simpl; [lia |].
  rewrite IH. simpl. lia.
Qed.

Lemma step_over_caps (line : string) (st : state) :
  caps (step_over line st) = caps st.
Proof.
  revert st. induction line as [| c l IH]; intros st; [reflexivity |].
  simpl. now rewrite IH.
Qed.

Lemma progress_step (st : state) (c : option ascii) (s : string)
    (l : list (nat * string)) :
  progress st (mkState c (S (pos st)) s l) = true.
Proof. unfold progress. cbn [pos]. apply Nat.ltb_lt. lia. Qed.

(** A greedy run of white space stops in front of any other character. *)
Lemma greedy_space_stops {R : Type} (n : nat) (st : state)
    (k : state -> option R) (c : ascii) (r : string) :
  rest st = String c r -> is_space c = false ->
  star_loop (run space) true n st k = k st.
Proof.
  intros Hrest Hc. destruct n as [| n]; [reflexivity |].
  rewrite star_loop_greedy_step. cbn [run space]. now rewrite Hrest, Hc.
Qed.

Lemma star_loop_lazy_step {R : Type}
    (body : state -> (state -> option R) -> option R) (n : nat) (st : state)
    (k : state -> option R) :
  star_loop body false (S n) st k =
    or_else (k st)
            (body st (fun st' =>
               if progress st st' then star_loop body false n st' k else None)).
Proof. reflexivity. Qed.

Lemma run_dot_all {R : Type} (st : state) (k : state -> option R)
    (c : ascii) (s : string) :
  rest st = String c s ->
  run dot_all st k = k (mkState (Some c) (S (pos st)) s (caps st)).
Proof. intros H. unfold dot_all. cbn [run]. now rewrite H. Qed.

(** A lazy run of arbitrary characters passes over a stretch of text in
    which what follows the run cannot start. *)
Lemma lazy_over_line {R : Type} (line : string) :
  forall (n : nat) (st : state) (r : string) (k : state -> option R),
    rest st = line ++ r ->
    contains_char newline line = false ->
    (forall st' c s,
       rest st' = String c s -> c <> newline -> k st' = None) ->
    (String.length line <= n)%nat ->
    star_loop (run dot_all) false n st k
    = star_loop (run dot_all) false (n - String.length line)
        (step_over line st) k.
Proof.
  induction line as [| c l IH]; intros n st r k Hrest Hnl Hk Hn.
  - cbn [String.length step_over]. now rewrite Nat.sub_0_r.
  - cbn [contains_char] in Hnl. apply orb_false_iff in Hnl as [Hc Hl].
    apply Ascii.eqb_neq in Hc.
    destruct n as [| n]; [simpl in Hn; lia |].
    rewrite star_loop_lazy_step.
    rewrite (Hk st c (l ++ r) Hrest) by congruence.
    cbn [or_else]. rewrite (run_dot_all st _ c (l ++ r) Hrest).
    rewrite progress_step.
    rewrite (IH n _ r k); cbn [rest]; try assumption.
    + cbn [String.length step_over Nat.sub]. now rewrite Hrest.
    + reflexivity.
    + simpl in Hn. lia.
Qed.

(** One step of the matcher at a time. *)
Lemma run_seq {R : Type} (a b : re) (st : state) (k : state -> option R) :
  run (Seq a b) st k = run a st (fun st' => run b st' k).
Proof. reflexivity. Qed.

Lemma run_star {R : Type} (g : bool) (a : re) (st : state)
    (k : state -> option R) :
  run (Star g a) st k = star_loop (run a) g (S (String.length (rest st))) st k.
Proof. reflexivity. Qed.

Lemma run_grp {R : Type} (n : nat) (a : re) (st : state)
    (k : state -> option R) :
  run (Grp n a) st k =
    run a st (fun st' =>
      k (mkState (prev st') (pos st') (rest st')
                 ((n, consumed st st') :: caps st'))).
Proof. reflexivity. Qed.

Lemma run_chr {R : Type} (st : state) (k : state -> option R)
    (c : ascii) (s : string) :
  rest st = String c s ->
  run (chr c) st k = k (mkState (Some c) (S (pos st)) s (caps st)).
Proof. intros H. unfold chr. cbn [run]. now rewrite H, Ascii.eqb_refl. Qed.

Lemma run_chr_fail {R : Type} (st : state) (k : state -> option R)
    (c d : ascii) (s : string) :
  rest st = String d s -> c <> d -> run (chr c) st k = None.
Proof.
  intros H Hne. unfold chr. cbn [run]. rewrite H.
  now destruct (Ascii.eqb_spec c d).
Qed.

Lemma run_space {R : Type} (st : state) (k : state -> option R)
    (c : ascii) (s : string) :
  rest st = String c s -> is_space c = true ->
  run space st k = k (mkState (Some c) (S (pos st)) s (caps st)).
Proof. intros H Hc. unfold space. cbn [run]. now rewrite H, Hc. Qed.

Lemma substring_prefix (a b : string) :
  substring 0 (String.length a) (a ++ b) = a.
Proof. induction a as [| c a IH]; simpl; [now destruct b | now rewrite IH]. Qed.

Lemma not_space_not_newline (c : ascii) : is_space c = false -> newline <> c.
Proof. intros H <-. discriminate H. Qed.

Lemma run_bol_start {R : Type} (m : bool) (st : state)
    (k : state -> option R) :
  prev st = None -> run (Bol m) st k = k st.
Proof. intros H. cbn [run]. now rewrite H. Qed.

Lemma run_eps {R : Type} (st : state) (k : state -> option R) :
  run Eps st k = k st.
Proof. reflexivity. Qed.

(** A block of one line: the pattern captures that line, whatever follows
    the closing delimiter. *)
Lemma frontmatter_single_line (c : ascii) (l remainder : string) :
  is_space c = false ->
  contains_char newline (String c l) = false ->
  exists m,
    re_match frontmatter_re
      ("---" ++ nl ++ String c l ++ nl ++ "---" ++ nl ++ remainder) = Some m
    /\ group 1 (caps m) = Some (String c l).
Proof.
  intros Hc Hnl.
  unfold re_match. rewrite run_frontmatter_split.
  set (K := fun s => run delimiter_tail s Some).
  assert (HK : forall st r, rest st = String newline r ->
                 exists st', K st = Some st' /\ caps st' = caps st)
    by (intros; eapply delimiter_end; eassumption).
  clearbody K.
  set (line := String c l) in *.
  set (r := nl ++ "---" ++ nl ++ remainder).
  unfold frontmatter_head, start. cbn [seqs lit append nl].
  rewrite run_seq, run_bol_start by reflexivity.
  cbv beta. do 3 (repeat rewrite run_seq; erewrite run_chr by reflexivity; cbv beta; cbn [pos caps]).
  rewrite run_eps.
  rewrite run_seq, run_star, star_loop_greedy_step.
  erewrite run_space by reflexivity. cbv beta. rewrite progress_step.
  erewrite greedy_space_stops by (reflexivity || exact Hc).
  rewrite run_seq.
  erewrite (run_chr_fail _ _ newline c) by (reflexivity || now apply not_space_not_newline).
  cbn [or_else].
  repeat rewrite run_seq; erewrite run_chr by reflexivity; cbv beta; cbn [pos caps].
  rewrite run_seq, run_grp, run_star. cbn [rest].
  set (st4 := {| prev := Some newline; pos := 4; rest := line ++ r; caps := [] |}).
  match goal with |- context [star_loop _ false _ st4 ?k] => set (kL := k) end.
  rewrite (lazy_over_line line _ st4 r kL).
  2: reflexivity. 2: exact Hnl.
  2: { intros st' d s Hr Hd. unfold kL. rewrite run_seq.
       apply run_chr_fail with (d := d) (s := s); [exact Hr | congruence]. }
  2: { rewrite str_app_length. lia. }
  replace (S (String.length (line ++ r)) - String.length line)%nat
    with (S (String.length r)) by (rewrite str_app_length; lia).
  rewrite star_loop_lazy_step.
  set (stA := step_over line st4).
  assert (HrA : rest stA = r) by (apply step_over_rest; reflexivity).
  unfold kL at 1. rewrite HrA. unfold r at 1. cbn [append nl].
  do 4 (repeat rewrite run_seq; erewrite run_chr by reflexivity; cbv beta;
        cbn [pos caps]).
  rewrite run_eps.
  match goal with |- context [K ?s] =>
    destruct (HK s remainder eq_refl) as (st' & E & Hcaps); rewrite E
  end.
  cbn [or_else]. exists st'. split; [reflexivity |].
  rewrite Hcaps. cbn [caps group Nat.eqb]. f_equal.
  unfold consumed, stA. rewrite step_over_pos.
  replace (pos st4 + String.length line - pos st4)%nat
    with (String.length line) by lia.
  apply substring_prefix.
Qed.

Lemma split_without_separator (c : ascii) (s : string) :
  contains_char c s = false -> split c s = [s].
Proof.
  induction s as [| d s IH]; cbn [contains_char split]; [reflexivity |].
  destruct (Ascii.eqb c d); [discriminate |].
  intros H. now rewrite (IH H).
Qed.

Lemma parse_frontmatter_single_line (c : ascii) (l remainder : string) :
  is_space c = false ->
  contains_char newline (String c l) = false ->
  parse_frontmatter
    ("---" ++ nl ++ String c l ++ nl ++ "---" ++ nl ++ remainder)
  = parse_line [] (String c l).
Proof.
  intros Hc Hnl. unfold parse_frontmatter.
  destruct (frontmatter_single_line c l remainder Hc Hnl) as (m & -> & ->).
  now rewrite split_without_separator.
Qed.









Lemma frontmatter_modified_example (remainder : string) :
  parse_frontmatter
    ("---" ++ nl ++ "modified: 2024-01-15" ++ nl ++ "---" ++ nl ++ remainder)
  = [("modified", VStr "2024-01-15")].
Proof.
  change ("---" ++ nl ++ "modified: 2024-01-15" ++ nl ++ "---" ++ nl
          ++ remainder)
    with ("---" ++ nl ++ String "m" "odified: 2024-01-15" ++ nl ++ "---" ++ nl
          ++ remainder).
  rewrite parse_frontmatter_single_line; reflexivity.
Qed.

Lemma heading_example (remainder : string) :
  parse_frontmatter ("# Hello" ++ nl ++ remainder) = []
  /\ extract_title_from_heading ("# Hello" ++ nl ++ remainder) = Some "Hello".
Proof.
  split; [reflexivity |].
  unfold extract_title_from_heading.
  change ("# Hello" ++ nl ++ remainder)
    with (String "#" (" Hello" ++ nl ++ remainder)).
  rewrite no_frontmatter_to_skip by discriminate.
  vm_compute. reflexivity.
Qed.

(** *** A heading on the first line *)

Lemma run_dot {R : Type} (st : state) (k : state -> option R)
    (c : ascii) (s : string) :
  rest st = String c s -> newline <> c ->
  run dot st k = k (mkState (Some c) (S (pos st)) s (caps st)).
Proof.
  intros H Hc. unfold dot. cbn [run]. rewrite H.
  destruct (Ascii.eqb_spec c newline) as [E | _]; [now destruct Hc |].
  reflexivity.
Qed.

Lemma run_dot_newline {R : Type} (st : state) (k : state -> option R)
    (s : string) :
  rest st = String newline s -> run dot st k = None.
Proof.
  intros H. unfold dot. cbn [run]. now rewrite H, Ascii.eqb_refl.
Qed.

Lemma run_eol_newline {R : Type} (st : state) (k : state -> option R)
    (s : string) :
  rest st = String newline s -> run (Eol true) st k = k st.
Proof. intros H. cbn [run]. now rewrite H, Ascii.eqb_refl. Qed.

(** A greedy run of [.] takes the rest of the line when what follows the
    run succeeds at the end of the line. *)
Lemma greedy_dot_line {R : Type} (line : string) :
  forall (n : nat) (st : state) (r : string) (k : state -> option R)
         (result : R),
    rest st = line ++ String newline r ->
    contains_char newline line = false ->
    k (step_over line st) = Some result ->
    (String.length line <= n)%nat ->
    star_loop (run dot) true n st k = Some result.
Proof.
  induction line as [| c l IH]; intros n st r k result Hrest Hnl Hk Hn.
  - cbn [step_over] in Hk. destruct n as [| n]; [exact Hk |].
    rewrite star_loop_greedy_step.
    now rewrite (run_dot_newline st _ r Hrest).
  - cbn [contains_char] in Hnl. apply orb_false_iff in Hnl as [Hc Hl].
    apply Ascii.eqb_neq in Hc.
    destruct n as [| n]; [simpl in Hn; lia |].
    rewrite star_loop_greedy_step.
    rewrite (run_dot st _ c (l ++ String newline r) Hrest Hc).
    rewrite progress_step.
    erewrite IH; [reflexivity | reflexivity | exact Hl | | simpl in Hn; lia].
    cbn [step_over] in Hk. now rewrite Hrest in Hk.
Qed.



(** A text whose first line is [# ] followed by a heading that starts
    with a visible character: the heading is extracted, whatever follows
    the line. *)
Lemma heading_first_line (c : ascii) (l remainder : string) :
  is_space c = false ->
  contains_char newline (String c l) = false ->
  parse_frontmatter ("# " ++ String c l ++ nl ++ remainder) = []
  /\ extract_title_from_heading ("# " ++ String c l ++ nl ++ remainder)
     = Some (strip (String c l)).
Proof.
  intros Hc Hnl. split; [reflexivity |].
  set (line := String c l) in *.
  unfold extract_title_from_heading.
  change ("# " ++ line ++ nl ++ remainder)
    with (String "#" (String " " (line ++ String newline remainder))).
  rewrite no_frontmatter_to_skip by discriminate.
  unfold re_search. cbn [String.length search_from].
  assert (E : exists m,
            run heading_re
              (start (String "#" (String " "
                        (line ++ String newline remainder)))) Some = Some m
            /\ group 1 (caps m) = Some line).
  { unfold heading_re, plus, start. cbn [seqs].
    rewrite run_seq, run_bol_start by reflexivity. cbv beta.
    repeat rewrite run_seq. erewrite run_chr by reflexivity. cbv beta.
    cbn [pos caps].
    repeat rewrite run_seq. erewrite run_space by reflexivity. cbv beta.
    cbn [pos caps].
    rewrite run_star.
    erewrite greedy_space_stops by (reflexivity || exact Hc).
    rewrite run_seq, run_grp, run_seq.
    erewrite run_dot by (reflexivity || now apply not_space_not_newline).
    cbv beta. cbn [pos caps rest]. rewrite run_star.
    cbn [contains_char] in Hnl. apply orb_false_iff in Hnl as [_ Hl].
    eexists. split.
    - eapply greedy_dot_line with (line := l) (r := remainder);
        [reflexivity | exact Hl | | cbn [rest]; rewrite str_app_length; lia].
      rewrite run_eol_newline with (s := remainder); [reflexivity |].
      cbn [rest]. apply step_over_rest. reflexivity.
    - cbn [caps group Nat.eqb]. f_equal. unfold consumed. cbn [pos rest]. rewrite step_over_pos.
      cbn [pos].
      replace (3 + String.length l - 2)%nat with (String.length line)
        by (unfold line; simpl; lia).
      apply substring_prefix. }
  destruct E as (m & -> & ->). reflexivity.
Qed.

(** *** What a successful match has consumed *)

Lemma run_cls {R : Type} (p : ascii -> bool) (st : state)
    (k : state -> option R) :
  run (Cls p) st k =
    match rest st with
    | String c s =>
        if p c then k (mkState (Some c) (S (pos st)) s (caps st)) else None
    | EmptyString => None
    end.
Proof. reflexivity. Qed.

Lemma reaches_refl (st : state) : reaches st st.
Proof. now exists EmptyString. Qed.

Lemma reaches_trans (a b c : state) :
  reaches a b -> reaches b c -> reaches a c.
Proof.
  intros [m1 H1] [m2 H2]. exists (m1 ++ m2)%string.
  now rewrite H1, H2, str_app_assoc.
Qed.

Lemma star_loop_reaches {R : Type} (body : state -> (state -> option R) -> option R)
    (g : bool) :
  (forall st k x, body st k = Some x ->
     exists st', reaches st st' /\ k st' = Some x) ->
  forall n st k x, star_loop body g n st k = Some x ->
    exists st', reaches st st' /\ k st' = Some x.
Proof.
  intros Hbody. induction n as [| n IH]; intros st k x H; cbn [star_loop] in H.
  - exists st. split; [apply reaches_refl | exact H].
  - assert (Hagain : forall y,
      body st (fun st' => if progress st st' then star_loop body g n st' k
                          else None) = Some y ->
      exists st', reaches st st' /\ k st' = Some y).
    { intros y Hy. destruct (Hbody _ _ _ Hy) as (st1 & Hr1 & H1).
      destruct (progress st st1); [| discriminate].
      destruct (IH _ _ _ H1) as (st2 & Hr2 & H2).
      exists st2. split; [exact (reaches_trans _ _ _ Hr1 Hr2) | exact H2]. }
    unfold or_else in H. destruct g.
    + destruct (body st _) as [y |] eqn:E.
      * injection H as ->. now apply Hagain.
      * exists st. split; [apply reaches_refl | exact H].
    + destruct (k st) as [y |] eqn:E.
      * injection H as ->. exists st. split; [apply reaches_refl | exact E].
      * now apply Hagain.
Qed.

(** A successful match runs its continuation at a position further on in
    the same text. *)
Lemma run_reaches {R : Type} (r : re) :
  forall (st : state) (k : state -> option R) (x : R),
    run r st k = Some x -> exists st', reaches st st' /\ k st' = Some x.
Proof.
  induction r as [| p | a IHa b IHb | a IHa b IHb | g a IHa | m | m | n a IHa];
    intros st k x H.
  - exists st. split; [apply reaches_refl | exact H].
  - cbn [run] in H. destruct (rest st) as [| c s] eqn:E; [discriminate |].
    destruct (p c); [| discriminate].
    eexists. split; [| exact H]. exists (String c ""). now rewrite E.
  - cbn [run] in H. destruct (IHa _ _ _ H) as (st1 & Hr1 & H1).
    destruct (IHb _ _ _ H1) as (st2 & Hr2 & H2).
    exists st2. split; [exact (reaches_trans _ _ _ Hr1 Hr2) | exact H2].
  - cbn [run] in H. unfold or_else in H.
    destruct (run a st k) as [y |] eqn:E.
    + injection H as ->. now apply IHa.
    + now apply IHb.
  - cbn [run] in H. exact (star_loop_reaches (run a) g IHa _ _ _ _ H).
  - cbn [run] in H. exists st. split; [apply reaches_refl |].
    destruct (prev st) as [c |]; [| exact H].
    destruct (m && Ascii.eqb c newline)%bool; [exact H | discriminate].
  - cbn [run] in H. exists st. split; [apply reaches_refl |].
    destruct (rest st) as [| c s]; [exact H |].
    destruct (Ascii.eqb c newline && (m || is_empty s))%bool;
      [exact H | discriminate].
  - cbn [run] in H. destruct (IHa _ _ _ H) as (st1 & Hr1 & H1).
    eexists. split; [| exact H1]. exact Hr1.
Qed.

Lemma run_seq_reaches {R : Type} (a b : re) (st : state)
    (k : state -> option R) (x : R) :
  run (Seq a b) st k = Some x ->
  exists st', reaches st st' /\ run b st' k = Some x.
Proof. intros H. exact (run_reaches a st _ x H). Qed.

Lemma run_chr_inv {R : Type} (c : ascii) (st : state)
    (k : state -> option R) (x : R) :
  run (chr c) st k = Some x ->
  exists st', rest st = String c (rest st') /\ k st' = Some x.
Proof.
  unfold chr. cbn [run]. destruct (rest st) as [| d s]; [discriminate |].
  destruct (Ascii.eqb_spec c d) as [<- | _]; [| discriminate].
  intros H. eexists. split; [| exact H]. reflexivity.
Qed.

Lemma run_lit_inv {R : Type} (s : string) :
  forall (st : state) (k : state -> option R) (x : R),
    run (lit s) st k = Some x ->
    exists st', rest st = (s ++ rest st')%string /\ k st' = Some x.
Proof.
  induction s as [| c s IH]; intros st k x H.
  - now exists st.
  - cbn [lit] in H. rewrite run_seq in H.
    apply run_chr_inv in H. destruct H as (st1 & H1 & H).
    apply IH in H. destruct H as (st2 & H2 & H).
    exists st2. split; [| exact H]. now rewrite H1, H2.
Qed.

Lemma star_space_inv {R : Type} (g : bool) :
  forall (n : nat) (st : state) (k : state -> option R) (x : R),
    star_loop (run space) g n st k = Some x ->
    exists mid st',
      rest st = (mid ++ rest st')%string
      /\ every is_space mid = true
      /\ k st' = Some x.
Proof.
  induction n as [| n IH]; intros st k x H; cbn [star_loop] in H.
  - now exists EmptyString, st.
  - assert (Hagain : forall y,
      run space st (fun st' => if progress st st'
                               then star_loop (run space) g n st' k
                               else None) = Some y ->
      exists mid st',
        rest st = (mid ++ rest st')%string
        /\ every is_space mid = true
        /\ k st' = Some y).
    { intros y Hy. unfold space in Hy. cbn [run] in Hy.
      destruct (rest st) as [| c s]; [discriminate |].
      destruct (is_space c) eqn:Hc; [| discriminate].
      destruct (progress st _); [| discriminate].
      apply IH in Hy. destruct Hy as (mid & st' & Hrest & Hmid & Hk).
      cbn [rest] in Hrest.
      exists (String c mid), st'. cbn [every append].
      now rewrite Hrest, Hc, Hmid. }
    unfold or_else in H. destruct g.
    + destruct (run space st _) as [y |] eqn:E.
      * injection H as ->. now apply Hagain.
      * now exists EmptyString, st.
    + destruct (k st) as [y |] eqn:E.
      * injection H as ->. now exists EmptyString, st.
      * now apply Hagain.
Qed.

Lemma run_bol_inv {R : Type} (m : bool) (st : state)
    (k : state -> option R) (x : R) :
  run (Bol m) st k = Some x -> k st = Some x.
Proof.
  cbn [run]. destruct (prev st) as [c |]; [| easy].
  now destruct (m && Ascii.eqb c newline)%bool.
Qed.

(** The delimiter line: three dashes, white space and a line break. *)
Lemma run_delimiter_inv {R : Type} (st : state)
    (k : state -> option R) (x : R) :
  run (Seq (lit "---") (Seq (Star true space) (chr newline))) st k = Some x ->
  exists a st',
    rest st = ("---" ++ a ++ nl ++ rest st')%string
    /\ every is_space a = true
    /\ k st' = Some x.
Proof.
  intros H. rewrite run_seq in H.
  apply run_lit_inv in H. destruct H as (st1 & H1 & H).
  rewrite run_seq, run_star in H.
  apply star_space_inv in H. destruct H as (a & st2 & H2 & Ha & H).
  apply run_chr_inv in H. destruct H as (st3 & H3 & H).
  exists a, st3. split; [| split; [exact Ha | exact H]].
  now rewrite H1, H2, H3.
Qed.

(** *** A frontmatter block of several lines *)

(** The end of a delimiter line in front of visible text: the white space
    is the line break alone. *)
Lemma run_line_end {R : Type} (st : state) (text : string)
    (k : state -> option R) :
  rest st = String newline text ->
  starts_visible text = true ->
  run (Star true space) st (fun s => run (chr newline) s k)
  = k (mkState (Some newline) (S (pos st)) text (caps st)).
Proof.
  intros Hrest Hvis.
  rewrite run_star, star_loop_greedy_step.
  erewrite run_space by (exact Hrest || reflexivity).
  cbv beta. rewrite progress_step.
  assert (E : star_loop (run space) true (String.length (rest st))
                (mkState (Some newline) (S (pos st)) text (caps st))
                (fun s => run (chr newline) s k) = None).
  { destruct text as [| c r].
    - destruct (String.length (rest st)); reflexivity.
    - cbn [starts_visible] in Hvis. apply negb_true_iff in Hvis.
      erewrite greedy_space_stops by (reflexivity || exact Hvis).
      eapply run_chr_fail; [reflexivity |].
      now apply not_space_not_newline. }
  rewrite E. cbn [or_else].
  now apply run_chr.
Qed.

Lemma run_line_end_seq {R : Type} (st : state) (text : string) (tl : re)
    (k : state -> option R) :
  rest st = String newline text ->
  starts_visible text = true ->
  run (Seq (Star true space) (Seq (chr newline) tl)) st k
  = run tl (mkState (Some newline) (S (pos st)) text (caps st)) k.
Proof.
  intros Hrest Hvis.
  change (run (Seq (Star true space) (Seq (chr newline) tl)) st k)
    with (run (Star true space) st
            (fun s => run (chr newline) s (fun s' => run tl s' k))).
  exact (run_line_end st text (fun s' => run tl s' k) Hrest Hvis).
Qed.

Lemma run_lit {R : Type} (s : string) :
  forall (st : state) (text : string) (k : state -> option R),
    rest st = (s ++ text)%string ->
    run (lit s) st k = k (step_over s st).
Proof.
  induction s as [| c s IH]; intros st text k Hrest; [reflexivity |].
  cbn [lit]. rewrite run_seq.
  erewrite run_chr by exact Hrest.
  rewrite (IH _ text) by reflexivity.
  cbn [step_over]. now rewrite Hrest.
Qed.


Lemma is_substring_app (k a b : string) :
  String.prefix k b = true -> is_substring k (a ++ b) = true.
Proof.
  intros H. induction a as [| c a IH].
  - destruct b; cbn [append is_substring]; now rewrite H.
  - cbn [append is_substring]. rewrite IH. apply orb_true_r.
Qed.

Lemma prefix_app (k z : string) : String.prefix k (k ++ z) = true.
Proof.
  induction k as [| c k IH]; [now destruct z |].
  cbn [append String.prefix]. destruct (ascii_dec c c); [exact IH | congruence].
Qed.

(** Inside a body without a delimiter line, what follows the body cannot
    start. *)
Lemma no_delimiter_inside (a b text z : string) :
  is_substring (nl ++ delimiter) (a ++ b) = false ->
  b <> EmptyString ->
  (b ++ nl ++ text)%string = (nl ++ delimiter ++ z)%string ->
  False.
Proof.
  intros Hsub Hb E.
  destruct b as [| b0 [| b1 [| b2 [| b3 b']]]]; [now destruct Hb | ..];
    unfold nl, delimiter, newline in E; cbn [append] in E;
    injection E; intros; try discriminate.
  subst b0 b1 b2 b3. fold newline in Hsub.
  rewrite (is_substring_app (nl ++ delimiter) a) in Hsub; [discriminate |].
  apply (prefix_app (nl ++ delimiter) b').
Qed.

(** A lazy run of arbitrary characters passes over a text inside which
    what follows the run cannot start. *)
Lemma lazy_skips {R : Type} (text : string) :
  forall (done : string) (n : nat) (st : state) (r : string)
         (k : state -> option R),
    rest st = (text ++ r)%string ->
    (forall st' a b,
       (done ++ text)%string = (a ++ b)%string -> b <> EmptyString ->
       rest st' = (b ++ r)%string -> k st' = None) ->
    (String.length text <= n)%nat ->
    star_loop (run dot_all) false n st k
    = star_loop (run dot_all) false (n - String.length text)
        (step_over text st) k.
Proof.
  induction text as [| c l IH]; intros done n st r k Hrest Hk Hn.
  - cbn [String.length step_over]. now rewrite Nat.sub_0_r.
  - destruct n as [| n]; [simpl in Hn; lia |].
    rewrite star_loop_lazy_step.
    rewrite (Hk st done (String c l) eq_refl) by (discriminate || exact Hrest).
    cbn [or_else]. rewrite (run_dot_all st _ c (l ++ r) Hrest).
    rewrite progress_step.
    rewrite (IH (done ++ String c "")%string n _ r k).
    + cbn [String.length step_over Nat.sub]. now rewrite Hrest.
    + reflexivity.
    + intros st' a b E. apply (Hk st' a b).
      now rewrite <- E, str_app_assoc.
    + simpl in Hn. lia.
Qed.

Lemma block_body_parts (body : string) :
  block_body body = true ->
  exists c l,
    body = String c l /\ is_space c = false
    /\ is_substring (nl ++ delimiter) body = false.
Proof.
  unfold block_body. intros H.
  apply andb_prop in H as [H Hsub]. apply andb_prop in H as [Hne Hvis].
  apply negb_true_iff in Hsub.
  destruct body as [| c l]; [discriminate Hne |].
  cbn [starts_visible] in Hvis. apply negb_true_iff in Hvis.
  now exists c, l.
Qed.

Lemma block_text (body remainder : string) :
  (block body ++ remainder)%string
  = (delimiter ++ nl ++ body ++ nl ++ delimiter ++ nl ++ remainder)%string.
Proof. unfold block. now rewrite !str_app_assoc. Qed.

(** The lazy run of the pattern takes the body of the block. *)
Lemma lazy_takes_body {R : Type} (body r : string) (st : state)
    (kc : state -> option R) :
  is_substring (nl ++ delimiter) body = false ->
  (forall s x, kc s = Some x ->
     exists z, rest s = (nl ++ delimiter ++ z)%string) ->
  rest st = (body ++ nl ++ r)%string ->
  run (Star false dot_all) st kc
  = or_else
      (kc (step_over body st))
      (run dot_all (step_over body st)
         (fun st' =>
            if progress (step_over body st) st'
            then star_loop (run dot_all) false (String.length (nl ++ r)) st'
                   kc
            else None)).
Proof.
  intros Hsub Hkc Hrest. rewrite run_star.
  rewrite (lazy_skips body EmptyString _ st (nl ++ r)); [| exact Hrest | |].
  - rewrite Hrest.
    replace (S (String.length (body ++ nl ++ r)) - String.length body)%nat
      with (S (String.length (nl ++ r))) by (rewrite !str_app_length; lia).
    now rewrite star_loop_lazy_step.
  - intros st' a b E Hb Hr.
    destruct (kc st') as [x |] eqn:Ex; [| reflexivity].
    apply Hkc in Ex. destruct Ex as [z Hz].
    rewrite Hr in Hz. cbn [append] in E. subst body.
    now destruct (no_delimiter_inside a b r z Hsub Hb Hz).
  - rewrite Hrest, str_app_length. lia.
Qed.

Lemma closing_head_needs_delimiter {R : Type} (f : state -> state)
    (k : state -> option R) (s : state) (x : R) :
  (forall s, rest (f s) = rest s) ->
  run (Seq (chr newline) (lit delimiter)) (f s) k = Some x ->
  exists z, rest s = (nl ++ delimiter ++ z)%string.
Proof.
  intros Hf H. rewrite run_seq in H.
  apply run_chr_inv in H. destruct H as (st1 & H1 & H).
  apply run_lit_inv in H. destruct H as (st2 & H2 & _).
  exists (rest st2). now rewrite <- Hf, H1, H2.
Qed.

Lemma frontmatter_block_match (body remainder : string) :
  block_body body = true ->
  exists m,
    re_match frontmatter_re (block body ++ remainder) = Some m
    /\ group 1 (caps m) = Some body.
Proof.
  intros Hbody.
  destruct (block_body_parts body Hbody) as (c & l & Ebody & Hc & Hsub).
  unfold re_match. rewrite run_frontmatter_split, block_text.
  set (K := fun s => run delimiter_tail s Some).
  assert (HK : forall st r, rest st = String newline r ->
                 exists st', K st = Some st' /\ caps st' = caps st)
    by (intros; eapply delimiter_end; eassumption).
  clearbody K.
  unfold frontmatter_head, start. cbn [seqs].
  rewrite run_seq, run_bol_start by reflexivity. cbv beta.
  rewrite run_seq.
  erewrite (run_lit delimiter) by (cbn [rest]; reflexivity).
  set (st3 := step_over delimiter _).
  erewrite (run_line_end_seq st3
              (body ++ nl ++ delimiter ++ nl ++ remainder));
    [| reflexivity | rewrite Ebody; cbn [append starts_visible]; now rewrite Hc].
  cbn [pos caps st3 step_over delimiter].
  rewrite run_seq, run_grp.
  set (st4 := mkState (Some newline) 4 _ []).
  rewrite (lazy_takes_body body (delimiter ++ nl ++ remainder) st4 _ Hsub);
    [| intros s x;
       apply (closing_head_needs_delimiter
                (fun s => mkState (prev s) (pos s) (rest s)
                            ((1%nat, consumed st4 s) :: caps s)));
       reflexivity
     | reflexivity].
  set (stA := step_over body st4).
  assert (HrA : rest stA = (nl ++ delimiter ++ nl ++ remainder)%string)
    by (apply step_over_rest; reflexivity).
  cbv beta.
  match goal with |- context [or_else _ ?b] => set (again := b) end.
  rewrite run_seq.
  erewrite run_chr by (cbn [rest]; rewrite HrA; reflexivity).
  erewrite (run_lit delimiter) by (cbn [rest]; reflexivity).
  match goal with |- context [K ?s] =>
    destruct (HK s remainder) as (st' & E & Hcaps);
      [cbn [step_over delimiter rest tail]; reflexivity | rewrite E]
  end.
  cbn [or_else]. exists st'. split; [reflexivity |].
  rewrite Hcaps. cbn [step_over delimiter caps group Nat.eqb]. f_equal.
  unfold consumed, stA. rewrite step_over_pos.
  replace (pos st4 + String.length body - pos st4)%nat
    with (String.length body) by lia.
  apply substring_prefix.
Qed.

(** The frontmatter of a text that starts with a block is read from the
    lines of the body of the block, whatever follows the block. *)
Lemma parse_frontmatter_block (body remainder : string) :
  block_body body = true ->
  parse_frontmatter (block body ++ remainder)
  = fold_left parse_line (split newline body) [].
Proof.
  intros Hbody. unfold parse_frontmatter.
  now destruct (frontmatter_block_match body remainder Hbody)
    as (m & -> & ->).
Qed.



(** A text with a frontmatter starts with a block. *)
Lemma frontmatter_match_block (content : string) (m : state) :
  re_match frontmatter_re content = Some m ->
  exists a b c,
    content = ("---" ++ a ++ nl ++ b ++ nl ++ "---" ++ c ++ nl ++ rest m)%string
    /\ every is_space a = true
    /\ every is_space c = true.
Proof.
  unfold re_match, frontmatter_re. cbn [seqs]. intros H.
  rewrite run_seq in H. apply run_bol_inv in H.
  change (run (Seq (lit "---")
                 (Seq (Star true space)
                    (Seq (chr newline)
                       (Seq (Grp 1 (Star false dot_all))
                          (Seq (chr newline)
                             (Seq (lit "---")
                                (Seq (Star true space) (chr newline))))))))
            (start content) Some = Some m) in H.
  rewrite run_seq in H.
  apply run_lit_inv in H. destruct H as (st1 & H1 & H).
  rewrite run_seq, run_star in H.
  apply star_space_inv in H. destruct H as (a & st2 & H2 & Ha & H).
  rewrite run_seq in H.
  apply run_chr_inv in H. destruct H as (st3 & H3 & H).
  rewrite run_seq in H.
  apply run_reaches in H. destruct H as (st4 & [b H4] & H).
  rewrite run_seq in H.
  apply run_chr_inv in H. destruct H as (st5 & H5 & H).
  apply run_delimiter_inv in H. destruct H as (c & st6 & H6 & Hc & H).
  injection H as ->.
  exists a, b, c. split; [| split; assumption].
  cbn [rest start] in H1.
  rewrite H1, H2, H3, H4, H5, H6. reflexivity.
Qed.


(** *** Where a heading can be *)

(** The pattern of a heading matches only at the start of a line, on a
    hash sign followed by white space. *)
Lemma heading_at (st m : state) :
  run heading_re st Some = Some m ->
  (prev st = None \/ prev st = Some newline)
  /\ exists c post, rest st = String "#" (String c post)
                    /\ is_space c = true.
Proof.
  unfold heading_re, plus. cbn [seqs]. rewrite run_seq.
  intros H. cbn [run] in H.
  assert (Hp : (prev st = None \/ prev st = Some newline)
               /\ run (Cls (Ascii.eqb "#")) st
                    (fun st' => run space st'
                       (fun st'' => run (Star true space) st''
                          (fun st3 => run (Seq (Grp 1 (Seq dot (Star true dot)))
                                               (Eol true)) st3 Some)))
                  = Some m).
  { destruct (prev st) as [c |].
    - cbn [andb] in H. destruct (Ascii.eqb c newline) eqn:Ec;
        [| discriminate].
      apply Ascii.eqb_eq in Ec. rewrite Ec.
      split; [now right | exact H].
    - split; [now left | exact H]. }
  destruct Hp as [Hprev Hrun]. split; [exact Hprev |]. clear H.
  cbn [run] in Hrun.
  destruct (rest st) as [| h s]; [discriminate |].
  destruct (Ascii.eqb_spec "#" h) as [<- | _]; [| discriminate].
  unfold space in Hrun. cbn [run rest] in Hrun.
  destruct s as [| c post]; [discriminate Hrun |].
  destruct (is_space c) eqn:Hc; [| discriminate Hrun].
  now exists c, post.
Qed.

Lemma search_from_found (r : re) :
  forall (n : nat) (st m : state),
    search_from r n st = Some m ->
    exists mid st',
      rest st = (mid ++ rest st')%string
      /\ prev st' = prev_after (prev st) mid
      /\ run r st' Some = Some m.
Proof.
  induction n as [| n IH]; intros st m H; cbn [search_from] in H.
  - destruct (run r st Some) as [y |] eqn:E; [| discriminate].
    injection H as ->. now exists EmptyString, st.
  - destruct (run r st Some) as [y |] eqn:E.
    + injection H as ->. now exists EmptyString, st.
    + unfold advance in H. destruct (rest st) as [| c s] eqn:Hr;
        [discriminate |].
      destruct (IH _ _ H) as (mid & st' & Hrest & Hprev & Hrun).
      exists (String c mid), st'. cbn [rest prev] in Hrest, Hprev.
      split; [now rewrite Hrest | split; [exact Hprev | exact Hrun]].
Qed.

Lemma prev_after_newline (mid : string) :
  forall p, prev_after p mid = Some newline ->
    (mid = EmptyString /\ p = Some newline)
    \/ exists q, mid = (q ++ nl)%string.
Proof.
  induction mid as [| c r IH]; intros p H; cbn [prev_after] in H.
  - now left.
  - right. destruct (IH _ H) as [[-> [= ->]] | [q ->]].
    + now exists EmptyString.
    + now exists (String c q).
Qed.

Lemma prev_after_none (mid : string) :
  forall p, prev_after p mid = None -> mid = EmptyString /\ p = None.
Proof.
  induction mid as [| c r IH]; intros p H; [now split |].
  cbn [prev_after] in H. apply IH in H. destruct H as [_ H].
  discriminate H.
Qed.

Lemma line_start_prev (mid : string) :
  prev_after None mid = None \/ prev_after None mid = Some newline ->
  line_start mid.
Proof.
  intros [H | H].
  - left. exact (proj1 (prev_after_none _ _ H)).
  - destruct (prev_after_newline _ _ H) as [[_ [=]] | Hq]. now right.
Qed.

Lemma line_start_app (pre mid : string) :
  line_start pre -> line_start mid -> line_start (pre ++ mid).
Proof.
  intros Hp [-> | [q ->]].
  - now rewrite str_app_nil_r.
  - right. exists (pre ++ q)%string. now rewrite str_app_assoc.
Qed.

(** The frontmatter pattern ends on a line break. *)
Lemma skip_frontmatter_end (st m : state) :
  run skip_frontmatter_re st Some = Some m ->
  prev m = Some newline
  /\ exists pre, rest st = (pre ++ nl ++ rest m)%string.
Proof.
  unfold skip_frontmatter_re. cbn [seqs]. intros H.
  do 8 (apply run_seq_reaches in H;
        let st1 := fresh "st" in let Hr := fresh "Hr" in
        destruct H as (st1 & Hr & H)).
  assert (Hall : reaches st st7).
  { repeat (eapply reaches_trans; [eassumption |]). apply reaches_refl. }
  unfold chr in H. cbn [run] in H.
  destruct (rest st7) as [| c s] eqn:E; [discriminate |].
  destruct (Ascii.eqb_spec newline c) as [<- | _]; [| discriminate].
  injection H as <-. cbn [prev rest]. split; [reflexivity |].
  destruct Hall as [pre Hpre]. exists pre. now rewrite Hpre, E.
Qed.

(** Removing the frontmatter removes whole lines from the start. *)
Lemma frontmatter_removed (content : string) :
  exists pre,
    content = (pre ++ re_sub_empty skip_frontmatter_re content)%string
    /\ line_start pre.
Proof.
  unfold re_sub_empty. cbn [sub_from].
  assert (Hsame :
    match rest (start content) with
    | String c s =>
        String c (sub_from skip_frontmatter_re (String.length content)
                    (mkState (Some c) (S (pos (start content))) s []))
    | EmptyString => EmptyString
    end = content).
  { cbn [rest start]. destruct content as [| c s]; [reflexivity |].
    now rewrite (sub_from_anchored _ _ c). }
  destruct (run skip_frontmatter_re (start content) Some) as [m |] eqn:E.
  - destruct (progress (start content) m).
    + destruct (skip_frontmatter_end _ _ E) as (Hprev & pre & Hrest).
      rewrite (sub_from_anchored _ _ newline) by exact Hprev.
      cbn [rest start] in *. exists (pre ++ nl)%string. split.
      * now rewrite Hrest, str_app_assoc.
      * right. now exists pre.
    + exists EmptyString. rewrite Hsame. split; [reflexivity | now left].
  - exists EmptyString. rewrite Hsame. split; [reflexivity | now left].
Qed.

(** A heading is found only at a line of the content that starts with a
    hash sign followed by white space. *)
Lemma heading_marker_exists (content t : string) :
  extract_title_from_heading content = Some t ->
  exists pre c post,
    content = (pre ++ String "#" (String c post))%string
    /\ is_space c = true
    /\ line_start pre.
Proof.
  unfold extract_title_from_heading. intros H.
  destruct (frontmatter_removed content) as (pre & Hcontent & Hpre).
  set (body := re_sub_empty skip_frontmatter_re content) in *.
  destruct (re_search heading_re body) as [m |] eqn:E; [| discriminate].
  clear H. unfold re_search in E.
  destruct (search_from_found _ _ _ _ E) as (mid & st' & Hrest & Hprev & Hrun).
  destruct (heading_at _ _ Hrun) as (Hline & c & post & Hhash & Hc).
  cbn [rest prev start] in Hrest, Hprev. rewrite Hprev in Hline.
  exists (pre ++ mid)%string, c, post. split; [| split].
  - rewrite Hcontent at 1. now rewrite Hrest, Hhash, str_app_assoc.
  - exact Hc.
  - apply line_start_app; [exact Hpre | now apply line_start_prev].
Qed.

(** *** Where a heading is found *)
















(** *** The policy of the frontmatter parser *)

(** C5, as stated, fails: a [- item] line that contains a colon is read
    as a key and a value, whatever the key added last holds: nothing is
    appended to the list, and the items after it are lost as well. *)
Lemma dash_item_with_colon_is_a_key :
  dict_last [("tags", VList [])] = Some ("tags", VList [])
  /\ startswith "- " "- http://example.com" = true
  /\ parse_line [("tags", VList [])] "- http://example.com"
     = [("tags", VList []); ("- http", VStr "//example.com")]
  /\ parse_frontmatter
       (block ("tags:" ++ nl ++ "- http://example.com" ++ nl ++ "- b"))
     = [("tags", VList []); ("- http", VStr "//example.com")].
Proof. repeat split; vm_compute; reflexivity. Qed.

(** C5, amended: the policy of [parse_frontmatter] for the lines of a
    block, which it reads one after the other.  On a [key: value] line a
    value between double quotes, and after that one between single
    quotes, loses its quotes; [true] and [false] in any case are
    booleans; an empty value is an empty list; a key that is new is from
    then on the last key.  A [- item] line without a colon appends the
    item to the list of the key added last; with a colon it is a
    [key: value] line like any other. *)
Theorem frontmatter_line_policy (frontmatter : dict) (raw : string) :
  let line := strip raw in
  (is_empty line = false ->
   startswith_char "#" line = false ->
   contains_char ":" line = true ->
   let key := strip (fst (split1 ":" line)) in
   let value := strip (snd (split1 ":" line)) in
   parse_line frontmatter raw = dict_set key (parse_value value) frontmatter
   /\ (startswith_char dquote value = true ->
       endswith_char dquote value = true ->
       dict_get key (parse_line frontmatter raw)
       = Some (VStr (slice_1_m1 value)))
   /\ (startswith_char squote value = true ->
       endswith_char squote value = true ->
       dict_get key (parse_line frontmatter raw)
       = Some (VStr (slice_1_m1 value)))
   /\ (forall b : bool,
         lower value = (if b then "true" else "false") ->
         dict_get key (parse_line frontmatter raw) = Some (VBool b))
   /\ (value = "" ->
       dict_get key (parse_line frontmatter raw) = Some (VList []))
   /\ (dict_mem key frontmatter = false ->
       dict_last (parse_line frontmatter raw) = Some (key, parse_value value)))
  /\ (startswith "- " line = true ->
      contains_char ":" line = false ->
      forall last_key items,
        dict_last frontmatter = Some (last_key, VList items) ->
        parse_line frontmatter raw =
          dict_set last_key
            (VList (items ++ [VStr (strip_quotes (strip (slice_2 line)))]))
            frontmatter)
  /\ (forall body remainder,
        block_body body = true ->
        parse_frontmatter (block body ++ remainder)
        = fold_left parse_line (split newline body) []).
Proof.
  intros line. split.
  - intros H1 H2 H3 key value.
    pose proof (parse_line_key_value frontmatter raw H1 H2 H3) as E.
    fold line in E. fold key value in E. rewrite E.
    split; [reflexivity |].
    rewrite dict_get_set_same.
    repeat split.
    + intros Hs He. now rewrite parse_value_double_quoted.
    + intros Hs He. now rewrite parse_value_single_quoted.
    + intros b Hb. now rewrite (parse_value_boolean value b Hb).
    + intros ->. reflexivity.
    + apply dict_last_set_new.
  - split.
    + intros Hdash Hcolon last_key items Hlast.
      now apply parse_line_item.
    + intros body remainder Hbody. now apply parse_frontmatter_block.
Qed.

Lemma frontmatter_line_policy_witness :
  parse_line [("title", VStr "t")] "  draft: TRUE "
  = [("title", VStr "t"); ("draft", VBool true)]
  /\ parse_line [("title", VStr "t"); ("tags", VList [VStr "a"])] "  - 'b'"
  = [("title", VStr "t"); ("tags", VList [VStr "a"; VStr "b"])]
  /\ parse_frontmatter policy_text
  = [("title", VStr "'Quoted'"); ("author", VStr "Ann");
     ("draft", VBool true); ("public", VBool false);
     ("tags", VList [VStr "rocq"; VStr "python"])].
Proof.
  split; [| split].
  - exact (proj1 (proj1 (frontmatter_line_policy [("title", VStr "t")]
                           "  draft: TRUE ") eq_refl eq_refl eq_refl)).
  - exact (proj1 (proj2 (frontmatter_line_policy
                    [("title", VStr "t"); ("tags", VList [VStr "a"])]
                    "  - 'b'")) eq_refl eq_refl "tags" [VStr "a"] eq_refl).
  - exact (proj2 (proj2 (frontmatter_line_policy [] ""))
             ("title: " ++ quoted "'Quoted'" ++ nl
              ++ "author: 'Ann'" ++ nl
              ++ "draft: TRUE" ++ nl
              ++ "public: False" ++ nl
              ++ "tags:" ++ nl
              ++ "  - rocq" ++ nl
              ++ "  - 'python'") "" eq_refl).
Defined.

(** *** Title and modification time of a markdown entry *)





Lemma try_formats_first_timestamp (mk : Z -> option Z) (s : string)
    (fmts : list re) :
  try_formats mk s fmts = first_timestamp mk (map (strptime s) fmts).
Proof.
  induction fmts as [| fmt fmts IH]; [reflexivity |].
  cbn [try_formats map first_timestamp].
  destruct (strptime s fmt) as [dt |]; [| exact IH].
  destruct (timestamp mk dt); [reflexivity | exact IH].
Qed.

(** The loop returns the timestamp of the first format that converts the
    text. *)
Lemma try_formats_first (mk : Z -> option Z) (s : string) (fmts : list re) :
  forall (i : nat) (fmt : re) (t : Z),
    nth_error fmts i = Some fmt ->
    converts mk s fmt = Some t ->
    (forall j fmt', (j < i)%nat -> nth_error fmts j = Some fmt' ->
                    converts mk s fmt' = None) ->
    try_formats mk s fmts = VInt t.
Proof.
  induction fmts as [| f fmts IH]; intros i fmt t Hi Hc Hbefore.
  - destruct i; discriminate Hi.
  - destruct i as [| i].
    + injection Hi as ->. cbn [try_formats]. unfold converts in Hc.
      destruct (strptime s fmt) as [dt |]; [| discriminate Hc].
      now rewrite Hc.
    + cbn [try_formats].
      pose proof (Hbefore O f (Nat.lt_0_succ i) eq_refl) as H0.
      unfold converts in H0.
      assert (Hrest : try_formats mk s fmts = VInt t).
      { apply (IH i fmt t Hi Hc). intros j fmt' Hj Hn.
        apply (Hbefore (S j) fmt'); [lia | exact Hn]. }
      destruct (strptime s f) as [dt |]; [| exact Hrest].
      now rewrite H0.
Qed.

Lemma try_formats_none_converts (mk : Z -> option Z) (s : string)
    (fmts : list re) :
  (forall fmt, In fmt fmts -> converts mk s fmt = None) ->
  try_formats mk s fmts = VNone.
Proof.
  induction fmts as [| f fmts IH]; intros H; [reflexivity |].
  cbn [try_formats].
  pose proof (H f (or_introl eq_refl)) as H0. unfold converts in H0.
  assert (Hrest : try_formats mk s fmts = VNone)
    by (apply IH; intros fmt Hin; apply H; now right).
  destruct (strptime s f) as [dt |]; [| exact Hrest].
  now rewrite H0.
Qed.

(** The frontmatter of a block with one line that gives a date. *)
Lemma modified_line (value remainder : string) :
  block_body ("modified: " ++ value) = true ->
  contains_char newline value = false ->
  parse_frontmatter (block ("modified: " ++ value) ++ remainder)
  = parse_line [] ("modified: " ++ value).
Proof.
  intros Hbody Hnl. rewrite parse_frontmatter_block by exact Hbody.
  rewrite split_without_separator; [reflexivity |].
  rewrite contains_char_append, Hnl. reflexivity.
Qed.

Lemma markdown_modified (w : world) (p : path) (size : Z) (content : string)
    (k : pyobj) :
  eligible p = true ->
  is_markdown p = true ->
  fs w p = File size (ReadText content) ->
  load_keys_file w p = Ok k ->
  truthy k = false ->
  forall m,
    get_git_modified_time (git_log w (abs_str p)) = Ok m ->
    field "modified" (process_file w p)
    = Some (match dict_get "modified" (parse_frontmatter content) with
            | Some v => parse_date_to_timestamp (mktime w) v
            | None => m
            end).
Proof.
  intros Hel Hmd Hnode Hkeys Hfalsy m Hm.
  rewrite (process_file_markdown w p size (ReadText content) k m)
    by assumption.
  cbn [field]. apply apply_frontmatter_modified.
Qed.

Ltac date_example :=
  match goal with
  | |- context [block (?line) ++ ?remainder] =>
      change (block line) with (block ("modified: " ++ tail (tail (tail
        (tail (tail (tail (tail (tail (tail (tail line)))))))))));
      rewrite modified_line by reflexivity
  end.

(** C6: the [modified] key of the frontmatter, converted by
    [parse_date_to_timestamp], replaces the timestamp of the query,
    whatever that was.  The conversion passes an integer through; on a
    text it returns the timestamp of the first of the three formats that
    converts it, and null when none does.  The dates [2024-01-15],
    [2024-01-15T10:30:00] and [2024/03/15] are converted, each by its
    format, to the timestamp of that wall-clock time in the local time
    zone; [2024-02-30] is no date; [0001-01-01] is one, and gives null
    where the time zone leaves it no timestamp. *)
Theorem frontmatter_modified_overrides (w : world) (p : path) (size : Z)
    (content : string) (k v : pyobj) :
  eligible p = true ->
  is_markdown p = true ->
  fs w p = File size (ReadText content) ->
  load_keys_file w p = Ok k ->
  truthy k = false ->
  git_log w (abs_str p) <> SpawnFailed ->
  dict_get "modified" (parse_frontmatter content) = Some v ->
  field "modified" (process_file w p)
    = Some (parse_date_to_timestamp (mktime w) v)
  /\ (forall n, parse_date_to_timestamp (mktime w) (VInt n) = VInt n)
  /\ (forall s i fmt t,
        v = VStr s ->
        nth_error formats i = Some fmt ->
        converts (mktime w) s fmt = Some t ->
        (forall j fmt', (j < i)%nat -> nth_error formats j = Some fmt' ->
                        converts (mktime w) s fmt' = None) ->
        field "modified" (process_file w p) = Some (VInt t))
  /\ (forall s,
        v = VStr s ->
        (forall fmt, In fmt formats -> converts (mktime w) s fmt = None) ->
        field "modified" (process_file w p) = Some VNone)
  /\ (forall remainder,
        content = block "modified: 2024-01-15" ++ remainder ->
        field "modified" (process_file w p)
        = Some (timestamp_or_null (mktime w 1705276800)))
  /\ (forall remainder,
        content = block "modified: 2024-01-15T10:30:00" ++ remainder ->
        field "modified" (process_file w p)
        = Some (timestamp_or_null (mktime w 1705314600)))
  /\ (forall remainder,
        content = block "modified: 2024/03/15" ++ remainder ->
        field "modified" (process_file w p)
        = Some (timestamp_or_null (mktime w 1710460800)))
  /\ (forall remainder,
        content = block "modified: 2024-02-30" ++ remainder ->
        field "modified" (process_file w p) = Some VNone)
  /\ (forall remainder,
        content = block "modified: 0001-01-01" ++ remainder ->
        field "modified" (process_file w p)
        = Some (timestamp_or_null (mktime w (-62135596800)))).
Proof.
  intros Hel Hmd Hnode Hkeys Hfalsy Hgit Hmod.
  destruct (get_git_modified_time_started _ Hgit) as [m Hm].
  rewrite (markdown_modified w p size content k Hel Hmd Hnode Hkeys Hfalsy
             m Hm).
  split; [now rewrite Hmod |].
  split; [reflexivity |].
  split; [| split].
  - intros s i fmt t -> Hi Hc Hbefore. rewrite Hmod.
    cbn [parse_date_to_timestamp].
    now rewrite (try_formats_first (mktime w) s formats i fmt t).
  - intros s -> Hnone. rewrite Hmod. cbn [parse_date_to_timestamp].
    now rewrite try_formats_none_converts.
  - clear Hmod. repeat split; intros remainder ->; date_example;
      cbn [parse_line]; vm_compute parse_line;
      cbn [dict_get String.eqb Ascii.eqb Bool.eqb];
      cbn [parse_date_to_timestamp];
      rewrite try_formats_first_timestamp.
    + change (map (strptime "2024-01-15") formats)
        with [Some (mkDatetime 2024 1 15 0 0 0); None; None].
      cbn [first_timestamp]. unfold timestamp.
      change (wall_seconds (mkDatetime 2024 1 15 0 0 0)) with 1705276800.
      now destruct (mktime w 1705276800).
    + change (map (strptime "2024-01-15T10:30:00") formats)
        with [None; Some (mkDatetime 2024 1 15 10 30 0); None].
      cbn [first_timestamp]. unfold timestamp.
      change (wall_seconds (mkDatetime 2024 1 15 10 30 0)) with 1705314600.
      now destruct (mktime w 1705314600).
    + change (map (strptime "2024/03/15") formats)
        with [None; None; Some (mkDatetime 2024 3 15 0 0 0)].
      cbn [first_timestamp]. unfold timestamp.
      change (wall_seconds (mkDatetime 2024 3 15 0 0 0)) with 1710460800.
      now destruct (mktime w 1710460800).
    + change (map (strptime "2024-02-30") formats)
        with ([None; None; None] : list (option datetime)).
      reflexivity.
    + change (map (strptime "0001-01-01") formats)
        with [Some (mkDatetime 1 1 1 0 0 0); None; None].
      cbn [first_timestamp]. unfold timestamp.
      change (wall_seconds (mkDatetime 1 1 1 0 0 0)) with (-62135596800).
      now destruct (mktime w (-62135596800)).
Qed.

Lemma frontmatter_modified_overrides_witness :
  get_git_modified_time (git_log world_dates (abs_str ["day.md"]))
    = Ok (VInt 1700000000)
  /\ field "modified" (process_file world_dates ["day.md"])
    = Some (VInt 1705276800)
  /\ field "modified" (process_file world_dates ["time.md"])
    = Some (VInt 1705314600)
  /\ field "modified" (process_file world_dates ["slash.md"])
    = Some (VInt 1710460800).
Proof.
  split; [reflexivity |].
  split; [| split].
  - refine (proj1 (frontmatter_modified_overrides world_dates ["day.md"] 38
                     dated_text VNone (VStr "2024-01-15")
                     eq_refl eq_refl eq_refl eq_refl eq_refl _ eq_refl)).
    discriminate.
  - refine (proj1 (proj2 (proj2 (proj2 (proj2 (proj2
      (frontmatter_modified_overrides world_dates ["time.md"] 47
         (block "modified: 2024-01-15T10:30:00" ++ "Body") VNone
         (VStr "2024-01-15T10:30:00")
         eq_refl eq_refl eq_refl eq_refl eq_refl _ eq_refl))))))
      "Body" eq_refl).
    discriminate.
  - refine (proj1 (proj2 (proj2 (proj2 (proj2 (proj2 (proj2
      (frontmatter_modified_overrides world_dates ["slash.md"] 38
         (block "modified: 2024/03/15" ++ "Body") VNone
         (VStr "2024/03/15")
         eq_refl eq_refl eq_refl eq_refl eq_refl _ eq_refl)))))))
      "Body" eq_refl).
    discriminate.
Defined.

(** *** The order of the walk *)

Lemma ascii_compare_eq (a b : ascii) : Ascii.compare a b = Eq <-> a = b.
Proof.
  split; [apply Ascii.compare_eq_iff | intros <-; apply ascii_compare_refl].
Qed.

Lemma ascii_compare_trans (x y z : ascii) (c : comparison) :
  Ascii.compare x y = c -> Ascii.compare y z = c -> Ascii.compare x z = c.
Proof.
  unfold Ascii.compare. destruct c; intros H1 H2.
  - apply N.compare_eq_iff in H1. apply N.compare_eq_iff in H2.
    apply N.compare_eq_iff. congruence.
  - apply N.compare_lt_iff in H1. apply N.compare_lt_iff in H2.
    apply N.compare_lt_iff. now apply N.lt_trans with (N_of_ascii y).
  - apply N.compare_gt_iff in H1. apply N.compare_gt_iff in H2.
    apply N.compare_gt_iff. now apply N.lt_trans with (N_of_ascii y).
Qed.

(** The order of strings is the lexicographic order of their characters. *)
Lemma string_compare_as_list (a b : string) :
  String.compare a b
  = list_compare Ascii.compare (list_ascii_of_string a) (list_ascii_of_string b).
Proof.
  revert b. induction a as [| x a IH]; intros [| y b]; simpl; try reflexivity.
  destruct (Ascii.compare x y); [apply IH | reflexivity | reflexivity].
Qed.

Lemma string_compare_trans (x y z : string) (c : comparison) :
  String.compare x y = c -> String.compare y z = c -> String.compare x z = c.
Proof.
  rewrite !string_compare_as_list.
  apply (list_compare_trans Ascii.compare ascii_compare_eq).
  - apply ascii_compare_trans.
  - intros a b. apply Ascii.compare_antisym.
Qed.

Lemma string_compare_opp (x y : string) :
  String.compare y x = CompOpp (String.compare x y).
Proof. apply String.compare_antisym. Qed.

Lemma path_compare_opp (a b : path) :
  path_compare b a = CompOpp (path_compare a b).
Proof.
  apply (list_compare_antisym String.compare string_compare_eq).
  apply string_compare_opp.
Qed.

Lemma path_compare_trans (a b c : path) (r : comparison) :
  path_compare a b = r -> path_compare b c = r -> path_compare a c = r.
Proof.
  apply (list_compare_trans String.compare string_compare_eq).
  - apply string_compare_trans.
  - apply string_compare_opp.
Qed.

Lemma path_compare_eq (a b : path) : path_compare a b = Eq <-> a = b.
Proof. apply (list_compare_refl String.compare string_compare_eq). Qed.

Lemma path_le_total (a b : path) : path_le a b = true \/ path_le b a = true.
Proof.
  unfold path_le. rewrite (path_compare_opp a b).
  destruct (path_compare a b); simpl; auto.
Qed.

Lemma path_le_antisym (a b : path) :
  path_le a b = true -> path_le b a = true -> a = b.
Proof.
  unfold path_le. rewrite (path_compare_opp a b).
  destruct (path_compare a b) eqn:E; simpl; try discriminate.
  intros _ _. now apply path_compare_eq.
Qed.

Lemma path_le_trans (a b c : path) :
  path_le a b = true -> path_le b c = true -> path_le a c = true.
Proof.
  unfold path_le.
  destruct (path_compare a b) eqn:E1; try discriminate;
    destruct (path_compare b c) eqn:E2; try discriminate; intros _ _.
  - apply path_compare_eq in E1, E2. subst.
    now rewrite (proj2 (path_compare_eq c c) eq_refl).
  - apply path_compare_eq in E1. subst. now rewrite E2.
  - apply path_compare_eq in E2. subst. now rewrite E1.
  - now rewrite (path_compare_trans a b c Lt E1 E2).
Qed.

Lemma path_le_false (a b : path) : path_le a b = false -> path_le b a = true.
Proof.
  intros H. destruct (path_le_total a b) as [H' | H']; congruence.
Qed.

Lemma insert_perm (x : path) (l : list path) : Permutation (insert x l) (x :: l).
Proof.
  induction l as [| y l IH]; simpl; [reflexivity |].
  destruct (path_le x y); [reflexivity |].
  rewrite IH. apply perm_swap.
Qed.

Lemma sorted_perm (l : list path) : Permutation (sorted l) l.
Proof.
  induction l as [| x l IH]; simpl; [reflexivity |].
  rewrite insert_perm. now apply perm_skip.
Qed.

Lemma sorted_In (l : list path) (p : path) : In p (sorted l) <-> In p l.
Proof.
  split; apply Permutation_in;
    [apply sorted_perm | symmetry; apply sorted_perm].
Qed.

(** Two insertions commute. *)
Lemma insert_insert (x y : path) (l : list path) :
  insert x (insert y l) = insert y (insert x l).
Proof.
  induction l as [| z l IH]; simpl.
  - destruct (path_le x y) eqn:Exy, (path_le y x) eqn:Eyx; try reflexivity.
    + now rewrite (path_le_antisym x y Exy Eyx).
    + apply path_le_false in Exy. congruence.
  - destruct (path_le y z) eqn:Eyz, (path_le x z) eqn:Exz; simpl;
      rewrite ?Eyz, ?Exz.
    + destruct (path_le x y) eqn:Exy, (path_le y x) eqn:Eyx; try reflexivity.
      * now rewrite (path_le_antisym x y Exy Eyx).
      * apply path_le_false in Exy. congruence.
    + destruct (path_le x y) eqn:Exy; [| reflexivity].
      now rewrite (path_le_trans x y z Exy Eyz) in Exz.
    + destruct (path_le y x) eqn:Eyx; [| reflexivity].
      now rewrite (path_le_trans y x z Eyx Exz) in Eyz.
    + now rewrite IH.
Qed.

(** The sorted walk does not depend on the order in which the directory
    tree is enumerated. *)
Lemma sorted_permutation (l1 l2 : list path) :
  Permutation l1 l2 -> sorted l1 = sorted l2.
Proof.
  induction 1 as [| x l l' _ IH | x y l | l l' l'' _ IH1 _ IH2]; simpl.
  - reflexivity.
  - now rewrite IH.
  - apply insert_insert.
  - congruence.
Qed.

(** *** Directory entries *)

Lemma process_directory_meta_some (w : world) (dir_path : path) (e : dict) :
  process_directory_meta w dir_path = Ok (Some e) ->
  exists d,
    has_descriptor w dir_path d
    /\ e = [("path", VStr (if String.eqb (rel_str dir_path) "." then ""
                           else rel_str dir_path));
            ("title",
             dict_get_default "title"
               (VStr (if negb (is_empty (if String.eqb (rel_str dir_path) "."
                                         then "" else rel_str dir_path))
                      then name dir_path else "Home")) d);
            ("tags", dict_get_default "tags" (VList []) d);
            ("description", dict_get_default "description" VNone d);
            ("icon", dict_get_default "icon" VNone d);
            ("thumbnail", dict_get_default "thumbnail" VNone d)].
Proof.
  unfold process_directory_meta, load_directory_meta, load_json, has_descriptor.
  destruct (fs w (dir_path ++ [".meta.json"])%list) as [| n | n [s | |]];
    simpl; try discriminate.
  destruct (json_loads w s) as [[meta |] | x] eqn:E; simpl;
    try discriminate.
  destruct (truthy meta) eqn:T; simpl; [| discriminate].
  destruct meta as [| | | | | | d]; try discriminate.
  intros [= <-]. exists d. split; [| reflexivity].
  exists n, s. repeat split; try assumption.
  intros ->. discriminate T.
Qed.

Lemma process_directory_meta_descriptor (w : world) (dir_path : path)
    (d : dict) :
  has_descriptor w dir_path d ->
  exists e, process_directory_meta w dir_path = Ok (Some e).
Proof.
  intros (n & s & Hnode & Hjson & Hne).
  unfold process_directory_meta, load_directory_meta, load_json.
  rewrite Hnode, Hjson. cbn [bind].
  destruct d as [| kv d]; [contradiction |]. cbn [truthy negb].
  eauto.
Qed.

(** What a loop of [main] collects. *)
Lemma collect_In (select : path -> bool) (process : path -> result (option dict))
    (l : list path) (acc : list pyobj) :
  collect select process l = Ok acc ->
  forall x,
    In x acc <->
    exists p e, In p l /\ select p = true /\ process p = Ok (Some e)
                /\ e <> [] /\ x = VDict e.
Proof.
  revert acc. induction l as [| p l IH]; intros acc; cbn [collect].
  - intros [= <-] x. split; [intros [] | intros (p & e & [] & _)].
  - destruct (select p) eqn:Hsel.
    + destruct (process p) as [entry |] eqn:Hp; [| discriminate]. cbn [bind].
      destruct (collect select process l) as [acc' |]; [| discriminate].
      cbn [bind]. intros [= <-] x. specialize (IH acc' eq_refl x).
      destruct entry as [[| kv e] |]; cbn [truthy].
      * rewrite IH. split; intros (q & e' & Hin & Hs & Hq & Hne & ->).
        -- exists q, e'. split; [now right | repeat split; auto].
        -- destruct Hin as [<- | Hin].
           ++ rewrite Hp in Hq. injection Hq as <-. contradiction.
           ++ exists q, e'. repeat split; auto.
      * cbn [In]. rewrite IH. split.
        -- intros [<- | (q & e' & Hin & Hs & Hq & Hne & ->)].
           ++ exists p, (kv :: e). split; [now left | repeat split; auto; discriminate].
           ++ exists q, e'. split; [now right | repeat split; auto].
        -- intros (q & e' & [<- | Hin] & Hs & Hq & Hne & ->).
           ++ rewrite Hp in Hq. injection Hq as <-. now left.
           ++ right. exists q, e'. repeat split; auto.
      * rewrite IH. split; intros (q & e' & Hin & Hs & Hq & Hne & ->).
        -- exists q, e'. split; [now right | repeat split; auto].
        -- destruct Hin as [<- | Hin].
           ++ rewrite Hp in Hq. discriminate.
           ++ exists q, e'. repeat split; auto.
    + intros H x. rewrite (IH acc H x).
      split; intros (q & e' & Hin & Hs & Hq & Hne & ->).
      * exists q, e'. split; [now right | repeat split; auto].
      * destruct Hin as [<- | Hin]; [congruence |].
        exists q, e'. repeat split; auto.
Qed.

Lemma entries_directories (files directories : list pyobj) :
  entries "directories"
    (VDict [("files", VList files); ("directories", VList directories)])
  = directories.
Proof. reflexivity. Qed.

Lemma build_manifest_directories (w : world) (manifest : pyobj) :
  build_manifest w = Ok (Some manifest) ->
  forall x,
    In x (entries "directories" manifest) <->
    exists dir_path e,
      (dir_path = [] \/ (In dir_path (rglob w) /\ is_dir w dir_path = true))
      /\ process_directory_meta w dir_path = Ok (Some e)
      /\ x = VDict e.
Proof.
  unfold build_manifest.
  destruct (exists_ w []); [| discriminate]. cbn [negb].
  destruct (collect _ (process_file w) _) as [files |]; [| discriminate].
  cbn [bind].
  destruct (collect (is_dir w) _ _) as [dirs |] eqn:Hdirs; [| discriminate].
  cbn [bind].
  destruct (process_directory_meta w []) as [root_entry |] eqn:Hroot;
    [| discriminate].
  cbn [bind]. intros [= <-] x. rewrite entries_directories.
  pose proof (collect_In _ _ _ _ Hdirs) as Hin.
  assert (Hwalk : In x dirs <->
            exists dir_path e,
              (In dir_path (rglob w) /\ is_dir w dir_path = true)
              /\ process_directory_meta w dir_path = Ok (Some e)
              /\ x = VDict e).
  { rewrite Hin. split.
    - intros (p & e & Hp & Hs & He & _ & ->).
      exists p, e. rewrite sorted_In in Hp. auto.
    - intros (p & e & (Hp & Hs) & He & ->).
      exists p, e. rewrite sorted_In. repeat split; auto.
      destruct (process_directory_meta_some _ _ _ He) as (d & _ & ->).
      discriminate. }
  destruct root_entry as [e0 |].
  - assert (He0 : truthy (VDict e0) = true).
    { destruct (process_directory_meta_some _ _ _ Hroot) as (d & _ & ->).
      reflexivity. }
    cbn [truthy] in He0. rewrite He0, in_app_iff, Hwalk. cbn [In]. split.
    + intros [(p & e & Hp & He & ->) | [<- | []]].
      * exists p, e. auto.
      * exists [], e0. auto.
    + intros (p & e & [-> | Hp] & He & ->).
      * right. left. rewrite Hroot in He. now injection He as <-.
      * left. exists p, e. auto.
  - rewrite Hwalk. split.
    + intros (p & e & Hp & He & ->). exists p, e. auto.
    + intros (p & e & [-> | Hp] & He & ->).
      * rewrite Hroot in He. discriminate.
      * exists p, e. auto.
Qed.

(** C8: a directory gets an entry exactly when its descriptor file exists
    and decodes to a non-empty object; the directories of the manifest are
    these entries, for the directories of the walk and for the root, and
    no others; the entry of the root has the empty path and the title
    [Home] unless the descriptor has a title.  The manifest is there
    whenever the content root exists and no entry raises. *)
Theorem directory_entry_iff_descriptor (w : world) (dir_path : path) :
  ((exists e, process_directory_meta w dir_path = Ok (Some e))
   <-> (exists d, has_descriptor w dir_path d))
  /\ (forall manifest,
        build_manifest w = Ok (Some manifest) ->
        dir_path = [] \/ (In dir_path (rglob w) /\ is_dir w dir_path = true) ->
        ((exists e, In (VDict e) (entries "directories" manifest)
                    /\ process_directory_meta w dir_path = Ok (Some e))
         <-> (exists d, has_descriptor w dir_path d)))
  /\ (forall manifest x,
        build_manifest w = Ok (Some manifest) ->
        In x (entries "directories" manifest) ->
        exists dir e d,
          (dir = [] \/ (In dir (rglob w) /\ is_dir w dir = true))
          /\ x = VDict e
          /\ process_directory_meta w dir = Ok (Some e)
          /\ has_descriptor w dir d)
  /\ (forall e d,
        process_directory_meta w [] = Ok (Some e) ->
        has_descriptor w [] d ->
        dict_get "path" e = Some (VStr "")
        /\ dict_get "title" e
           = Some (dict_get_default "title" (VStr "Home") d))
  /\ (forall r,
        exists_ w [] = true ->
        build_manifest w = Ok r ->
        exists manifest, r = Some manifest).
Proof.
  assert (Hiff : (exists e, process_directory_meta w dir_path = Ok (Some e))
                 <-> (exists d, has_descriptor w dir_path d)).
  { split.
    - intros [e He].
      destruct (process_directory_meta_some _ _ _ He) as (d & Hd & _).
      now exists d.
    - intros [d Hd]. now apply process_directory_meta_descriptor with d. }
  split; [exact Hiff | split; [| split; [| split]]].
  - intros manifest Hm Hdir. rewrite <- Hiff. split.
    + intros (e & _ & He). now exists e.
    + intros [e He]. exists e. split; [| exact He].
      apply (build_manifest_directories w manifest Hm).
      exists dir_path, e. auto.
  - intros manifest x Hm Hx.
    apply (build_manifest_directories w manifest Hm) in Hx.
    destruct Hx as (dir & e & Hdir & He & ->).
    destruct (process_directory_meta_some _ _ _ He) as (d & Hd & _).
    exists dir, e, d. auto.
  - intros e d He (n & s & Hnode & Hjson & Hne).
    destruct (process_directory_meta_some _ _ _ He)
      as (d' & (n' & s' & Hnode' & Hjson' & _) & ->).
    rewrite Hnode in Hnode'. injection Hnode' as <- <-.
    rewrite Hjson in Hjson'. injection Hjson' as <-.
    split; reflexivity.
  - intros r Hroot Hr. unfold build_manifest in Hr. rewrite Hroot in Hr.
    cbn [negb] in Hr.
    destruct (collect _ (process_file w) _) as [files |]; [| discriminate Hr].
    cbn [bind] in Hr.
    destruct (collect _ (process_directory_meta w) _) as [dirs |];
      [| discriminate Hr].
    cbn [bind] in Hr.
    destruct (process_directory_meta w []) as [root |]; [| discriminate Hr].
    cbn [bind] in Hr. injection Hr as <-. eauto.
Qed.

Lemma directory_entry_iff_descriptor_witness :
  exists manifest,
    build_manifest world_dirs = Ok (Some manifest)
    /\ entries "directories" manifest
       = [VDict [("path", VStr "docs"); ("title", VStr "Documentation");
                 ("tags", VList [VStr "docs"]); ("description", VNone);
                 ("icon", VNone); ("thumbnail", VNone)];
          VDict [("path", VStr ""); ("title", VStr "Home");
                 ("tags", VList []); ("description", VStr "Start here");
                 ("icon", VNone); ("thumbnail", VNone)]]
    /\ (exists e, In (VDict e) (entries "directories" manifest)
                  /\ process_directory_meta world_dirs ["docs"] = Ok (Some e))
    /\ ~ (exists e, In (VDict e) (entries "directories" manifest)
                    /\ process_directory_meta world_dirs ["drafts"]
                       = Ok (Some e))
    /\ field "path" (process_directory_meta world_dirs []) = Some (VStr "")
    /\ field "title" (process_directory_meta world_dirs [])
       = Some (VStr "Home").
Proof.
  destruct (build_manifest world_dirs) as [[manifest |] | x] eqn:Hm;
    try (vm_compute in Hm; discriminate Hm).
  exists manifest. split; [reflexivity |].
  split; [vm_compute in Hm; injection Hm as <-; reflexivity |].
  split; [| split].
  - apply (proj1 (proj2 (directory_entry_iff_descriptor world_dirs ["docs"]))
             manifest Hm).
    + right. split; [vm_compute; tauto | reflexivity].
    + exists [("title", VStr "Documentation"); ("tags", VList [VStr "docs"])].
      exists 30, "{docs}". repeat split. discriminate.
  - intros H.
    apply (proj1 (proj2 (directory_entry_iff_descriptor world_dirs ["drafts"]))
             manifest Hm) in H.
    + destruct H as (d & n & s & Hnode & _). discriminate Hnode.
    + right. split; [vm_compute; tauto | reflexivity].
  - destruct (process_directory_meta world_dirs []) as [[e |] |] eqn:E;
      try (vm_compute in E; discriminate E).
    apply (proj1 (proj2 (proj2 (proj2
             (directory_entry_iff_descriptor world_dirs []))))
             e [("description", VStr "Start here")] E).
    exists 20, "{root}". repeat split. discriminate.
Defined.

(** *** Determinism *)

Lemma process_file_relist (w : world) (l : list path) (p : path) :
  process_file (relist w l) p = process_file w p.
Proof. reflexivity. Qed.

Lemma process_directory_meta_relist (w : world) (l : list path) (p : path) :
  process_directory_meta (relist w l) p = process_directory_meta w p.
Proof. reflexivity. Qed.

Lemma collect_ext (select select' : path -> bool)
    (process process' : path -> result (option dict)) (l : list path) :
  (forall p, select p = select' p) ->
  (forall p, process p = process' p) ->
  collect select process l = collect select' process' l.
Proof.
  intros Hs Hp. induction l as [| p l IH]; cbn [collect]; [reflexivity |].
  now rewrite Hs, Hp, IH.
Qed.

Lemma build_manifest_relist (w : world) (l : list path) :
  Permutation (rglob w) l -> build_manifest (relist w l) = build_manifest w.
Proof.
  intros Hperm. unfold build_manifest.
  change (rglob (relist w l)) with l.
  rewrite <- (sorted_permutation _ _ Hperm).
  change (exists_ (relist w l) []) with (exists_ w []).
  rewrite (collect_ext _
             (fun filepath =>
                (is_file w filepath
                 && negb (String.eqb (name filepath) ".meta.json"))%bool)
             _ (process_file w) (sorted (rglob w)))
    by reflexivity.
  rewrite (collect_ext (is_dir (relist w l)) (is_dir w)
             _ (process_directory_meta w) (sorted (rglob w)))
    by reflexivity.
  rewrite process_directory_meta_relist. reflexivity.
Qed.

(** C9, as stated, fails: with the same tree and the same history the
    output changes with the local time zone of the run, because a date of
    the frontmatter is read as local time. *)
Lemma time_zone_changes_output :
  fs (in_time_zone world_plain (fun z => Some (z - 32400))) = fs world_plain
  /\ git_log (in_time_zone world_plain (fun z => Some (z - 32400)))
     = git_log world_plain
  /\ json_loads (in_time_zone world_plain (fun z => Some (z - 32400)))
     = json_loads world_plain
  /\ float_repr (in_time_zone world_plain (fun z => Some (z - 32400)))
     = float_repr world_plain
  /\ rglob (in_time_zone world_plain (fun z => Some (z - 32400)))
     = rglob world_plain
  /\ main (in_time_zone world_plain (fun z => Some (z - 32400)))
     <> main world_plain.
Proof.
  repeat split. intros H. vm_compute in H. discriminate H.
Qed.

(** C9, amended: two runs over the same tree with the same history, in
    the same time zone and with the same decoder and printing of
    numbers, write the same bytes, in whatever order the directory tree
    is enumerated: the walk is sorted before it is used, and every entry
    and the serialization are functions of these surroundings. *)
Theorem runs_are_deterministic (w1 w2 : world) :
  fs w1 = fs w2 ->
  git_log w1 = git_log w2 ->
  json_loads w1 = json_loads w2 ->
  mktime w1 = mktime w2 ->
  float_repr w1 = float_repr w2 ->
  Permutation (rglob w1) (rglob w2) ->
  main w1 = main w2.
Proof.
  destruct w1 as [fs1 git1 json1 mk1 repr1 l1].
  destruct w2 as [fs2 git2 json2 mk2 repr2 l2].
  cbn [fs git_log json_loads mktime float_repr rglob].
  intros <- <- <- <- <- Hperm.
  set (w := mkWorld fs1 git1 json1 mk1 repr1 l1).
  change (mkWorld fs1 git1 json1 mk1 repr1 l2) with (relist w l2).
  unfold main. now rewrite (build_manifest_relist w l2 Hperm).
Qed.

Lemma runs_are_deterministic_witness :
  main world_dirs = main (relist world_dirs (List.rev (rglob world_dirs))).
Proof.
  apply runs_are_deterministic; try reflexivity. apply Permutation_rev.
Defined.

(** *** Extensions in upper case *)

Lemma lower_char_idempotent (c : ascii) :
  lower_char (lower_char c) = lower_char c.
Proof. destruct c as [[] [] [] [] [] [] [] []]; reflexivity. Qed.

Lemma lower_idempotent (s : string) : lower (lower s) = lower s.
Proof.
  induction s as [| c s IH]; simpl; [reflexivity |].
  now rewrite lower_char_idempotent, IH.
Qed.

(** Lowercasing neither makes nor removes a dot or a slash. *)
Lemma lower_char_dot (c : ascii) :
  Ascii.eqb "." (lower_char c) = Ascii.eqb "." c.
Proof. destruct c as [[] [] [] [] [] [] [] []]; reflexivity. Qed.

Lemma lower_char_slash (c : ascii) :
  Ascii.eqb "/" (lower_char c) = Ascii.eqb "/" c.
Proof. destruct c as [[] [] [] [] [] [] [] []]; reflexivity. Qed.

Lemma contains_dot_lower (s : string) :
  contains_char "." (lower s) = contains_char "." s.
Proof.
  induction s as [| c s IH]; cbn [lower contains_char]; [reflexivity |].
  now rewrite lower_char_dot, IH.
Qed.

Lemma lower_is_empty (s : string) : is_empty (lower s) = is_empty s.
Proof. now destruct s. Qed.

Lemma append_is_empty (a b : string) :
  is_empty (a ++ b) = (is_empty a && is_empty b)%bool.
Proof. now destruct a. Qed.

(** The suffix and the stem of a name, from its last dot. *)
Lemma suffix_stem_cases (n : string) :
  (suffix n = "" /\ stem n = n)
  \/ (exists before after,
        n = before ++ String "." after
        /\ contains_char "." after = false
        /\ is_empty before = false /\ is_empty after = false
        /\ suffix n = String "." after /\ stem n = before).
Proof.
  unfold suffix, stem.
  destruct (rsplit_dot n) as [[before after] |] eqn:E; [| now left].
  destruct (is_empty before) eqn:Hb; [now left |].
  destruct (is_empty after) eqn:Ha; [now left |].
  right. exists before, after.
  destruct (rsplit_dot_some _ _ _ E) as [-> Hdot]. cbn [orb].
  repeat split; auto.
Qed.

Lemma suffix_stem_of_parts (before after : string) :
  contains_char "." after = false ->
  is_empty before = false -> is_empty after = false ->
  suffix (before ++ String "." after) = String "." after
  /\ stem (before ++ String "." after) = before.
Proof.
  intros Hdot Hb Ha. unfold suffix, stem.
  rewrite (rsplit_dot_append _ _ Hdot), Hb, Ha. now split.
Qed.

(** The counterpart of a name has the lowercased suffix and the same
    stem. *)
Lemma lower_ext_suffix_stem (n : string) :
  suffix (lower_ext n) = lower (suffix n) /\ stem (lower_ext n) = stem n.
Proof.
  unfold lower_ext.
  destruct (suffix_stem_cases n)
    as [[Hs Ht] | (before & after & -> & Hdot & Hb & Ha & Hs & Ht)].
  - rewrite Hs, Ht. cbn [lower]. rewrite str_app_nil_r. now rewrite Hs, Ht.
  - rewrite Hs, Ht. cbn [lower].
    change (lower_char ".") with "."%char.
    apply suffix_stem_of_parts; try assumption.
    + now rewrite contains_dot_lower.
    + now rewrite lower_is_empty.
Qed.

Lemma extension_accepted_lower_ext (n : string) :
  extension_accepted (lower_ext n) = extension_accepted n.
Proof.
  unfold extension_accepted.
  destruct (lower_ext_suffix_stem n) as [-> _].
  now rewrite lower_idempotent.
Qed.

(** *** Hidden components *)

Lemma pieces_hidden_cons (d : ascii) (r : string) :
  pieces_hidden (String d r)
  = if Ascii.eqb "/" d then pieces_hidden r
    else (Ascii.eqb "." d || later_hidden r)%bool.
Proof.
  unfold pieces_hidden, later_hidden. cbn [split].
  destruct (Ascii.eqb "/" d); [reflexivity |].
  destruct (split "/" r); reflexivity.
Qed.

Lemma later_hidden_cons (d : ascii) (r : string) :
  later_hidden (String d r)
  = if Ascii.eqb "/" d then pieces_hidden r else later_hidden r.
Proof.
  unfold pieces_hidden, later_hidden. cbn [split].
  destruct (Ascii.eqb "/" d); [reflexivity |].
  destruct (split "/" r); reflexivity.
Qed.

Lemma hidden_lower (b : string) :
  pieces_hidden (lower b) = pieces_hidden b
  /\ later_hidden (lower b) = later_hidden b.
Proof.
  induction b as [| c b [IH1 IH2]]; [now split |].
  cbn [lower].
  rewrite !pieces_hidden_cons, !later_hidden_cons.
  now rewrite lower_char_slash, lower_char_dot, IH1, IH2.
Qed.

Lemma hidden_lower_tail (a b : string) :
  pieces_hidden (a ++ lower b) = pieces_hidden (a ++ b)
  /\ later_hidden (a ++ lower b) = later_hidden (a ++ b).
Proof.
  induction a as [| c a [IH1 IH2]]; [apply hidden_lower |].
  cbn [append].
  rewrite !pieces_hidden_cons, !later_hidden_cons.
  now rewrite IH1, IH2.
Qed.

Lemma pieces_hidden_lower_ext (n : string) :
  pieces_hidden (lower_ext n) = pieces_hidden n.
Proof.
  unfold lower_ext.
  rewrite (proj1 (hidden_lower_tail (stem n) (suffix n))).
  now rewrite stem_suffix.
Qed.

Lemma split_cons (c : ascii) (s : string) :
  exists p ps, split c s = p :: ps.
Proof.
  induction s as [| d s (p & ps & IH)]; cbn [split]; [eauto |].
  destruct (Ascii.eqb c d); [eauto |]. rewrite IH. eauto.
Qed.

Lemma split_append (c : ascii) (a b : string) :
  split c (a ++ String c b) = (split c a ++ split c b)%list.
Proof.
  induction a as [| d a IH]; cbn [append split].
  - now rewrite Ascii.eqb_refl.
  - destruct (Ascii.eqb c d); [now rewrite IH |].
    rewrite IH. destruct (split_cons c a) as (p & ps & ->). reflexivity.
Qed.

Lemma pieces_hidden_append (a b : string) :
  pieces_hidden (a ++ String "/" b)
  = (pieces_hidden a || pieces_hidden b)%bool.
Proof. unfold pieces_hidden. now rewrite split_append, existsb_app. Qed.

Lemma join_last (sep : string) (l : list string) (x : string) :
  join sep (l ++ [x])%list
  = match l with
    | [] => x
    | _ => join sep l ++ sep ++ x
    end.
Proof.
  induction l as [| a l IH]; [reflexivity |].
  destruct l as [| b l]; [reflexivity |].
  change (join sep ((a :: b :: l) ++ [x])%list)
    with (a ++ sep ++ join sep ((b :: l) ++ [x])%list).
  rewrite IH.
  change (join sep (a :: b :: l)) with (a ++ sep ++ join sep (b :: l)).
  now rewrite !str_app_assoc.
Qed.

Lemma hidden_last (dir : list string) (n : string) :
  hidden (dir ++ [n])%list
  = match dir with
    | [] => pieces_hidden n
    | _ => (pieces_hidden (join "/" dir) || pieces_hidden n)%bool
    end.
Proof.
  unfold hidden, rel_str.
  replace (match (dir ++ [n])%list with
           | [] => "."
           | _ :: _ => join "/" (dir ++ [n])%list
           end) with (join "/" (dir ++ [n])%list) by now destruct dir.
  rewrite join_last.
  destruct dir as [| a dir]; [reflexivity |].
  apply pieces_hidden_append.
Qed.

Lemma hidden_counterpart (p : path) :
  p <> [] -> hidden (counterpart p) = hidden p.
Proof.
  intros Hp. unfold counterpart.
  rewrite <- (name_removelast p Hp) at 3.
  rewrite !hidden_last, pieces_hidden_lower_ext. reflexivity.
Qed.

(** *** The counterpart of a path *)

Lemma name_counterpart (p : path) : name (counterpart p) = lower_ext (name p).
Proof. unfold counterpart, name. apply last_last. Qed.

Lemma removelast_counterpart (p : path) :
  removelast (counterpart p) = removelast p.
Proof. unfold counterpart. apply removelast_last. Qed.

Lemma stem_counterpart (p : path) :
  stem (name (counterpart p)) = stem (name p).
Proof. rewrite name_counterpart. apply lower_ext_suffix_stem. Qed.

Lemma lower_suffix_counterpart (p : path) :
  lower (suffix (name (counterpart p))) = lower (suffix (name p)).
Proof.
  rewrite name_counterpart.
  destruct (lower_ext_suffix_stem (name p)) as [-> _].
  apply lower_idempotent.
Qed.

Lemma eligible_counterpart (p : path) :
  p <> [] -> eligible (counterpart p) = eligible p.
Proof.
  intros Hp. unfold eligible.
  now rewrite lower_suffix_counterpart, hidden_counterpart.
Qed.

Lemma is_markdown_counterpart (p : path) :
  is_markdown (counterpart p) = is_markdown p.
Proof. unfold is_markdown. now rewrite lower_suffix_counterpart. Qed.

(** The metadata steps leave the first field, the path, alone. *)
Lemma copy_key_headed (k : string) (only_list : bool) (src x : pyobj)
    (tl : dict) :
  String.eqb "path" k = false ->
  copy_key k only_list src (("path", x) :: tl)
  = res_map (cons ("path", x)) (copy_key k only_list src tl).
Proof.
  intros Hk. unfold copy_key.
  destruct (py_contains k src) as [[|] |]; cbn [bind res_map]; try reflexivity.
  destruct (py_getitem k src) as [v |]; cbn [bind res_map]; [| reflexivity].
  destruct (negb only_list || is_list v)%bool; [| reflexivity].
  cbn [dict_set]. now rewrite Hk.
Qed.

Lemma apply_keys_headed (keys_data x : pyobj) (tl : dict) :
  apply_keys keys_data (("path", x) :: tl)
  = res_map (cons ("path", x)) (apply_keys keys_data tl).
Proof.
  unfold apply_keys.
  rewrite copy_key_headed by reflexivity.
  destruct (copy_key "title" false keys_data tl) as [e1 |];
    cbn [bind res_map]; [| reflexivity].
  rewrite copy_key_headed by reflexivity.
  destruct (copy_key "tags" true keys_data e1) as [e2 |];
    cbn [bind res_map]; [| reflexivity].
  destruct (copy_key "algorithm" false keys_data []) as [enc1 |];
    cbn [bind res_map]; [| reflexivity].
  destruct (copy_key "wrapped_keys" false keys_data enc1) as [enc2 |];
    cbn [bind res_map]; [| reflexivity].
  destruct enc2; reflexivity.
Qed.

Lemma apply_frontmatter_headed (w : world) (content : string) (x : pyobj)
    (tl : dict) :
  apply_frontmatter w content (("path", x) :: tl)
  = ("path", x) :: apply_frontmatter w content tl.
Proof.
  unfold apply_frontmatter.
  destruct (dict_get "title" (parse_frontmatter content)) as [t |];
    [| destruct (extract_title_from_heading content) as [h |];
       [destruct (negb (is_empty h)) |]];
    (destruct (dict_get "tags" (parse_frontmatter content)) as [g |];
     [destruct (is_list g) |]);
    destruct (dict_get "modified" (parse_frontmatter content)) as [m |];
    reflexivity.
Qed.

Lemma default_entry_counterpart (p : path) (size : Z) (m : pyobj) :
  default_entry p size m
  = ("path", VStr (rel_str p)) :: List.tl (default_entry (counterpart p) size m).
Proof. unfold default_entry. cbn [List.tl]. now rewrite stem_counterpart. Qed.

Lemma default_entry_headed (p : path) (size : Z) (m : pyobj) :
  default_entry p size m
  = ("path", VStr (rel_str p)) :: List.tl (default_entry p size m).
Proof. reflexivity. Qed.

Lemma process_file_complete (w : world) (p : path) :
  eligible p = true ->
  process_file w p =
    (size <- stat_size w p ;;
     modified <- get_git_modified_time (git_log w (abs_str p)) ;;
     keys_data <- load_keys_file w p ;;
     complete_entry w (is_markdown p) keys_data (read_text w p)
       (default_entry p size modified)).
Proof. intros H. now rewrite (process_file_eligible w p H). Qed.

Lemma complete_entry_headed (w : world) (markdown : bool)
    (keys_data : pyobj) (r : read_outcome) (x : pyobj) (tl : dict) :
  complete_entry w markdown keys_data r (("path", x) :: tl)
  = res_map (option_map (cons ("path", x)))
      (complete_entry w markdown keys_data r tl).
Proof.
  unfold complete_entry.
  destruct (truthy keys_data).
  - rewrite apply_keys_headed.
    now destruct (apply_keys keys_data tl).
  - destruct markdown; [| reflexivity].
    destruct r; [| reflexivity | reflexivity].
    cbn [res_map option_map]. now rewrite apply_frontmatter_headed.
Qed.

Lemma process_file_counterpart (w : world) (p : path) :
  p <> [] ->
  fs w (counterpart p) = fs w p ->
  fs w (keys_path (counterpart p)) = fs w (keys_path p) ->
  git_log w (abs_str (counterpart p)) = git_log w (abs_str p) ->
  process_file w p = with_path (rel_str p) (process_file w (counterpart p)).
Proof.
  intros Hp Hfs Hkeys Hgit.
  destruct (eligible p) eqn:El.
  - rewrite (process_file_complete w p El).
    rewrite (process_file_complete w (counterpart p))
      by now rewrite eligible_counterpart.
    unfold stat_size, read_text, load_keys_file, load_json.
    rewrite Hfs, Hkeys, Hgit, is_markdown_counterpart.
    destruct (fs w p) as [| n | n r]; cbn [bind with_path];
      try reflexivity;
      (destruct (get_git_modified_time _) as [m |]; cbn [bind with_path];
       [| reflexivity]);
      (destruct (match fs w (keys_path p) with
                 | File _ (ReadText s) => json_loads w s
                 | File _ ReadDecodeError => Raise UnicodeDecodeError
                 | _ => Ok None
                 end) as [keys_data |]; cbn [bind with_path];
       [| reflexivity]);
      rewrite (default_entry_counterpart p n m);
      rewrite (default_entry_headed (counterpart p) n m) at 2;
      rewrite !complete_entry_headed;
      destruct (complete_entry w _ _ _ _) as [[e |] |]; reflexivity.
  - rewrite (process_file_not_eligible w p El).
    rewrite (process_file_not_eligible w (counterpart p))
      by now rewrite eligible_counterpart.
    reflexivity.
Qed.

(** C10: the extension is compared in lower case.  A path is skipped
    exactly when it fails the tests on its lowercased extension (or is
    hidden); in particular when the extension lowercases to [.keys] or is
    not in the allowed set.  A name with an extension in upper or mixed
    case passes the tests exactly when its lowercase counterpart does, is
    a markdown file exactly when the counterpart is, and gets the entry of
    the counterpart, the path apart, when the two files and their sidecar
    files and histories are alike. *)
Theorem extension_case_insensitive (w : world) (p : path) :
  (process_file w p = Ok None <-> eligible p = false)
  /\ (lower (suffix (name p)) = ".keys" -> process_file w p = Ok None)
  /\ (str_in (lower (suffix (name p))) EXTENSIONS = false ->
      process_file w p = Ok None)
  /\ suffix (name (counterpart p)) = lower (suffix (name p))
  /\ extension_accepted (name (counterpart p)) = extension_accepted (name p)
  /\ is_markdown (counterpart p) = is_markdown p
  /\ (p <> [] ->
      eligible (counterpart p) = eligible p
      /\ (fs w (counterpart p) = fs w p ->
          fs w (keys_path (counterpart p)) = fs w (keys_path p) ->
          git_log w (abs_str (counterpart p)) = git_log w (abs_str p) ->
          process_file w p
          = with_path (rel_str p) (process_file w (counterpart p)))).
Proof.
  split; [| split; [| split; [| split; [| split; [| split]]]]].
  - split.
    + intros H. destruct (eligible p) eqn:El; [| reflexivity].
      now destruct (process_file_eligible_not_skipped w p El).
    + apply process_file_not_eligible.
  - intros H. apply process_file_not_eligible.
    unfold eligible. now rewrite H.
  - intros H. apply process_file_not_eligible.
    unfold eligible. now rewrite H, andb_false_r.
  - rewrite name_counterpart. apply lower_ext_suffix_stem.
  - rewrite name_counterpart. apply extension_accepted_lower_ext.
  - apply is_markdown_counterpart.
  - intros Hp. split; [now apply eligible_counterpart |].
    now apply process_file_counterpart.
Qed.

Lemma extension_case_insensitive_witness :
  process_file world_upper ["hello.MD"]
  = with_path "hello.MD" (process_file world_upper ["hello.md"])
  /\ process_file world_upper ["secret.KEYS"] = Ok None
  /\ field "title" (process_file world_upper ["hello.MD"])
     = Some (VStr "Hello").
Proof.
  split; [| split].
  - destruct (extension_case_insensitive world_upper ["hello.MD"])
      as (_ & _ & _ & _ & _ & _ & H).
    refine (proj2 (H _) eq_refl eq_refl eq_refl). discriminate.
  - exact (proj1 (proj2 (extension_case_insensitive world_upper
                           ["secret.KEYS"])) eq_refl).
  - reflexivity.
Defined.

(** *** Hidden paths *)

Lemma hidden_components (p : path) :
  p <> [] -> hidden p = existsb pieces_hidden p.
Proof.
  induction p as [| n dir IH] using rev_ind; [congruence |].
  intros _. rewrite hidden_last, existsb_app. cbn [existsb].
  rewrite orb_false_r.
  destruct dir as [| a dir]; [reflexivity |].
  rewrite <- IH by discriminate. reflexivity.
Qed.

Lemma pieces_hidden_dot (c : string) :
  startswith_char "." c = true -> pieces_hidden c = true.
Proof.
  destruct c as [| x r]; [discriminate |].
  cbn [startswith_char]. intros H. apply Ascii.eqb_eq in H. subst x.
  rewrite pieces_hidden_cons. reflexivity.
Qed.

(** A path with a component that starts with a dot gives no entry, and
    nothing of the surroundings is consulted for it. *)
Theorem hidden_component_skipped (w : world) (p : path) (c : string) :
  In c p -> startswith_char "." c = true -> process_file w p = Ok None.
Proof.
  intros Hin Hdot. apply process_file_not_eligible.
  assert (Hp : p <> []) by (intros ->; destruct Hin).
  assert (Hh : hidden p = true).
  { rewrite (hidden_components p Hp). apply existsb_exists.
    exists c. split; [exact Hin | now apply pieces_hidden_dot]. }
  unfold eligible. rewrite Hh. apply andb_false_r.
Qed.

Lemma hidden_component_skipped_witness :
  process_file world_hidden ["notes"; ".private"; "x.md"] = Ok None.
Proof.
  apply (hidden_component_skipped world_hidden
           ["notes"; ".private"; "x.md"] ".private").
  - right. left. reflexivity.
  - reflexivity.
Defined.

(** *** The path of the sidecar file *)

Lemma name_last (dir : list string) (n : string) :
  name (dir ++ [n])%list = n.
Proof. unfold name. apply last_last. Qed.

Lemma suffix_append_keys (n : string) :
  is_empty n = false -> suffix (n ++ ".keys") = ".keys".
Proof.
  intros Hn.
  change (n ++ ".keys") with (n ++ String "." "keys").
  now destruct (suffix_stem_of_parts n "keys" eq_refl Hn eq_refl) as [-> _].
Qed.

Lemma keys_path_name (p : path) :
  keys_path p = (removelast p ++ [(name p ++ ".keys")%string])%list.
Proof.
  unfold keys_path, with_suffix.
  now rewrite <- str_app_assoc, stem_suffix.
Qed.

(** The sidecar file of a file is in the same directory and has the
    name of the file followed by [.keys]: replacing the suffix by the
    suffix and [.keys] appends [.keys]. *)
Theorem keys_path_appends (p : path) :
  keys_path p = (removelast p ++ [(name p ++ ".keys")%string])%list.
Proof. apply keys_path_name. Qed.

(** The sidecar file of a file never gives an entry of its own. *)
Theorem sidecar_file_skipped (w : world) (p : path) :
  is_empty (name p) = false -> process_file w (keys_path p) = Ok None.
Proof.
  intros Hn. apply process_file_not_eligible.
  unfold eligible. rewrite keys_path_name, name_last.
  now rewrite (suffix_append_keys _ Hn).
Qed.

Lemma sidecar_file_skipped_witness :
  process_file world_titled_sidecar (keys_path ["post.md"]) = Ok None.
Proof. now apply sidecar_file_skipped. Defined.

(** *** The shape of a file entry *)

Lemma copy_title_fields (src : pyobj) (rel : string) (t : pyobj) (size : Z)
    (m : pyobj) (g : list pyobj) (e : dict) :
  copy_key "title" false src (file_fields rel t size m g) = Ok e ->
  exists t', e = file_fields rel t' size m g.
Proof.
  unfold copy_key.
  destruct (py_contains "title" src) as [[|] |]; cbn [bind];
    try discriminate.
  - destruct (py_getitem "title" src) as [v |]; cbn [bind];
      [| discriminate].
    intros [= <-]. now exists v.
  - intros [= <-]. now exists t.
Qed.

Lemma copy_tags_fields (src : pyobj) (rel : string) (t : pyobj) (size : Z)
    (m : pyobj) (g : list pyobj) (e : dict) :
  copy_key "tags" true src (file_fields rel t size m g) = Ok e ->
  exists g', e = file_fields rel t size m g'.
Proof.
  unfold copy_key.
  destruct (py_contains "tags" src) as [[|] |]; cbn [bind];
    try discriminate.
  - destruct (py_getitem "tags" src) as [v |]; cbn [bind];
      [| discriminate].
    destruct v; cbn [negb orb is_list]; intros [= <-];
      try (now exists g).
    now exists l.
  - intros [= <-]. now exists g.
Qed.

Lemma apply_keys_fields (keys_data : pyobj) (rel : string) (t : pyobj)
    (size : Z) (m : pyobj) (g : list pyobj) (e : dict) :
  apply_keys keys_data (file_fields rel t size m g) = Ok e ->
  exists t' g' enc,
    e = (file_fields rel t' size m g' ++ enc)%list
    /\ (enc = [] \/ exists x, x <> [] /\ enc = [("encryption", VDict x)]).
Proof.
  unfold apply_keys.
  destruct (copy_key "title" false keys_data _) as [e1 |] eqn:E1;
    cbn [bind]; [| discriminate].
  destruct (copy_title_fields _ _ _ _ _ _ _ E1) as [t' ->].
  destruct (copy_key "tags" true keys_data _) as [e2 |] eqn:E2;
    cbn [bind]; [| discriminate].
  destruct (copy_tags_fields _ _ _ _ _ _ _ E2) as [g' ->].
  destruct (copy_key "algorithm" false keys_data []) as [enc1 |];
    cbn [bind]; [| discriminate].
  destruct (copy_key "wrapped_keys" false keys_data enc1) as [enc2 |];
    cbn [bind]; [| discriminate].
  intros [= <-]. exists t', g'.
  destruct enc2 as [| kv enc2].
  - exists []. split; [now rewrite app_nil_r | now left].
  - exists [("encryption", VDict (kv :: enc2))]. split; [reflexivity |].
    right. exists (kv :: enc2). split; [discriminate | reflexivity].
Qed.

Lemma apply_frontmatter_fields (w : world) (content rel : string)
    (t : pyobj) (size : Z) (m : pyobj) (g : list pyobj) :
  exists t' m' g',
    apply_frontmatter w content (file_fields rel t size m g)
    = file_fields rel t' size m' g'.
Proof.
  unfold apply_frontmatter.
  set (fm := parse_frontmatter content).
  assert (H1 : exists t',
            match dict_get "title" fm with
            | Some x => dict_set "title" x (file_fields rel t size m g)
            | None =>
                match extract_title_from_heading content with
                | Some h =>
                    if negb (is_empty h)
                    then dict_set "title" (VStr h) (file_fields rel t size m g)
                    else file_fields rel t size m g
                | None => file_fields rel t size m g
                end
            end = file_fields rel t' size m g).
  { destruct (dict_get "title" fm) as [x |]; [now exists x |].
    destruct (extract_title_from_heading content) as [h |]; [| now exists t].
    destruct (negb (is_empty h)); [now exists (VStr h) | now exists t]. }
  destruct H1 as [t' ->].
  assert (H2 : exists g',
            match dict_get "tags" fm with
            | Some x =>
                if is_list x
                then dict_set "tags" x (file_fields rel t' size m g)
                else file_fields rel t' size m g
            | None => file_fields rel t' size m g
            end = file_fields rel t' size m g').
  { destruct (dict_get "tags" fm) as [x |]; [| now exists g].
    destruct x; cbn [is_list]; try (now exists g). now exists l. }
  destruct H2 as [g' ->].
  destruct (dict_get "modified" fm) as [x |].
  - now exists t', (parse_date_to_timestamp (mktime w) x), g'.
  - now exists t', m, g'.
Qed.

(** Every entry of a file starts with the fields path, title, size,
    modified and tags, in this order, optionally followed by a non-empty
    encryption block and nothing else.  The path is the relative path of the file and
    the size is the size of the file: no sidecar and no frontmatter
    changes them; the tags are always a list. *)
Theorem file_entry_shape (w : world) (p : path) (e : dict) :
  process_file w p = Ok (Some e) ->
  exists size title modified tags encryption,
    stat_size w p = Ok size
    /\ e = (file_fields (rel_str p) title size modified tags
            ++ encryption)%list
    /\ (encryption = []
        \/ exists x, x <> [] /\ encryption = [("encryption", VDict x)]).
Proof.
  intros H. destruct (eligible p) eqn:El.
  2: { rewrite process_file_not_eligible in H by assumption. discriminate. }
  rewrite (process_file_complete w p El) in H.
  destruct (stat_size w p) as [size |]; [| discriminate]. cbn [bind] in H.
  destruct (get_git_modified_time _) as [m |]; [| discriminate].
  cbn [bind] in H.
  destruct (load_keys_file w p) as [k |]; [| discriminate]. cbn [bind] in H.
  exists size. unfold complete_entry in H.
  change (default_entry p size m)
    with (file_fields (rel_str p) (VStr (stem (name p))) size m []) in H.
  destruct (truthy k).
  - destruct (apply_keys k _) as [e' |] eqn:E; [| discriminate].
    cbn [bind] in H. injection H as <-.
    destruct (apply_keys_fields _ _ _ _ _ _ _ E) as (t' & g' & enc & -> & He).
    now exists t', m, g', enc.
  - destruct (is_markdown p).
    + destruct (read_text w p) as [content | |]; try discriminate.
      * injection H as <-.
        destruct (apply_frontmatter_fields w content (rel_str p)
                    (VStr (stem (name p))) size m [])
          as (t' & m' & g' & ->).
        exists t', m', g', []. rewrite app_nil_r. auto.
      * injection H as <-.
        exists (VStr (stem (name p))), m, [], []. auto.
    + injection H as <-.
      exists (VStr (stem (name p))), m, [], []. auto.
Qed.

Lemma file_entry_shape_witness :
  exists size title modified tags encryption,
    stat_size world_photo ["photo.png"] = Ok size
    /\ [("path", VStr "photo.png"); ("title", VStr "photo");
        ("size", VInt 2048); ("modified", VInt 1700000000);
        ("tags", VList []);
        ("encryption", VDict [("algorithm", VStr "AES-256-GCM")])]
       = (file_fields (rel_str ["photo.png"]) title size modified tags
          ++ encryption)%list
    /\ (encryption = []
        \/ exists x, x <> [] /\ encryption = [("encryption", VDict x)]).
Proof.
  apply (file_entry_shape world_photo ["photo.png"]). reflexivity.
Defined.

(** *** The encryption block *)

Lemma apply_keys_dict_encryption (d : dict) (p : path) (size : Z) (m : pyobj) :
  exists e,
    apply_keys (VDict d) (default_entry p size m) = Ok e
    /\ dict_get "encryption" e
       = match encryption_of d with
         | [] => None
         | enc => Some (VDict enc)
         end.
Proof.
  unfold apply_keys. repeat (rewrite copy_key_dict; cbn [bind]).
  eexists. split; [reflexivity |].
  unfold encryption_of. cbn [negb orb].
  set (e2 := match dict_get "tags" d with
             | Some _ => _ | None => _ end).
  assert (He2 : dict_get "encryption" e2 = None).
  { unfold e2.
    destruct (dict_get "title" d) as [t |], (dict_get "tags" d) as [g |];
      try destruct (is_list g); reflexivity. }
  destruct (dict_get "algorithm" d) as [a |],
           (dict_get "wrapped_keys" d) as [k |];
    cbn [dict_set String.eqb]; try exact He2; apply dict_get_set_same.
Qed.

(** With a sidecar file that decodes to a non-empty object the entry has
    an encryption block exactly when the object has an algorithm or
    wrapped keys, and the block holds just these; without such a sidecar
    a markdown or other file has no encryption block. *)
Theorem encryption_block (w : world) (p : path) (k : pyobj) (e : dict) :
  load_keys_file w p = Ok k ->
  process_file w p = Ok (Some e) ->
  (forall d, k = VDict d -> d <> [] ->
     dict_get "encryption" e
     = match encryption_of d with
       | [] => None
       | enc => Some (VDict enc)
       end)
  /\ (truthy k = false -> dict_get "encryption" e = None).
Proof.
  intros Hkeys H. destruct (eligible p) eqn:El.
  2: { rewrite process_file_not_eligible in H by assumption. discriminate. }
  rewrite (process_file_complete w p El), Hkeys in H.
  destruct (stat_size w p) as [size |]; [| discriminate]. cbn [bind] in H.
  destruct (get_git_modified_time _) as [m |]; [| discriminate].
  cbn [bind] in H. unfold complete_entry in H. split.
  - intros d -> Hd.
    assert (Ht : truthy (VDict d) = true) by (now destruct d).
    rewrite Ht in H.
    destruct (apply_keys_dict_encryption d p size m) as (e' & E & He').
    rewrite E in H. cbn [bind] in H. now injection H as <-.
  - intros Hf. rewrite Hf in H.
    change (default_entry p size m)
      with (file_fields (rel_str p) (VStr (stem (name p))) size m []) in H.
    destruct (is_markdown p).
    + destruct (read_text w p) as [content | |]; try discriminate;
        injection H as <-; [| reflexivity].
      destruct (apply_frontmatter_fields w content (rel_str p)
                  (VStr (stem (name p))) size m [])
        as (t' & m' & g' & ->).
      reflexivity.
    + now injection H as <-.
Qed.

Lemma encryption_block_witness :
  field "encryption" (process_file world_photo ["photo.png"])
  = Some (VDict [("algorithm", VStr "AES-256-GCM")])
  /\ field "encryption" (process_file world_plain ["post.md"]) = None.
Proof.
  split.
  - destruct (process_file world_photo ["photo.png"]) as [[e |] |] eqn:E;
      try (vm_compute in E; discriminate E).
    exact (proj1 (encryption_block world_photo ["photo.png"] _ e
                    eq_refl E) _ eq_refl ltac:(discriminate)).
  - destruct (process_file world_plain ["post.md"]) as [[e |] |] eqn:E;
      try (vm_compute in E; discriminate E).
    exact (proj2 (encryption_block world_plain ["post.md"] VNone e
                    eq_refl E) eq_refl).
Defined.

(** *** Files that are not opened *)

(** A file that is not a markdown file is never opened: its entry does not
    depend on what reading it would give, not even on whether it can be
    read. *)
Theorem other_files_not_read (w : world) (p : path) (r : read_outcome) :
  is_markdown p = false ->
  process_file (set_content w p r) p = process_file w p.
Proof.
  intros Hmd. destruct (eligible p) eqn:Hel.
  - rewrite !(process_file_complete _ p Hel).
    rewrite stat_size_set_content, load_keys_file_set_content, Hmd.
    change (git_log (set_content w p r)) with (git_log w).
    destruct (stat_size w p); [| reflexivity]. cbn [bind].
    destruct (get_git_modified_time _); [| reflexivity]. cbn [bind].
    destruct (load_keys_file w p) as [k |]; [| reflexivity]. cbn [bind].
    unfold complete_entry. destruct (truthy k); reflexivity.
  - now rewrite !process_file_not_eligible.
Qed.

Lemma other_files_not_read_witness :
  process_file (set_content world_photo ["photo.png"] ReadIOError)
    ["photo.png"]
  = process_file world_photo ["photo.png"].
Proof. now apply other_files_not_read. Defined.

(** *** Exceptions *)

Lemma copy_key_raise (k : string) (only_list : bool) (src : pyobj)
    (dst : dict) (x : exn) :
  copy_key k only_list src dst = Raise x -> x = TypeError /\ not_object src.
Proof.
  unfold copy_key, py_contains, py_getitem, dict_mem, not_object.
  destruct src as [| b | n | f | s | l | d]; cbn [bind];
    try (intros [= <-]; split; [reflexivity | discriminate]).
  - destruct (is_substring k s); cbn [bind]; [| discriminate].
    intros [= <-]. split; [reflexivity | discriminate].
  - destruct (existsb (equals_str k) l); cbn [bind]; [| discriminate].
    intros [= <-]. split; [reflexivity | discriminate].
  - destruct (dict_get k d); cbn [bind]; discriminate.
Qed.

Lemma apply_keys_raise (keys_data : pyobj) (entry : dict) (x : exn) :
  apply_keys keys_data entry = Raise x ->
  x = TypeError /\ not_object keys_data.
Proof.
  unfold apply_keys.
  destruct (copy_key "title" false keys_data entry) as [e1 |] eqn:E1;
    cbn [bind]; [| intros [= <-]; now apply copy_key_raise in E1].
  destruct (copy_key "tags" true keys_data e1) as [e2 |] eqn:E2;
    cbn [bind]; [| intros [= <-]; now apply copy_key_raise in E2].
  destruct (copy_key "algorithm" false keys_data []) as [n1 |] eqn:E3;
    cbn [bind]; [| intros [= <-]; now apply copy_key_raise in E3].
  destruct (copy_key "wrapped_keys" false keys_data n1) as [n2 |] eqn:E4;
    cbn [bind]; [| intros [= <-]; now apply copy_key_raise in E4].
  discriminate.
Qed.

Lemma load_json_raise (w : world) (p : path) (x : exn) :
  load_json w p = Raise x ->
  (x = UnicodeDecodeError /\ exists n, fs w p = File n ReadDecodeError)
  \/ (exists n s, fs w p = File n (ReadText s) /\ json_loads w s = Raise x).
Proof.
  unfold load_json.
  destruct (fs w p) as [| n | n [s | |]]; try discriminate.
  - intros H. right. now exists n, s.
  - intros [= <-]. left. eauto.
Qed.

Lemma get_git_modified_time_raise (run : completed) (x : exn) :
  get_git_modified_time run = Raise x ->
  x = FileNotFoundError /\ run = SpawnFailed.
Proof.
  destruct run as [| | rc out]; cbn [get_git_modified_time].
  - intros [= <-]. now split.
  - discriminate.
  - destruct (negb (rc =? 0)); [discriminate |].
    destruct (is_empty (strip out)); [discriminate |].
    destruct (py_int (strip out)); discriminate.
Qed.

(** The exceptions of [process_file], and where each comes from.  What
    the decoder raises on the sidecar file, apart from the decoding error
    that is caught, leaves [process_file] as it is.  Otherwise the
    exception is [FileNotFoundError] (the file has vanished or the [git]
    executable is missing), [UnicodeDecodeError] (the sidecar file or the
    markdown file is not valid text) or [TypeError] (the sidecar file
    decodes to something that counts as true and is not an object).  A
    lookup in the sidecar never fails with [KeyError], and an exception
    from reading the markdown file is only raised when no sidecar takes
    over. *)
Theorem process_file_exceptions (w : world) (p : path) (x : exn) :
  process_file w p = Raise x ->
  (exists n s, fs w (keys_path p) = File n (ReadText s)
               /\ json_loads w s = Raise x)
  \/ (x = FileNotFoundError
      /\ (fs w p = Missing \/ git_log w (abs_str p) = SpawnFailed))
  \/ (x = UnicodeDecodeError
      /\ ((exists n, fs w (keys_path p) = File n ReadDecodeError)
          \/ (is_markdown p = true
              /\ exists n k, fs w p = File n ReadDecodeError
                             /\ load_keys_file w p = Ok k
                             /\ truthy k = false)))
  \/ (x = TypeError
      /\ exists k, load_keys_file w p = Ok k /\ truthy k = true
                   /\ not_object k).
Proof.
  intros H. destruct (eligible p) eqn:El.
  2: { rewrite process_file_not_eligible in H by assumption. discriminate. }
  rewrite (process_file_complete w p El) in H.
  destruct (stat_size w p) as [size |] eqn:Hstat; cbn [bind] in H.
  2: { unfold stat_size in Hstat.
       destruct (fs w p); try discriminate.
       injection Hstat as <-. injection H as <-. right. left. auto. }
  destruct (get_git_modified_time _) as [m |] eqn:Hgit; cbn [bind] in H.
  2: { injection H as <-.
       destruct (get_git_modified_time_raise _ _ Hgit) as [-> ->].
       right. left. auto. }
  destruct (load_keys_file w p) as [k |] eqn:Hkeys; cbn [bind] in H.
  2: { injection H as <-. unfold load_keys_file in Hkeys.
       destruct (load_json w (keys_path p)) as [r |] eqn:E;
         cbn [bind] in Hkeys; [discriminate |].
       injection Hkeys as <-.
       destruct (load_json_raise _ _ _ E) as [[-> Hn] | Hdec].
       - right. right. left. auto.
       - now left. }
  unfold complete_entry in H. destruct (truthy k) eqn:Ht.
  - destruct (apply_keys k _) as [e |] eqn:E; cbn [bind] in H;
      [discriminate |].
    injection H as <-. destruct (apply_keys_raise _ _ _ E) as [-> Hk].
    right. right. right. split; [reflexivity |]. now exists k.
  - destruct (is_markdown p); [| discriminate].
    unfold read_text in H.
    destruct (fs w p) as [| n | n [s | |]] eqn:Hnode; try discriminate.
    injection H as <-. right. right. left. split; [reflexivity |].
    right. split; [reflexivity |]. now exists n, k.
Qed.

Lemma process_file_exceptions_witness :
  (exists k, load_keys_file world_odd ["a.md"] = Ok k /\ truthy k = true
             /\ not_object k)
  /\ (exists n s, fs world_deep (keys_path ["a.md"]) = File n (ReadText s)
                  /\ json_loads world_deep s = Raise RecursionError).
Proof.
  split.
  - destruct (process_file_exceptions world_odd ["a.md"] TypeError eq_refl)
      as [(n & s & _ & H) | [[H _] | [[H _] | [_ H]]]];
      [vm_compute in H | | |]; (discriminate H || exact H).
  - destruct (process_file_exceptions world_deep ["a.md"] RecursionError
                eq_refl)
      as [H | [[H _] | [[H _] | [H _]]]];
      [exact H | discriminate H | discriminate H | discriminate H].
Defined.

(** The exceptions of [process_directory_meta]: what the decoder raises
    on the descriptor file, apart from the decoding error that is caught;
    [UnicodeDecodeError] when the descriptor file is not valid text; and
    [AttributeError] when it decodes to something that counts as true and
    is not an object (which has no method [get]).  A missing, unreadable
    or malformed descriptor raises nothing. *)
Theorem process_directory_meta_exceptions (w : world) (dir_path : path)
    (x : exn) :
  process_directory_meta w dir_path = Raise x <->
  (exists n s,
     fs w (dir_path ++ [".meta.json"])%list = File n (ReadText s)
     /\ json_loads w s = Raise x)
  \/ (x = UnicodeDecodeError
      /\ exists n,
           fs w (dir_path ++ [".meta.json"])%list = File n ReadDecodeError)
  \/ (x = AttributeError
      /\ exists n s v,
           fs w (dir_path ++ [".meta.json"])%list = File n (ReadText s)
           /\ json_loads w s = Ok (Some v)
           /\ truthy v = true /\ not_object v).
Proof.
  unfold process_directory_meta, load_directory_meta, load_json, not_object.
  destruct (fs w (dir_path ++ [".meta.json"])%list) as [| n | n [s | |]];
    cbn [bind truthy negb].
  1, 2, 4: split; [discriminate |];
    intros [(n' & s' & H & _) | [[_ [n' H]] | [_ (n' & s' & v & H & _)]]];
    discriminate H.
  - destruct (json_loads w s) as [[v |] | e] eqn:Hv; cbn [bind truthy negb].
    + destruct (truthy v) eqn:Ht; cbn [negb].
      * destruct v as [| b | z | f | t | l | d];
          try (split;
               [intros [= <-]; right; right; split; [reflexivity |];
                exists n, s; eexists; repeat split;
                [exact Hv | exact Ht | discriminate]
               | intros [(n' & s' & H & Hv')
                        | [[_ [n' H]] | [-> _]]];
                 [injection H as <- <-; rewrite Hv in Hv'; discriminate Hv'
                 | discriminate H | reflexivity]]).
        split; [discriminate |].
        intros [(n' & s' & H & Hv')
               | [[_ [n' H]] | [_ (n' & s' & v & H & Hv' & _ & Hno)]]].
        -- injection H as <- <-. rewrite Hv in Hv'. discriminate Hv'.
        -- discriminate H.
        -- injection H as <- <-. rewrite Hv in Hv'. injection Hv' as <-.
           now destruct (Hno d).
      * split; [discriminate |].
        intros [(n' & s' & H & Hv')
               | [[_ [n' H]] | [_ (n' & s' & v' & H & Hv' & Ht' & _)]]].
        -- injection H as <- <-. rewrite Hv in Hv'. discriminate Hv'.
        -- discriminate H.
        -- injection H as <- <-. rewrite Hv in Hv'. injection Hv' as <-.
           congruence.
    + split; [discriminate |].
      intros [(n' & s' & H & Hv')
             | [[_ [n' H]] | [_ (n' & s' & v' & H & Hv' & _)]]].
      * injection H as <- <-. rewrite Hv in Hv'. discriminate Hv'.
      * discriminate H.
      * injection H as <- <-. rewrite Hv in Hv'. discriminate Hv'.
    + split.
      * intros [= <-]. left. now exists n, s.
      * intros [(n' & s' & H & Hv')
               | [[_ [n' H]] | [_ (n' & s' & v' & H & Hv' & _)]]].
        -- injection H as <- <-. rewrite Hv in Hv'. now injection Hv' as <-.
        -- discriminate H.
        -- injection H as <- <-. rewrite Hv in Hv'. discriminate Hv'.
  - split.
    + intros [= <-]. right. left. eauto.
    + intros [(n' & s' & H & _)
             | [[-> _] | [_ (n' & s' & v & H & _)]]];
        [discriminate H | reflexivity | discriminate H].
Qed.

Lemma process_directory_meta_exceptions_witness :
  process_directory_meta world_odd ["docs"] = Raise AttributeError
  /\ process_directory_meta world_deep ["docs"] = Raise RecursionError.
Proof.
  split.
  - apply process_directory_meta_exceptions. right. right.
    split; [reflexivity |].
    exists 9, "[1]", (VList [VInt 1]). repeat split. discriminate.
  - apply process_directory_meta_exceptions. left.
    exists 9, "[1]". split; reflexivity.
Defined.

(** *** What [main] writes *)

Lemma collect_entry_list (select : path -> bool)
    (process : path -> result (option dict)) (l : list path)
    (acc : list pyobj) :
  (forall p e, process p = Ok (Some e) -> e <> []) ->
  collect select process l = Ok acc ->
  acc = entry_list process (filter select l).
Proof.
  intros Hne. revert acc.
  induction l as [| p l IH]; intros acc; cbn [collect filter].
  - now intros [= <-].
  - destruct (select p).
    + destruct (process p) as [entry |] eqn:Hp; cbn [bind]; [| discriminate].
      destruct (collect select process l) as [acc' |]; cbn [bind];
        [| discriminate].
      intros [= <-]. unfold entry_list. cbn [flat_map]. rewrite Hp.
      fold (entry_list process (filter select l)).
      rewrite <- (IH acc' eq_refl).
      destruct entry as [[| kv e] |]; [| reflexivity | reflexivity].
      now destruct (Hne p [] Hp).
    + apply IH.
Qed.

Lemma collect_raise (select : path -> bool)
    (process : path -> result (option dict)) (l : list path) (p : path)
    (x : exn) :
  In p l -> select p = true -> process p = Raise x ->
  exists x', collect select process l = Raise x'.
Proof.
  intros Hin Hs Hp. induction l as [| q l IH]; [destruct Hin |].
  cbn [collect]. destruct Hin as [-> | Hin].
  - rewrite Hs, Hp. cbn [bind]. eauto.
  - destruct (select q); [| now apply IH].
    destruct (process q) as [entry |]; cbn [bind]; [| eauto].
    destruct (IH Hin) as [x' ->]. cbn [bind]. eauto.
Qed.

Lemma process_file_entry_nonempty (w : world) (p : path) (e : dict) :
  process_file w p = Ok (Some e) -> e <> [].
Proof.
  intros H. destruct (eligible p) eqn:El.
  2: { rewrite process_file_not_eligible in H by assumption. discriminate. }
  rewrite (process_file_complete w p El) in H.
  destruct (stat_size w p) as [size |]; [| discriminate]. cbn [bind] in H.
  destruct (get_git_modified_time _) as [m |]; [| discriminate].
  cbn [bind] in H.
  destruct (load_keys_file w p) as [k |]; [| discriminate]. cbn [bind] in H.
  unfold complete_entry in H.
  change (default_entry p size m)
    with (file_fields (rel_str p) (VStr (stem (name p))) size m []) in H.
  destruct (truthy k).
  - destruct (apply_keys k _) as [e' |] eqn:E; [| discriminate].
    cbn [bind] in H. injection H as <-.
    destruct (apply_keys_fields _ _ _ _ _ _ _ E) as (t' & g' & enc & -> & _).
    discriminate.
  - destruct (is_markdown p).
    + destruct (read_text w p) as [content | |]; try discriminate;
        injection H as <-; [| discriminate].
      destruct (apply_frontmatter_fields w content (rel_str p)
                  (VStr (stem (name p))) size m [])
        as (t' & m' & g' & ->).
      discriminate.
    + injection H as <-. discriminate.
Qed.

Lemma process_directory_meta_entry_nonempty (w : world) (p : path)
    (e : dict) :
  process_directory_meta w p = Ok (Some e) -> e <> [].
Proof.
  intros H. destruct (process_directory_meta_some _ _ _ H) as (d & _ & ->).
  discriminate.
Qed.

(** A descriptor file is no candidate for an entry, with or without the
    test on its name in [main]: it is hidden. *)
Lemma process_file_descriptor (w : world) (p : path) :
  String.eqb (name p) ".meta.json" = true -> process_file w p = Ok None.
Proof.
  intros H. apply String.eqb_eq in H.
  destruct p as [| a p]; [discriminate H |].
  apply process_file_not_eligible.
  assert (Hh : hidden (a :: p) = true).
  { rewrite hidden_components by discriminate. apply existsb_exists.
    exists ".meta.json". split; [| reflexivity].
    rewrite <- H. unfold name.
    destruct (exists_last (l := a :: p)) as (dir & n & E); [discriminate |].
    rewrite E, last_last. apply in_or_app. right. now left. }
  unfold eligible. rewrite Hh. apply andb_false_r.
Qed.

Lemma entry_list_files (w : world) (l : list path) :
  entry_list (process_file w)
    (filter (fun filepath =>
               (is_file w filepath
                && negb (String.eqb (name filepath) ".meta.json"))%bool) l)
  = entry_list (process_file w) (filter (is_file w) l).
Proof.
  induction l as [| p l IH]; [reflexivity |]. cbn [filter].
  destruct (is_file w p); cbn [andb]; [| exact IH].
  destruct (String.eqb (name p) ".meta.json") eqn:E; cbn [negb].
  - unfold entry_list at 2. cbn [flat_map].
    now rewrite (process_file_descriptor w p E).
  - unfold entry_list. cbn [flat_map]. f_equal. exact IH.
Qed.

Lemma entry_list_app (process : path -> result (option dict))
    (a b : list path) :
  entry_list process (a ++ b)
  = (entry_list process a ++ entry_list process b)%list.
Proof. unfold entry_list. apply flat_map_app. Qed.

Lemma entry_list_single (process : path -> result (option dict)) (p : path)
    (r : option dict) :
  process p = Ok r ->
  entry_list process [p] = match r with Some e => [VDict e] | None => [] end.
Proof.
  intros H. unfold entry_list. cbn [flat_map]. rewrite H, app_nil_r.
  reflexivity.
Qed.

Lemma build_manifest_contents (w : world) (manifest : pyobj) :
  build_manifest w = Ok (Some manifest) ->
  manifest =
    VDict
      [("files",
        VList (entry_list (process_file w)
                 (filter (is_file w) (sorted (rglob w)))));
       ("directories",
        VList (entry_list (process_directory_meta w)
                 (filter (is_dir w) (sorted (rglob w)) ++ [([] : path)])))].
Proof.
  unfold build_manifest.
  destruct (exists_ w []); [| discriminate]. cbn [negb].
  destruct (collect _ (process_file w) _) as [files |] eqn:Hf;
    [| discriminate].
  cbn [bind].
  destruct (collect (is_dir w) _ _) as [dirs |] eqn:Hd; [| discriminate].
  cbn [bind].
  destruct (process_directory_meta w []) as [root_entry |] eqn:Hroot;
    [| discriminate].
  cbn [bind]. intros [= <-].
  apply collect_entry_list in Hf;
    [| apply process_file_entry_nonempty].
  apply collect_entry_list in Hd;
    [| apply process_directory_meta_entry_nonempty].
  rewrite entry_list_files in Hf. subst files dirs.
  rewrite entry_list_app, (entry_list_single _ _ _ Hroot).
  destruct root_entry as [e0 |]; [| now rewrite app_nil_r].
  assert (He0 : truthy (VDict e0) = true).
  { pose proof (process_directory_meta_entry_nonempty _ _ _ Hroot).
    now destruct e0. }
  cbn [truthy] in He0. now rewrite He0.
Qed.

(** When [main] writes a manifest, its files are the entries of the files
    of the sorted walk, in that order, and its directories are the
    entries of the directories of the sorted walk, in that order,
    followed by the entry of the root.  The test on the name of a
    descriptor file changes nothing: such a file is hidden. *)
Theorem manifest_contents (w : world) (manifest : pyobj) :
  build_manifest w = Ok (Some manifest) ->
  entries "files" manifest
  = entry_list (process_file w) (filter (is_file w) (sorted (rglob w)))
  /\ entries "directories" manifest
     = (entry_list (process_directory_meta w)
          (filter (is_dir w) (sorted (rglob w)))
        ++ entry_list (process_directory_meta w) [([] : path)])%list.
Proof.
  intros H. rewrite (build_manifest_contents w manifest H).
  split; [reflexivity |].
  rewrite entries_directories. apply entry_list_app.
Qed.

Lemma manifest_contents_witness :
  exists manifest,
    build_manifest world_dirs = Ok (Some manifest)
    /\ entries "files" manifest
       = entry_list (process_file world_dirs)
           [["docs"; "guide.md"]; ["drafts"; "idea.md"]]
    /\ entries "directories" manifest
       = (entry_list (process_directory_meta world_dirs)
            [["docs"]; ["drafts"]]
          ++ entry_list (process_directory_meta world_dirs) [([] : path)])%list.
Proof.
  destruct (build_manifest world_dirs) as [[manifest |] |] eqn:E;
    try (vm_compute in E; discriminate E).
  exists manifest. split; [reflexivity |].
  exact (manifest_contents world_dirs manifest E).
Defined.

(** Without the content directory nothing is written and nothing is
    raised, whatever else the surroundings hold; with it, the run either
    writes a manifest or ends in an exception. *)
Theorem missing_root_writes_nothing (w : world) :
  (exists_ w [] = false -> main w = Ok None)
  /\ (main w = Ok None -> exists_ w [] = false).
Proof.
  unfold main, build_manifest. split.
  - intros ->. reflexivity.
  - destruct (exists_ w []); [| reflexivity]. cbn [negb].
    destruct (collect _ (process_file w) _); cbn [bind]; [| discriminate].
    destruct (collect (is_dir w) _ _); cbn [bind]; [| discriminate].
    destruct (process_directory_meta w []); cbn [bind]; discriminate.
Qed.

Lemma missing_root_writes_nothing_witness :
  main (world_of [(["a.md"], File 1 (ReadText "x"))] [] []) = Ok None.
Proof.
  apply (proj1 (missing_root_writes_nothing
                  (world_of [(["a.md"], File 1 (ReadText "x"))] [] []))).
  reflexivity.
Defined.

(** One file or one directory whose processing raises an exception ends
    the whole run: no manifest is written, also not for the files that
    were processed without error. *)
Theorem one_failure_aborts (w : world) (p : path) (x : exn) :
  exists_ w [] = true ->
  In p (rglob w) ->
  (is_file w p = true /\ process_file w p = Raise x)
  \/ (is_dir w p = true /\ process_directory_meta w p = Raise x) ->
  exists x', main w = Raise x'.
Proof.
  intros Hroot Hin Hfail. unfold main, build_manifest. rewrite Hroot.
  cbn [negb]. apply sorted_In in Hin.
  destruct Hfail as [[Hf Hx] | [Hd Hx]].
  - destruct (collect_raise
                (fun filepath =>
                   (is_file w filepath
                    && negb (String.eqb (name filepath) ".meta.json"))%bool)
                (process_file w) (sorted (rglob w)) p x Hin) as [x' ->];
      [| exact Hx | cbn [bind]; eauto].
    rewrite Hf. cbn [andb].
    destruct (String.eqb (name p) ".meta.json") eqn:E; [| reflexivity].
    rewrite (process_file_descriptor w p E) in Hx. discriminate.
  - destruct (collect _ (process_file w) _); cbn [bind]; [| eauto].
    destruct (collect_raise (is_dir w) (process_directory_meta w)
                (sorted (rglob w)) p x Hin Hd Hx) as [x' ->].
    cbn [bind]. eauto.
Qed.

Lemma one_failure_aborts_witness : exists x', main world_odd = Raise x'.
Proof.
  apply (one_failure_aborts world_odd ["a.md"] TypeError).
  - reflexivity.
  - left. reflexivity.
  - left. split; reflexivity.
Defined.

(** *** The fields of a directory entry *)

(** The entry of a directory other than the root: the title falls back to
    the name of the directory, the tags to the empty list, the
    description, icon and thumbnail to null.  What the descriptor holds
    under these keys is taken as it is (the tags need not be a list, a
    null title stays null), and its other keys are dropped. *)
Theorem directory_entry_fields (w : world) (dir_path : path) (d : dict) :
  has_descriptor w dir_path d ->
  rel_str dir_path <> "." ->
  rel_str dir_path <> "" ->
  process_directory_meta w dir_path =
    Ok (Some
      [("path", VStr (rel_str dir_path));
       ("title", dict_get_default "title" (VStr (name dir_path)) d);
       ("tags", dict_get_default "tags" (VList []) d);
       ("description", dict_get_default "description" VNone d);
       ("icon", dict_get_default "icon" VNone d);
       ("thumbnail", dict_get_default "thumbnail" VNone d)]).
Proof.
  intros (n & s & Hnode & Hjson & Hne) Hdot Hempty.
  unfold process_directory_meta, load_directory_meta, load_json.
  rewrite Hnode, Hjson. cbn [bind].
  destruct d as [| kv d]; [contradiction |]. cbn [truthy negb].
  destruct (String.eqb_spec (rel_str dir_path) "."); [contradiction |].
  destruct (rel_str dir_path) eqn:E; [contradiction |].
  reflexivity.
Qed.

Lemma directory_entry_fields_witness :
  process_directory_meta world_dirs ["docs"] =
    Ok (Some
      [("path", VStr "docs");
       ("title", VStr "Documentation");
       ("tags", VList [VStr "docs"]);
       ("description", VNone);
       ("icon", VNone);
       ("thumbnail", VNone)]).
Proof.
  apply (directory_entry_fields world_dirs ["docs"]
           [("title", VStr "Documentation"); ("tags", VList [VStr "docs"])]).
  - exists 30, "{docs}". repeat split. discriminate.
  - discriminate.
  - discriminate.
Defined.

(** *** What the frontmatter parser builds *)

Lemma parse_value_shape (value : string) :
  frontmatter_value (parse_value value) = true.
Proof.
  unfold parse_value.
  destruct (startswith_char "[" value && endswith_char "]" value)%bool.
  - cbn [frontmatter_value].
    induction (filter _ _) as [| x l IH]; [reflexivity | exact IH].
  - repeat match goal with
           | |- context [if ?b then _ else _] => destruct b
           end; reflexivity.
Qed.

Lemma dict_set_values_ok (k : string) (v : pyobj) (d : dict) :
  frontmatter_value v = true -> values_ok d -> values_ok (dict_set k v d).
Proof.
  intros Hv Hd. induction Hd as [| [k' v'] d Hkv Hd IH]; cbn [dict_set].
  - repeat constructor. exact Hv.
  - destruct (String.eqb k' k); constructor; auto.
Qed.

Lemma dict_last_In (d : dict) (kv : string * pyobj) :
  dict_last d = Some kv -> In kv d.
Proof.
  unfold dict_last. induction d as [| a d IH]; [discriminate |].
  cbn [map last]. destruct d as [| b d].
  - intros [= <-]. now left.
  - intros H. right. apply IH. exact H.
Qed.

Lemma forallb_is_str_app (l : list pyobj) (s : string) :
  forallb is_str l = true -> forallb is_str (l ++ [VStr s]) = true.
Proof. intros H. rewrite forallb_app, H. reflexivity. Qed.

Lemma parse_line_values_ok (d : dict) (raw : string) :
  values_ok d -> values_ok (parse_line d raw).
Proof.
  intros Hd. unfold parse_line.
  destruct (is_empty (strip raw) || startswith_char "#" (strip raw))%bool;
    [exact Hd |].
  destruct (contains_char ":" (strip raw)).
  - destruct (split1 ":" (strip raw)) as [key value].
    apply dict_set_values_ok; [apply parse_value_shape | exact Hd].
  - destruct (startswith "- " (strip raw) && _)%bool; [| exact Hd].
    destruct (dict_last d) as [[last_key v] |] eqn:E; [| exact Hd].
    destruct v; try exact Hd.
    apply dict_set_values_ok; [| exact Hd].
    cbn [frontmatter_value]. apply forallb_is_str_app.
    apply dict_last_In in E.
    unfold values_ok in Hd. rewrite Forall_forall in Hd.
    exact (Hd _ E).
Qed.

Lemma fold_parse_line_values_ok (lines : list string) (d : dict) :
  values_ok d -> values_ok (fold_left parse_line lines d).
Proof.
  revert d. induction lines as [| raw lines IH]; intros d Hd; [exact Hd |].
  cbn [fold_left]. apply IH. now apply parse_line_values_ok.
Qed.

Lemma dict_get_In (k : string) (v : pyobj) (d : dict) :
  dict_get k d = Some v -> In (k, v) d.
Proof.
  induction d as [| [k' v'] d IH]; [discriminate |]. cbn [dict_get].
  destruct (String.eqb_spec k' k) as [-> | _].
  - intros [= <-]. now left.
  - intros H. right. now apply IH.
Qed.

(** Every value of a parsed frontmatter is a string, a boolean or a list
    of strings: never a number, never null, never nested.  So a key like
    [modified] never holds an integer, whatever the block says. *)
Theorem frontmatter_values (content k : string) (v : pyobj) :
  dict_get k (parse_frontmatter content) = Some v ->
  frontmatter_value v = true /\ forall n, v <> VInt n.
Proof.
  intros H.
  assert (Hok : values_ok (parse_frontmatter content)).
  { unfold parse_frontmatter.
    destruct (re_match frontmatter_re content) as [m |]; [| constructor].
    destruct (group 1 (caps m)) as [yaml |]; [| constructor].
    apply fold_parse_line_values_ok. constructor. }
  apply dict_get_In in H. unfold values_ok in Hok.
  rewrite Forall_forall in Hok. specialize (Hok _ H). cbn [snd] in Hok.
  split; [exact Hok |]. intros n ->. discriminate Hok.
Qed.

Lemma frontmatter_values_witness :
  frontmatter_value (VStr "1700000000") = true
  /\ forall n, VStr "1700000000" <> VInt n.
Proof.
  apply (frontmatter_values
           ("---" ++ nl ++ "modified: 1700000000" ++ nl ++ "---" ++ nl)
           "modified").
  reflexivity.
Defined.

Lemma dict_set_keys (k : string) (v : pyobj) (d : dict) :
  map fst (dict_set k v d)
  = if dict_mem k d then map fst d else (map fst d ++ [k])%list.
Proof.
  unfold dict_mem. induction d as [| [k' v'] d IH]; [reflexivity |].
  cbn [dict_set dict_get].
  destruct (String.eqb k' k); [reflexivity |].
  cbn [map fst]. rewrite IH.
  destruct (dict_get k d); reflexivity.
Qed.

Lemma dict_mem_In (k : string) (d : dict) :
  dict_mem k d = false -> ~ In k (map fst d).
Proof.
  unfold dict_mem. induction d as [| [k' v'] d IH]; [intros _ [] |].
  cbn [dict_get map fst].
  destruct (String.eqb_spec k' k) as [-> | Hne]; [discriminate |].
  intros H [E | Hin]; [congruence | now apply IH].
Qed.

Lemma dict_set_nodup (k : string) (v : pyobj) (d : dict) :
  NoDup (map fst d) -> NoDup (map fst (dict_set k v d)).
Proof.
  intros H. rewrite dict_set_keys.
  destruct (dict_mem k d) eqn:E; [exact H |].
  apply NoDup_app; [exact H | repeat constructor; intros [] |].
  intros x Hx [<- | []]. now apply (dict_mem_In _ _ E).
Qed.

Lemma parse_line_nodup (d : dict) (raw : string) :
  NoDup (map fst d) -> NoDup (map fst (parse_line d raw)).
Proof.
  intros Hd. unfold parse_line.
  destruct (is_empty (strip raw) || startswith_char "#" (strip raw))%bool;
    [exact Hd |].
  destruct (contains_char ":" (strip raw)).
  - destruct (split1 ":" (strip raw)) as [key value].
    now apply dict_set_nodup.
  - destruct (startswith "- " (strip raw) && _)%bool; [| exact Hd].
    destruct (dict_last d) as [[last_key v] |]; [| exact Hd].
    destruct v; try exact Hd. now apply dict_set_nodup.
Qed.

(** The keys of a parsed frontmatter are pairwise different.  A line
    with a key that is already there leaves the keys and their order as
    they are and replaces the value of that key. *)
Theorem frontmatter_keys_unique (content : string) :
  NoDup (map fst (parse_frontmatter content))
  /\ (forall frontmatter raw,
        is_empty (strip raw) = false ->
        startswith_char "#" (strip raw) = false ->
        contains_char ":" (strip raw) = true ->
        let key := strip (fst (split1 ":" (strip raw))) in
        let value := strip (snd (split1 ":" (strip raw))) in
        dict_mem key frontmatter = true ->
        map fst (parse_line frontmatter raw) = map fst frontmatter
        /\ dict_get key (parse_line frontmatter raw)
           = Some (parse_value value)).
Proof.
  split.
  - unfold parse_frontmatter.
    destruct (re_match frontmatter_re content) as [m |]; [| constructor].
    destruct (group 1 (caps m)) as [yaml |]; [| constructor].
    generalize (split newline yaml). intros lines.
    assert (H : NoDup (map fst ([] : dict))) by constructor.
    revert H. generalize ([] : dict).
    induction lines as [| raw lines IH]; intros d Hd; [exact Hd |].
    cbn [fold_left]. apply IH. now apply parse_line_nodup.
  - intros frontmatter raw H1 H2 H3 key value Hmem.
    rewrite (parse_line_key_value frontmatter raw H1 H2 H3).
    fold key value. rewrite dict_set_keys, Hmem.
    split; [reflexivity | apply dict_get_set_same].
Qed.

Lemma frontmatter_keys_unique_witness :
  map fst (parse_line [("a", VStr "1"); ("b", VStr "2")] "a: 3") = ["a"; "b"]
  /\ dict_get "a" (parse_line [("a", VStr "1"); ("b", VStr "2")] "a: 3")
     = Some (VStr "3").
Proof.
  exact (proj2 (frontmatter_keys_unique "")
           [("a", VStr "1"); ("b", VStr "2")] "a: 3"
           eq_refl eq_refl eq_refl eq_refl).
Defined.

(** *** What counts as a date *)

Lemma ichr_separator (sep c : ascii) :
  sep = "-"%char \/ sep = "/"%char ->
  Ascii.eqb (lower_char c) (lower_char sep) = true -> c = sep.
Proof.
  intros [-> | ->]; destruct c as [[] [] [] [] [] [] [] []];
    vm_compute; intros H; try discriminate H; reflexivity.
Qed.

(** A format that starts with the year and a separator matches only a
    text that starts with four digits and that separator. *)
Lemma year_and_separator (sep : ascii) (tail : re) (s : string)
    (m : state) :
  sep = "-"%char \/ sep = "/"%char ->
  re_match (Seq dir_Y (Seq (ichr sep) tail)) s = Some m ->
  exists d1 d2 d3 d4 r,
    s = String d1 (String d2 (String d3 (String d4 (String sep r))))
    /\ forallb is_digit [d1; d2; d3; d4] = true.
Proof.
  intros Hsep. unfold re_match, dir_Y, start, digit, ichr. cbn [seqs].
  rewrite run_seq, run_grp. rewrite !run_seq, run_cls. cbn [rest].
  destruct s as [| d1 s]; [discriminate |].
  destruct (is_digit d1) eqn:H1; [| discriminate].
  rewrite !run_seq, run_cls. cbn [rest].
  destruct s as [| d2 s]; [discriminate |].
  destruct (is_digit d2) eqn:H2; [| discriminate].
  rewrite !run_seq, run_cls. cbn [rest].
  destruct s as [| d3 s]; [discriminate |].
  destruct (is_digit d3) eqn:H3; [| discriminate].
  rewrite run_cls. cbn [rest].
  destruct s as [| d4 s]; [discriminate |].
  destruct (is_digit d4) eqn:H4; [| discriminate].
  rewrite run_seq, run_cls. cbn [rest].
  destruct s as [| c s]; [discriminate |].
  destruct (Ascii.eqb (lower_char c) (lower_char sep)) eqn:Hc;
    [| discriminate].
  intros _. apply (ichr_separator sep c Hsep) in Hc. subst c.
  exists d1, d2, d3, d4, s. split; [reflexivity |].
  cbn [forallb]. now rewrite H1, H2, H3, H4.
Qed.

Lemma strptime_year_prefix (s : string) (fmt : re) (dt : datetime) :
  In fmt formats -> strptime s fmt = Some dt -> year_prefix s = true.
Proof.
  intros Hin H. unfold strptime in H.
  destruct (re_match fmt s) as [m |] eqn:E; [| discriminate]. clear H.
  assert (Hs : exists sep d1 d2 d3 d4 r,
            (sep = "-"%char \/ sep = "/"%char)
            /\ s = String d1 (String d2 (String d3 (String d4 (String sep r))))
            /\ forallb is_digit [d1; d2; d3; d4] = true).
  { destruct Hin as [<- | [<- | [<- | []]]].
    - destruct (year_and_separator "-" _ s m (or_introl eq_refl) E)
        as (d1 & d2 & d3 & d4 & r & Hs).
      exists "-"%char, d1, d2, d3, d4, r. split; [now left | exact Hs].
    - destruct (year_and_separator "-" _ s m (or_introl eq_refl) E)
        as (d1 & d2 & d3 & d4 & r & Hs).
      exists "-"%char, d1, d2, d3, d4, r. split; [now left | exact Hs].
    - destruct (year_and_separator "/" _ s m (or_intror eq_refl) E)
        as (d1 & d2 & d3 & d4 & r & Hs).
      exists "/"%char, d1, d2, d3, d4, r. split; [now right | exact Hs]. }
  destruct Hs as (sep & d1 & d2 & d3 & d4 & r & Hsep & -> & Hd).
  unfold year_prefix. rewrite Hd.
  now destruct Hsep as [-> | ->].
Qed.

Lemma try_formats_none (mk : Z -> option Z) (s : string) (fmts : list re) :
  (forall fmt, In fmt fmts -> strptime s fmt = None) ->
  try_formats mk s fmts = VNone.
Proof.
  induction fmts as [| fmt fmts IH]; intros H; [reflexivity |].
  cbn [try_formats]. rewrite (H fmt (or_introl eq_refl)).
  apply IH. intros f Hf. apply H. now right.
Qed.

Lemma no_year_prefix_no_date (mk : Z -> option Z) (s : string) :
  year_prefix s = false -> parse_date_to_timestamp mk (VStr s) = VNone.
Proof.
  intros Hs. cbn [parse_date_to_timestamp].
  apply try_formats_none. intros fmt Hin.
  destruct (strptime s fmt) as [dt |] eqn:E; [| reflexivity].
  rewrite (strptime_year_prefix s fmt dt Hin E) in Hs. discriminate Hs.
Qed.

(** A string that does not start with four digits and a dash or a slash
    is no date: the conversion gives null.  In particular a number of
    seconds written as text is not converted. *)
Theorem date_needs_year_and_separator (mk : Z -> option Z) (s : string) :
  year_prefix s = false -> parse_date_to_timestamp mk (VStr s) = VNone.
Proof. exact (no_year_prefix_no_date mk s). Qed.

Lemma date_needs_year_and_separator_witness :
  parse_date_to_timestamp (fun z => Some z) (VStr "1700000000") = VNone.
Proof.
  apply (date_needs_year_and_separator (fun z => Some z) "1700000000").
  reflexivity.
Defined.

(** A [modified] key of the frontmatter whose value is a text that is no
    date makes the entry's [modified] null: the time that the query
    reported for the file is dropped all the same. *)
Theorem undated_modified_drops_git_time (w : world) (p : path) (size : Z)
    (content s : string) (k : pyobj) :
  eligible p = true ->
  is_markdown p = true ->
  fs w p = File size (ReadText content) ->
  load_keys_file w p = Ok k ->
  truthy k = false ->
  git_log w (abs_str p) <> SpawnFailed ->
  dict_get "modified" (parse_frontmatter content) = Some (VStr s) ->
  year_prefix s = false ->
  field "modified" (process_file w p) = Some VNone.
Proof.
  intros Hel Hmd Hnode Hkeys Hfalsy Hgit Hmod Hs.
  destruct (get_git_modified_time_started _ Hgit) as [m Hm].
  rewrite (process_file_markdown w p size (ReadText content) k m)
    by assumption.
  cbn [field]. rewrite apply_frontmatter_modified, Hmod.
  now rewrite no_year_prefix_no_date.
Qed.

Lemma undated_modified_drops_git_time_witness :
  get_git_modified_time (git_log world_epoch (abs_str ["epoch.md"]))
    = Ok (VInt 1650000000)
  /\ field "modified" (process_file world_epoch ["epoch.md"]) = Some VNone.
Proof.
  split; [reflexivity |].
  refine (undated_modified_drops_git_time world_epoch ["epoch.md"] 38
            epoch_text "1700000000" VNone
            eq_refl eq_refl eq_refl eq_refl eq_refl _ eq_refl eq_refl).
  discriminate.
Defined.

(** *** Second-level headings give no title *)

(** A title is taken from a heading only where a line of the content
    starts with a hash sign followed by white space.  So a heading of the
    second level, whose hash sign is followed by another one, gives no
    title. *)
Theorem heading_needs_marker (content t : string) :
  extract_title_from_heading content = Some t ->
  exists pre c post,
    content = (pre ++ String "#" (String c post))%string
    /\ is_space c = true
    /\ line_start pre.
Proof. exact (heading_marker_exists content t). Qed.

Lemma heading_needs_marker_witness :
  exists pre c post,
    ("intro" ++ nl ++ "# Hello" ++ nl)%string
      = (pre ++ String "#" (String c post))%string
    /\ is_space c = true
    /\ line_start pre.
Proof.
  apply (heading_needs_marker ("intro" ++ nl ++ "# Hello" ++ nl) "Hello").
  vm_compute. reflexivity.
Defined.

(** *** The number printed by the version-control query *)

Lemma every_app (p : ascii -> bool) (a b : string) :
  every p (a ++ b) = (every p a && every p b)%bool.
Proof.
  induction a as [| c a IH]; [reflexivity |].
  cbn [append every]. now rewrite IH, andb_assoc.
Qed.

Lemma every_rev (p : ascii -> bool) (s : string) :
  every p (rev s) = every p s.
Proof.
  induction s as [| c s IH]; [reflexivity |].
  rewrite str_rev_cons, every_app, IH. cbn [every].
  now rewrite andb_true_r, andb_comm.
Qed.

Lemma drop_while_visible (s : string) :
  every visible s = true -> drop_while is_space s = s.
Proof.
  destruct s as [| c r]; [reflexivity |]. cbn [every drop_while].
  intros H. apply andb_prop in H as [H _]. unfold visible in H.
  now destruct (is_space c).
Qed.

Lemma strip_visible (s : string) : every visible s = true -> strip s = s.
Proof.
  intros H. unfold strip, strip_with.
  rewrite (drop_while_visible s H).
  rewrite drop_while_visible by now rewrite every_rev.
  apply str_rev_involutive.
Qed.

(** The line break that ends the output is stripped. *)
Lemma strip_visible_line (s : string) :
  every visible s = true -> strip (s ++ nl) = s.
Proof.
  destruct s as [| c r]; [reflexivity |]. intros H.
  set (s := String c r) in *.
  unfold strip, strip_with.
  assert (E : drop_while is_space (s ++ nl) = (s ++ nl)%string).
  { unfold s in *. cbn [append drop_while]. cbn [every] in H.
    apply andb_prop in H as [H _]. unfold visible in H.
    now destruct (is_space c). }
  rewrite E, str_rev_app.
  change (rev nl ++ rev s)%string with (String newline (rev s)).
  cbn [drop_while]. change (is_space newline) with true. cbv iota.
  rewrite drop_while_visible by now rewrite every_rev.
  apply str_rev_involutive.
Qed.

Ltac digit_step :=
  cbn [NilEmpty.string_of_uint int_digits every Pos.of_uint_acc Pos.of_uint
       count_digits Decimal.nb_digits];
  repeat match goal with
  | |- context [is_digit ?c] => change (is_digit c) with true
  | |- context [visible ?c] => change (visible c) with true
  | |- context [digit_val ?c] =>
      let v := eval vm_compute in (digit_val c) in
      change (digit_val c) with v
  end;
  cbv iota.

Lemma every_visible_uint (d : Decimal.uint) :
  every visible (NilEmpty.string_of_uint d) = true.
Proof. induction d; digit_step; (reflexivity || exact IHd). Qed.

Lemma int_digits_acc (d : Decimal.uint) :
  forall p : positive,
    int_digits (NilEmpty.string_of_uint d) (Z.pos p) true
    = Some (Z.pos (Pos.of_uint_acc d p)).
Proof.
  induction d; intros p; digit_step; try reflexivity;
    rewrite <- IHd; f_equal; lia.
Qed.

Lemma int_digits_uint (d : Decimal.uint) :
  forall b : bool,
    d <> Decimal.Nil \/ b = true ->
    int_digits (NilEmpty.string_of_uint d) 0 b
    = Some (Z.of_N (Pos.of_uint d)).
Proof.
  induction d; intros b Hb; digit_step.
  - destruct Hb as [Hb | ->]; [now destruct Hb | reflexivity].
  - change (10 * 0 + 0) with 0. apply IHd. now right.
  - exact (int_digits_acc d 1).
  - exact (int_digits_acc d 2).
  - exact (int_digits_acc d 3).
  - exact (int_digits_acc d 4).
  - exact (int_digits_acc d 5).
  - exact (int_digits_acc d 6).
  - exact (int_digits_acc d 7).
  - exact (int_digits_acc d 8).
  - exact (int_digits_acc d 9).
Qed.

Lemma json_int_positive (p : positive) :
  json_int (Z.pos p) = NilEmpty.string_of_uint (Pos.to_uint p).
Proof.
  unfold json_int. cbn [Z.to_int NilZero.string_of_int].
  unfold NilZero.string_of_uint.
  pose proof (DecimalPos.Unsigned.to_uint_nonnil p) as H.
  now destruct (Pos.to_uint p).
Qed.

Lemma json_int_negative (p : positive) :
  json_int (Z.neg p) = String "-" (NilEmpty.string_of_uint (Pos.to_uint p)).
Proof.
  unfold json_int. cbn [Z.to_int NilZero.string_of_int].
  unfold NilZero.string_of_uint.
  pose proof (DecimalPos.Unsigned.to_uint_nonnil p) as H.
  now destruct (Pos.to_uint p).
Qed.

Lemma every_visible_json_int (n : Z) : every visible (json_int n) = true.
Proof.
  destruct n as [| p | p].
  - reflexivity.
  - rewrite json_int_positive. apply every_visible_uint.
  - rewrite json_int_negative. cbn [every].
    now rewrite every_visible_uint.
Qed.

Lemma json_int_not_empty (n : Z) : is_empty (json_int n) = false.
Proof.
  destruct n as [| p | p].
  - reflexivity.
  - rewrite json_int_positive.
    pose proof (DecimalPos.Unsigned.to_uint_nonnil p) as H.
    now destruct (Pos.to_uint p).
  - now rewrite json_int_negative.
Qed.

Lemma count_digits_uint (d : Decimal.uint) :
  count_digits (NilEmpty.string_of_uint d) = Decimal.nb_digits d.
Proof. induction d; digit_step; congruence. Qed.

Lemma of_uint_acc_lower (d : Decimal.uint) :
  forall p : positive,
    Z.pos p * 10 ^ Z.of_nat (Decimal.nb_digits d)
    <= Z.pos (Pos.of_uint_acc d p).
Proof.
  induction d; intros p;
    cbn [Pos.of_uint_acc Decimal.nb_digits];
    try (rewrite Z.pow_0_r; lia);
    rewrite Nat2Z.inj_succ, Z.pow_succ_r by lia;
    (eapply Z.le_trans; [| apply IHd]);
    rewrite Z.mul_assoc;
    apply Z.mul_le_mono_nonneg_r; try lia;
    apply Z.pow_nonneg; lia.
Qed.

Lemma to_uint_no_leading_zero (p : positive) (d : Decimal.uint) :
  Pos.to_uint p <> Decimal.D0 d.
Proof.
  intros E.
  pose proof (DecimalPos.Unsigned.to_of (Pos.to_uint p)) as H.
  rewrite DecimalPos.Unsigned.of_to in H. cbn [N.to_uint] in H.
  rewrite E in H. unfold Decimal.unorm in H.
  destruct (Decimal.nzhead (Decimal.D0 d)) eqn:En;
    try (symmetry in H; revert H; rewrite <- En;
         apply DecimalFacts.nzhead_nonzero).
  injection H as ->.
  exact (DecimalPos.Unsigned.to_uint_nonzero p E).
Qed.

(** A number below a power of ten has no more digits than the
    exponent. *)
Lemma nb_digits_bound (p : positive) (n : nat) :
  Z.pos p < 10 ^ Z.of_nat n ->
  (Decimal.nb_digits (Pos.to_uint p) <= n)%nat.
Proof.
  intros Hp.
  pose proof (DecimalPos.Unsigned.of_to p) as Hof.
  pose proof (DecimalPos.Unsigned.to_uint_nonnil p) as Hnil.
  pose proof (to_uint_no_leading_zero p) as Hzero.
  destruct (Pos.to_uint p) as [| d | d | d | d | d | d | d | d | d | d];
    [now destruct Hnil | now destruct (Hzero d) | ..];
    cbn [Pos.of_uint] in Hof; injection Hof as <-;
    cbn [Decimal.nb_digits];
    match goal with
    | Hp : Z.pos (Pos.of_uint_acc d ?k) < _ |- _ =>
        pose proof (of_uint_acc_lower d k) as Hlow
    end;
    assert (Hlt : 10 ^ Z.of_nat (Decimal.nb_digits d) < 10 ^ Z.of_nat n)
      by (assert (0 < 10 ^ Z.of_nat (Decimal.nb_digits d))
            by (apply Z.pow_pos_nonneg; lia); nia);
    apply Z.pow_lt_mono_r_iff in Hlt; lia.
Qed.

Lemma of_uint_acc_upper (d : Decimal.uint) :
  forall p : positive,
    Z.pos (Pos.of_uint_acc d p)
    < (Z.pos p + 1) * 10 ^ Z.of_nat (Decimal.nb_digits d).
Proof.
  induction d; intros p;
    cbn [Pos.of_uint_acc Decimal.nb_digits];
    try (rewrite Z.pow_0_r; lia);
    rewrite Nat2Z.inj_succ, Z.pow_succ_r by lia;
    (eapply Z.lt_le_trans; [apply IHd |]);
    rewrite Z.mul_assoc;
    apply Z.mul_le_mono_nonneg_r; try lia;
    apply Z.pow_nonneg; lia.
Qed.

(** A number that reaches a power of ten has more digits than the
    exponent. *)
Lemma nb_digits_above (p : positive) (n : nat) :
  10 ^ Z.of_nat n <= Z.pos p ->
  (n < Decimal.nb_digits (Pos.to_uint p))%nat.
Proof.
  intros Hp.
  pose proof (DecimalPos.Unsigned.of_to p) as Hof.
  pose proof (DecimalPos.Unsigned.to_uint_nonnil p) as Hnil.
  pose proof (to_uint_no_leading_zero p) as Hzero.
  destruct (Pos.to_uint p) as [| d | d | d | d | d | d | d | d | d | d];
    [now destruct Hnil | now destruct (Hzero d) | ..];
    cbn [Pos.of_uint] in Hof; injection Hof as <-;
    cbn [Decimal.nb_digits];
    match goal with
    | Hp : _ <= Z.pos (Pos.of_uint_acc d ?k) |- _ =>
        pose proof (of_uint_acc_upper d k) as Hup
    end;
    assert (Hlt : 10 ^ Z.of_nat n
                  < 10 ^ Z.of_nat (S (Decimal.nb_digits d)))
      by (rewrite Nat2Z.inj_succ, Z.pow_succ_r by lia;
          assert (0 < 10 ^ Z.of_nat (Decimal.nb_digits d))
            by (apply Z.pow_pos_nonneg; lia); nia);
    apply Z.pow_lt_mono_r_iff in Hlt; lia.
Qed.

Lemma count_digits_json_int_above (n : Z) (limit : nat) :
  10 ^ Z.of_nat limit <= Z.abs n ->
  (limit < count_digits (json_int n))%nat.
Proof.
  intros Hn. destruct n as [| p | p].
  - cbn [Z.abs] in Hn.
    assert (0 < 10 ^ Z.of_nat limit) by (apply Z.pow_pos_nonneg; lia). lia.
  - rewrite json_int_positive, count_digits_uint.
    now apply nb_digits_above.
  - rewrite json_int_negative. cbn [count_digits].
    change (is_digit "-") with false. cbv iota.
    rewrite count_digits_uint. now apply nb_digits_above.
Qed.

Lemma count_digits_json_int (n : Z) (limit : nat) :
  Z.abs n < 10 ^ Z.of_nat limit ->
  (0 < limit)%nat ->
  (count_digits (json_int n) <= limit)%nat.
Proof.
  intros Hn Hlimit. destruct n as [| p | p].
  - cbn. lia.
  - rewrite json_int_positive, count_digits_uint.
    now apply nb_digits_bound.
  - rewrite json_int_negative. cbn [count_digits].
    change (is_digit "-") with false. cbv iota.
    rewrite count_digits_uint. now apply nb_digits_bound.
Qed.

(** [int] reads a decimal numeral back, within the limit on the number
    of digits. *)
Lemma py_int_json_int (n : Z) :
  Z.abs n < 10 ^ Z.of_nat int_max_str_digits ->
  py_int (json_int n) = Some n.
Proof.
  intros Hn. unfold py_int.
  assert (Hlimit : (int_max_str_digits
                    <? count_digits (json_int n))%nat = false).
  { apply Nat.ltb_ge. apply count_digits_json_int; [exact Hn |].
    unfold int_max_str_digits. apply Nat.lt_0_succ. }
  rewrite Hlimit.
  rewrite (strip_visible _ (every_visible_json_int n)).
  destruct n as [| p | p].
  - reflexivity.
  - rewrite json_int_positive.
    pose proof (DecimalPos.Unsigned.to_uint_nonnil p) as H.
    pose proof (DecimalPos.Unsigned.of_to p) as Hp.
    pose proof (int_digits_uint (Pos.to_uint p) false (or_introl H)) as E.
    rewrite Hp in E. cbn [Z.of_N] in E.
    destruct (Pos.to_uint p); [now destruct H | ..];
      cbn [NilEmpty.string_of_uint] in *; exact E.
  - rewrite json_int_negative.
    pose proof (DecimalPos.Unsigned.to_uint_nonnil p) as H.
    pose proof (DecimalPos.Unsigned.of_to p) as Hp.
    rewrite (int_digits_uint (Pos.to_uint p) false (or_introl H)), Hp.
    reflexivity.
Qed.

Lemma py_int_beyond_limit (n : Z) :
  10 ^ Z.of_nat int_max_str_digits <= Z.abs n ->
  py_int (json_int n) = None.
Proof.
  intros Hn. unfold py_int.
  assert (Hlimit : (int_max_str_digits
                    <? count_digits (json_int n))%nat = true)
    by (apply Nat.ltb_lt; now apply count_digits_json_int_above).
  now rewrite Hlimit.
Qed.

(** When the query succeeds and prints a decimal numeral on a line, as it
    does for a file with history, the modification time is that number,
    as long as the numeral stays within the limit of 4300 digits that
    [int] sets; beyond the limit the modification time is null. *)
Theorem git_timestamp_read_back (n : Z) :
  (Z.abs n < 10 ^ 4300 ->
   get_git_modified_time (Exited 0 (json_int n ++ nl)) = Ok (VInt n))
  /\ (10 ^ 4300 <= Z.abs n ->
      get_git_modified_time (Exited 0 (json_int n ++ nl)) = Ok VNone).
Proof.
  unfold get_git_modified_time. change (negb (0 =? 0)) with false.
  cbv iota. rewrite (strip_visible_line _ (every_visible_json_int n)).
  rewrite json_int_not_empty.
  replace 4300 with (Z.of_nat int_max_str_digits) by reflexivity.
  split; intros Hn.
  - now rewrite py_int_json_int.
  - now rewrite py_int_beyond_limit.
Qed.

Lemma git_timestamp_read_back_witness :
  get_git_modified_time (Exited 0 ("1700000000" ++ nl))
  = Ok (VInt 1700000000)
  /\ get_git_modified_time (Exited 0 (json_int (10 ^ 4300) ++ nl))
     = Ok VNone.
Proof.
  split.
  - apply (proj1 (git_timestamp_read_back 1700000000)). reflexivity.
  - apply (proj2 (git_timestamp_read_back (10 ^ 4300))).
    vm_compute. discriminate.
Defined.

(** *** The tags of a markdown file *)

Lemma apply_frontmatter_tags (w : world) (content : string) (p : path)
    (size : Z) (m : pyobj) :
  dict_get "tags" (apply_frontmatter w content (default_entry p size m))
  = Some (match dict_get "tags" (parse_frontmatter content) with
          | Some t => if is_list t then t else VList []
          | None => VList []
          end).
Proof.
  unfold apply_frontmatter.
  set (fm := parse_frontmatter content).
  assert (Hmod : forall e : dict,
    dict_get "tags"
      (match dict_get "modified" fm with
       | Some v => dict_set "modified" (parse_date_to_timestamp (mktime w) v) e
       | None => e
       end) = dict_get "tags" e).
  { intros e. destruct (dict_get "modified" fm); [| reflexivity].
    now apply dict_get_set_other. }
  rewrite Hmod.
  assert (Htitle :
    dict_get "tags"
      (match dict_get "title" fm with
       | Some t => dict_set "title" t (default_entry p size m)
       | None =>
           match extract_title_from_heading content with
           | Some heading_title =>
               if negb (is_empty heading_title)
               then dict_set "title" (VStr heading_title)
                      (default_entry p size m)
               else default_entry p size m
           | None => default_entry p size m
           end
       end) = Some (VList [])).
  { destruct (dict_get "title" fm);
      [| destruct (extract_title_from_heading content) as [h |];
         [destruct (is_empty h) |]]; reflexivity. }
  destruct (dict_get "tags" fm) as [t |]; [| exact Htitle].
  destruct (is_list t); [| exact Htitle].
  apply dict_get_set_same.
Qed.

Lemma parse_frontmatter_values_ok (content : string) :
  values_ok (parse_frontmatter content).
Proof.
  unfold parse_frontmatter.
  destruct (re_match frontmatter_re content) as [m |]; [| constructor].
  destruct (group 1 (caps m)) as [yaml |]; [| constructor].
  apply fold_parse_line_values_ok. constructor.
Qed.

(** The tags of a markdown file without a usable sidecar file are a list
    of strings: the list that the frontmatter gives under [tags], and the
    empty list when the frontmatter has no such key or gives it a value
    that is no list, such as a plain word. *)
Theorem markdown_tags_are_strings (w : world) (p : path) (size : Z)
    (content : string) (k : pyobj) :
  eligible p = true ->
  is_markdown p = true ->
  fs w p = File size (ReadText content) ->
  load_keys_file w p = Ok k ->
  truthy k = false ->
  git_log w (abs_str p) <> SpawnFailed ->
  exists l,
    field "tags" (process_file w p) = Some (VList l)
    /\ forallb is_str l = true
    /\ (dict_get "tags" (parse_frontmatter content) = Some (VList l)
        \/ (l = []
            /\ forall l', dict_get "tags" (parse_frontmatter content)
                          <> Some (VList l'))).
Proof.
  intros Hel Hmd Hnode Hkeys Hfalsy Hgit.
  destruct (get_git_modified_time_started _ Hgit) as [m Hm].
  rewrite (process_file_markdown w p size (ReadText content) k m)
    by assumption.
  cbn [field]. rewrite apply_frontmatter_tags.
  pose proof (parse_frontmatter_values_ok content) as Hok.
  destruct (dict_get "tags" (parse_frontmatter content)) as [t |] eqn:E.
  - apply dict_get_In in E. unfold values_ok in Hok.
    rewrite Forall_forall in Hok. specialize (Hok _ E). cbn [snd] in Hok.
    destruct t as [| b | n | f | s | l | d]; cbn [is_list];
      try (exists []; split; [reflexivity | split; [reflexivity |]];
           right; split; [reflexivity | intros l' H; discriminate H]).
    exists l. split; [reflexivity | split; [exact Hok | now left]].
  - exists []. split; [reflexivity | split; [reflexivity |]].
    right. split; [reflexivity | intros l' H; discriminate H].
Qed.

Lemma markdown_tags_are_strings_witness :
  exists l,
    field "tags" (process_file world_tagged ["tagged.md"]) = Some (VList l)
    /\ forallb is_str l = true
    /\ (dict_get "tags" (parse_frontmatter tagged_text) = Some (VList l)
        \/ (l = []
            /\ forall l', dict_get "tags" (parse_frontmatter tagged_text)
                          <> Some (VList l'))).
Proof.
  refine (markdown_tags_are_strings world_tagged ["tagged.md"] 30
            tagged_text VNone eq_refl eq_refl eq_refl eq_refl eq_refl _).
  discriminate.
Defined.

(** *** A sidecar file that cannot be used *)

Lemma fs_without_other (w : world) (p q : path) :
  p <> q -> fs (without w q) p = fs w p.
Proof. intros H. cbn [without fs]. now rewrite (path_eqb_neq p q H). Qed.

Lemma load_keys_file_without (w : world) (p : path) :
  load_keys_file (without w (keys_path p)) p = Ok VNone.
Proof.
  unfold load_keys_file, load_json. cbn [without fs].
  now rewrite path_eqb_refl.
Qed.

(** A sidecar file that cannot be opened, that holds no JSON document, or
    whose document is null, zero, empty or false, changes nothing: the
    file is processed as if the sidecar file were not there. *)
Theorem unusable_sidecar_is_absent (w : world) (p : path) (k : pyobj) :
  load_keys_file w p = Ok k ->
  truthy k = false ->
  process_file (without w (keys_path p)) p = process_file w p.
Proof.
  intros Hkeys Hfalsy.
  destruct (eligible p) eqn:Hel.
  - rewrite !(process_file_complete _ p Hel).
    rewrite load_keys_file_without, Hkeys.
    assert (Hfs : fs (without w (keys_path p)) p = fs w p).
    { apply fs_without_other. intros H. symmetry in H.
      exact (keys_path_neq p H). }
    unfold stat_size, read_text. rewrite Hfs.
    change (git_log (without w (keys_path p))) with (git_log w).
    destruct (match fs w p with
              | Missing => Raise FileNotFoundError
              | Directory n => Ok n
              | File n _ => Ok n
              end) as [size | x]; [| reflexivity].
    cbn [bind].
    destruct (get_git_modified_time (git_log w (abs_str p))) as [m | x];
      [| reflexivity].
    cbn [bind]. unfold complete_entry. rewrite Hfalsy.
    cbn [truthy]. reflexivity.
  - now rewrite !process_file_not_eligible.
Qed.

Lemma unusable_sidecar_is_absent_witness :
  process_file (without world_empty_sidecar (keys_path ["post.md"]))
    ["post.md"]
  = process_file world_empty_sidecar ["post.md"].
Proof.
  apply (unusable_sidecar_is_absent world_empty_sidecar ["post.md"]
           (VDict [])); reflexivity.
Defined.

(** *** What a frontmatter block looks like *)

(** The frontmatter yields keys only if the content starts with a line of
    three dashes and holds a second such line: each may end in white
    space, and a line break must follow it.  A leading blank line, or a
    missing closing line, leaves the frontmatter empty. *)
Theorem frontmatter_needs_block (content : string) :
  parse_frontmatter content <> [] ->
  exists a b c d,
    content = ("---" ++ a ++ nl ++ b ++ nl ++ "---" ++ c ++ nl ++ d)%string
    /\ every is_space a = true
    /\ every is_space c = true.
Proof.
  unfold parse_frontmatter. intros H.
  destruct (re_match frontmatter_re content) as [m |] eqn:E;
    [| now destruct H].
  destruct (frontmatter_match_block content m E) as (a & b & c & Hc).
  now exists a, b, c, (rest m).
Qed.

Lemma frontmatter_needs_block_witness :
  exists a b c d,
    post_text = ("---" ++ a ++ nl ++ b ++ nl ++ "---" ++ c ++ nl ++ d)%string
    /\ every is_space a = true
    /\ every is_space c = true.
Proof.
  apply (frontmatter_needs_block post_text).
  vm_compute. discriminate.
Defined.

End Manifest.
